(** * CTT Cross-Sync vortex: cascade timing, resonance analysis, handshake

    A shallow embedding of [CTT-Cross-Sync-Browser-to-Kernel-Temporal-Resonance-Escape.js]
    (class [CTT_CrossSyncVortex] and the global initialisation).

    Number model.  A JavaScript Number is embedded as [number]: the three
    non-finite values [NaN], [+Infinity], [-Infinity], or a finite value
    carried as a real.  Finite arithmetic is the exact real arithmetic, so
    binary64 rounding, overflow and the sign of zero are idealised away;
    what is kept is the part of IEEE arithmetic the control flow of the
    program depends on: [0/0 = NaN], [x/0 = +-Infinity], NaN propagation and
    the fact that every comparison with NaN is false.  [Math.exp],
    [Math.sin] and [Math.cos] are the real functions on finite arguments.

    Where the idealisation stands for binary64.  [Fin (exp x)] in a
    statement stands for the number the code gets from [Math.exp], and
    likewise for sums and products.  The statements that depend on the
    value of such a number carry the hypotheses that keep binary64 in
    agreement with them: bounds on exponents and factors where [Math.exp]
    or a product would overflow or underflow, exactly two samples where a
    mean has to be exact, and a margin around a threshold or a closed
    interval where rounding could reach the boundary.

    Effects.  Methods run in a state-and-exception monad over [State] (the
    fields of the vortex object together with the part of the page the code
    mutates) and read the ambient environment [Env] (the clock, the random
    source and which host primitives are available or throw). *)

From Stdlib Require Import Reals Lra ZArith List String Bool Lia.
Import ListNotations.

Local Open Scope R_scope.

(* ================================================================== *)
(** ** Numbers *)

Module Number.

Inductive number : Type :=
| NaN
| PInf
| NInf
| Fin (r : R).

Inductive sign : Type := Neg | Zero | Pos.

Definition sign_of_R (x : R) : sign :=
  if Rlt_dec 0 x then Pos else if Rlt_dec x 0 then Neg else Zero.

Definition of_Z (z : Z) : number := Fin (IZR z).

Definition neg (a : number) : number :=
  match a with
  | NaN => NaN
  | PInf => NInf
  | NInf => PInf
  | Fin x => Fin (- x)
  end.

Definition add (a b : number) : number :=
  match a, b with
  | NaN, _ | _, NaN => NaN
  | PInf, NInf | NInf, PInf => NaN
  | PInf, _ | _, PInf => PInf
  | NInf, _ | _, NInf => NInf
  | Fin x, Fin y => Fin (x + y)
  end.

Definition sub (a b : number) : number := add a (neg b).

(** Infinity scaled by a finite factor of the given sign. *)
Definition scale_inf (positive : bool) (s : sign) : number :=
  match s with
  | Zero => NaN
  | Pos => if positive then PInf else NInf
  | Neg => if positive then NInf else PInf
  end.

Definition mul (a b : number) : number :=
  match a, b with
  | NaN, _ | _, NaN => NaN
  | Fin x, Fin y => Fin (x * y)
  | PInf, PInf | NInf, NInf => PInf
  | PInf, NInf | NInf, PInf => NInf
  | PInf, Fin y | Fin y, PInf => scale_inf true (sign_of_R y)
  | NInf, Fin y | Fin y, NInf => scale_inf false (sign_of_R y)
  end.

Definition div (a b : number) : number :=
  match a, b with
  | NaN, _ | _, NaN => NaN
  | Fin x, Fin y =>
      if Req_dec_T y 0
      then match sign_of_R x with
           | Zero => NaN
           | Pos => PInf
           | Neg => NInf
           end
      else Fin (x / y)
  | Fin _, (PInf | NInf) => Fin 0
  | (PInf | NInf), (PInf | NInf) => NaN
  | PInf, Fin y => if Rlt_dec y 0 then NInf else PInf
  | NInf, Fin y => if Rlt_dec y 0 then PInf else NInf
  end.

Definition Math_abs (a : number) : number :=
  match a with
  | NaN => NaN
  | PInf | NInf => PInf
  | Fin x => Fin (Rabs x)
  end.

(** [a < b]; false as soon as one side is NaN. *)
Definition lt (a b : number) : bool :=
  match a, b with
  | NaN, _ | _, NaN => false
  | _, NInf => false
  | NInf, _ => true
  | PInf, _ => false
  | Fin _, PInf => true
  | Fin x, Fin y => if Rlt_dec x y then true else false
  end.

(** [a <= b]; false as soon as one side is NaN. *)
Definition le (a b : number) : bool :=
  match a, b with
  | NaN, _ | _, NaN => false
  | NInf, _ => true
  | _, PInf => true
  | _, NInf => false
  | PInf, _ => false
  | Fin x, Fin y => if Rle_dec x y then true else false
  end.

(** [Math.max(a, b)]: NaN if either argument is NaN. *)
Definition Math_max (a b : number) : number :=
  match a, b with
  | NaN, _ | _, NaN => NaN
  | _, _ => if lt a b then b else a
  end.

Definition Math_exp (a : number) : number :=
  match a with
  | NaN => NaN
  | PInf => PInf
  | NInf => Fin 0
  | Fin x => Fin (exp x)
  end.

Definition Math_sin (a : number) : number :=
  match a with
  | Fin x => Fin (sin x)
  | _ => NaN
  end.

Definition Math_cos (a : number) : number :=
  match a with
  | Fin x => Fin (cos x)
  | _ => NaN
  end.

(** [xs.reduce((a, b) => a + b, 0)] *)
Definition sum (xs : list number) : number := fold_left add xs (Fin 0).

End Number.
Import Number.

Declare Scope js_scope.
Delimit Scope js_scope with js.
Bind Scope js_scope with number.
Infix "+" := add : js_scope.
Infix "-" := sub : js_scope.
Infix "*" := mul : js_scope.
Infix "/" := div : js_scope.
Infix "<?" := lt : js_scope.
Infix "<=?" := le : js_scope.
Notation "- x" := (neg x) : js_scope.

(* ================================================================== *)
(** ** Configuration and data *)

(** The object [CTT_CONFIG]; the methods read every parameter through it. *)
Record Config : Type := {
  ALPHA : number;
  LAYERS : Z;
  PRIMES : list Z;
  RESONANCE_THRESHOLD : number;
  CROSS_ORIGIN_TARGETS : list string
}.

Definition CTT_CONFIG : Config := {|
  ALPHA := Fin 0.0302011;
  LAYERS := 33;
  PRIMES := [2; 3; 5; 7; 11; 13; 17; 19; 23; 29; 31]%Z;
  RESONANCE_THRESHOLD := Fin 0.4041;
  CROSS_ORIGIN_TARGETS :=
    ["https://internal-banking.sovereign"%string;
     "https://admin-portal.corp"%string;
     "https://api.privileged-service"%string]
|}.

(** The [data] of a message event, as far as the listeners look at it;
    [None] is a field the sender left out ([undefined]). *)
Record MessageData : Type := {
  msg_type : string;
  msg_bridgeId : option string;
  msg_energy : option number
}.

(** The object literal built by [establishTemporalBridge]. *)
Record Bridge : Type := {
  id : option string;
  energy : option number;
  established : number
}.

(** One element of the local array [frequencies] of [analyzeResonancePattern];
    [f_energy] is [this.energyLevels[layer]], [None] when out of range. *)
Record Frequency : Type := {
  f_layer : Z;
  f_avgDelay : number;
  f_expected : number;
  f_deviation : number;
  f_energy : option number
}.

(** What the code writes to the console; formatting is left out, the
    numbers printed are kept. *)
Inductive LogMsg : Type :=
| L_Initializing
| L_Theorem (alpha : number)
| L_TheoremParams (alpha : number) (layers : Z)
| L_TotalEnergy (total : number)
| L_Layer (d : Z) (energy cumulative : number)
| L_ThresholdReached (d : Z)
| L_VortexComplete (total : number)
| L_ResonanceAchieved
| L_RetuningParameters
| L_Retuning (adjustedAlpha : number)
| L_ResonanceEstablished (avgDeviation : number)
| L_ResonanceIncomplete (avgDeviation : number)
| L_AttemptingHandshake
| L_HandshakeResponse
| L_BridgeEstablished (bridgeId : option string)
| L_InitiatingExchange
| L_WorkerUnavailable
| L_SharedWorkerUnavailable
| L_BroadcastUnavailable
| L_ServiceWorkerUnavailable
| L_VortexFailed.

(** Effects on the page, in the order they happen. *)
Inductive Event : Type :=
| Log (m : LogMsg)
| DomMarker (layer : Z) (e : number)            (* appendChild of a marker *)
| WorkerStarted (layer : Z)                     (* new Worker(blob url) *)
| RafLoop (layer : Z) (e : number)              (* requestAnimationFrame(pressureLoop) *)
| Timer (delay : number)                        (* setTimeout(..., totalDelay) elapsed *)
| IframeHandshake (total : number) (timestamp : number)
| MessageListenerAdded
| SharedWorkerRegister (total : number)
| BroadcastSent (alpha total : number) (resonance : bool)
| ServiceWorkerSync (total : number) (layers : Z)
| WindowExchange (bridgeId : option string) (layers : Z)
                 (energyDistribution : list number) (primeResonance : list Z)
| StorageSet (b : Bridge).

(** The vortex object ([this]) and the part of the page the code changes. *)
Record State : Type := {
  energyLevels : list number;
  totalEnergy : number;
  temporalFrequencies : list (Z * list number);  (* a Map, in insertion order *)
  resonanceEstablished : bool;
  activeBridge : option Bridge;
  messageListeners : nat;      (* handshake listeners on window 'message' *)
  storedBridge : option Bridge;   (* localStorage['ctt_bridge'] *)
  clockReads : nat;            (* calls of Date.now() so far *)
  randomReads : nat;           (* calls of Math.random() so far *)
  trace : list Event           (* most recent first *)
}.

(** The ambient environment: what the host answers.  There is a failure
    switch for every host call the code guards (a feature test, a [try] or
    a [catch]) and for the DOM and frame calls of the stimuli.  The host
    calls of the handshake that the code does not guard
    ([document.getElementsByTagName], [window.addEventListener], the
    access to [navigator.serviceWorker.ready]) are taken to succeed, as
    are [console] and the timers. *)
Record Env : Type := {
  Date_now : nat -> R;             (* the k-th reading of the clock, in ms *)
  Math_random : nat -> R;          (* the k-th random number *)
  dom_throws : Z -> bool;          (* the DOM calls of applyDOMPressure throw *)
  has_Worker : bool;               (* window.Worker *)
  worker_throws : Z -> bool;       (* Blob / URL / new Worker throws *)
  raf_throws : Z -> bool;          (* performance.now / requestAnimationFrame throws *)
  iframes : list bool;             (* per iframe: postMessage throws *)
  has_SharedWorker : bool;
  sharedWorker_throws : bool;
  has_BroadcastChannel : bool;
  broadcast_throws : bool;
  has_serviceWorker : bool;
  serviceWorker_ready : bool;      (* the ready promise resolves and the
                                      active worker takes the message *)
  serviceWorker_pending : bool;    (* the ready promise never settles *)
  storage_throws : bool            (* localStorage.setItem throws *)
}.

(* ================================================================== *)
(** ** The monad: state, environment, exceptions *)

Inductive Error : Type :=
| DomError (layer : Z)
| WorkerError (layer : Z)
| RafError (layer : Z)
| HostError.

Inductive Outcome (A : Type) : Type :=
| Ok (a : A) (s : State)
| Throw (e : Error) (s : State).
Arguments Ok {A} a s.
Arguments Throw {A} e s.

Definition M (A : Type) : Type := Env -> State -> Outcome A.

Definition ret {A} (a : A) : M A := fun _ s => Ok a s.

Definition bind {A B} (m : M A) (k : A -> M B) : M B :=
  fun env s =>
    match m env s with
    | Ok a s' => k a env s'
    | Throw e s' => Throw e s'
    end.

Definition throw {A} (e : Error) : M A := fun _ s => Throw e s.

(** [try { m } catch (e) { h }] *)
Definition try_catch {A} (m : M A) (h : M A) : M A :=
  fun env s =>
    match m env s with
    | Ok a s' => Ok a s'
    | Throw _ s' => h env s'
    end.

Definition get : M State := fun _ s => Ok s s.
Definition put (s : State) : M unit := fun _ _ => Ok tt s.
Definition ask : M Env := fun env s => Ok env s.
Definition when (b : bool) (m : M unit) : M unit := if b then m else ret tt.

Declare Scope monad_scope.
Delimit Scope monad_scope with monad.
Notation "x <- m ;; k" := (bind m (fun x => k))
  (at level 61, m at next level, right associativity) : monad_scope.
Notation "m ;; k" := (bind m (fun _ => k))
  (at level 61, right associativity) : monad_scope.
Local Open Scope monad_scope.

Definition final_state {A} (o : Outcome A) : State :=
  match o with Ok _ s | Throw _ s => s end.

Definition completed {A} (o : Outcome A) : bool :=
  match o with Ok _ _ => true | Throw _ _ => false end.

(** *** Field updates *)

Definition set_temporalFrequencies (tf : list (Z * list number)) (s : State) : State :=
  {| energyLevels := energyLevels s; totalEnergy := totalEnergy s;
     temporalFrequencies := tf;
     resonanceEstablished := resonanceEstablished s;
     activeBridge := activeBridge s; messageListeners := messageListeners s;
     storedBridge := storedBridge s; clockReads := clockReads s;
     randomReads := randomReads s; trace := trace s |}.

Definition set_resonanceEstablished (b : bool) (s : State) : State :=
  {| energyLevels := energyLevels s; totalEnergy := totalEnergy s;
     temporalFrequencies := temporalFrequencies s;
     resonanceEstablished := b;
     activeBridge := activeBridge s; messageListeners := messageListeners s;
     storedBridge := storedBridge s; clockReads := clockReads s;
     randomReads := randomReads s; trace := trace s |}.

Definition set_activeBridge (b : option Bridge) (s : State) : State :=
  {| energyLevels := energyLevels s; totalEnergy := totalEnergy s;
     temporalFrequencies := temporalFrequencies s;
     resonanceEstablished := resonanceEstablished s;
     activeBridge := b; messageListeners := messageListeners s;
     storedBridge := storedBridge s; clockReads := clockReads s;
     randomReads := randomReads s; trace := trace s |}.

Definition set_messageListeners (n : nat) (s : State) : State :=
  {| energyLevels := energyLevels s; totalEnergy := totalEnergy s;
     temporalFrequencies := temporalFrequencies s;
     resonanceEstablished := resonanceEstablished s;
     activeBridge := activeBridge s; messageListeners := n;
     storedBridge := storedBridge s; clockReads := clockReads s;
     randomReads := randomReads s; trace := trace s |}.

Definition set_storedBridge (b : option Bridge) (s : State) : State :=
  {| energyLevels := energyLevels s; totalEnergy := totalEnergy s;
     temporalFrequencies := temporalFrequencies s;
     resonanceEstablished := resonanceEstablished s;
     activeBridge := activeBridge s; messageListeners := messageListeners s;
     storedBridge := b; clockReads := clockReads s;
     randomReads := randomReads s; trace := trace s |}.

Definition set_clockReads (n : nat) (s : State) : State :=
  {| energyLevels := energyLevels s; totalEnergy := totalEnergy s;
     temporalFrequencies := temporalFrequencies s;
     resonanceEstablished := resonanceEstablished s;
     activeBridge := activeBridge s; messageListeners := messageListeners s;
     storedBridge := storedBridge s; clockReads := n;
     randomReads := randomReads s; trace := trace s |}.

Definition set_randomReads (n : nat) (s : State) : State :=
  {| energyLevels := energyLevels s; totalEnergy := totalEnergy s;
     temporalFrequencies := temporalFrequencies s;
     resonanceEstablished := resonanceEstablished s;
     activeBridge := activeBridge s; messageListeners := messageListeners s;
     storedBridge := storedBridge s; clockReads := clockReads s;
     randomReads := n; trace := trace s |}.

Definition set_trace (t : list Event) (s : State) : State :=
  {| energyLevels := energyLevels s; totalEnergy := totalEnergy s;
     temporalFrequencies := temporalFrequencies s;
     resonanceEstablished := resonanceEstablished s;
     activeBridge := activeBridge s; messageListeners := messageListeners s;
     storedBridge := storedBridge s; clockReads := clockReads s;
     randomReads := randomReads s; trace := t |}.

Definition modify (f : State -> State) : M unit := fun _ s => Ok tt (f s).

(** *** Host primitives *)

Definition emit (e : Event) : M unit := modify (fun s => set_trace (e :: trace s) s).

Definition console_log (m : LogMsg) : M unit := emit (Log m).

(** [Date.now()] *)
Definition now : M number :=
  fun env s => Ok (Fin (Date_now env (clockReads s)))
                  (set_clockReads (S (clockReads s)) s).

(** [Math.random()] *)
Definition random : M number :=
  fun env s => Ok (Fin (Math_random env (randomReads s)))
                  (set_randomReads (S (randomReads s)) s).

(* ================================================================== *)
(** ** The Map [temporalFrequencies] *)

Module FreqMap.

Definition t : Type := list (Z * list number).

(** [m.has(k)] *)
Fixpoint has (k : Z) (m : t) : bool :=
  match m with
  | [] => false
  | (k', _) :: m' => (k =? k')%Z || has k m'
  end.

(** [m.get(k)], [None] for [undefined] *)
Fixpoint lookup (k : Z) (m : t) : option (list number) :=
  match m with
  | [] => None
  | (k', v) :: m' => if (k =? k')%Z then Some v else lookup k m'
  end.

(** [m.set(k, v)]: an existing key keeps its place, a new one goes last. *)
Fixpoint set (k : Z) (v : list number) (m : t) : t :=
  match m with
  | [] => [(k, v)]
  | (k', v') :: m' =>
      if (k =? k')%Z then (k', v) :: m' else (k', v') :: set k v m'
  end.

(** [m.get(k).push(x)]: the array stored under [k] grows in place.  On a
    missing key the source would throw; [recordFrequency] sets the key
    first, so that case is not reached. *)
Fixpoint push (k : Z) (x : number) (m : t) : t :=
  match m with
  | [] => []
  | (k', v) :: m' =>
      if (k =? k')%Z then (k', v ++ [x]) :: m' else (k', v) :: push k x m'
  end.

End FreqMap.

(* ================================================================== *)
(** ** class CTT_CrossSyncVortex *)

(** [layer % p === 0]; the remainder by zero is NaN, never equal to 0. *)
Definition rem_is_zero (layer p : Z) : bool :=
  negb (p =? 0)%Z && (Z.rem layer p =? 0)%Z.

(** [arr[i]] for an integer index; [None] is [undefined]. *)
Definition index {A} (arr : list A) (i : Z) : option A :=
  if (i <? 0)%Z then None else nth_error arr (Z.to_nat i).

(** The indices [0 .. n-1] that [Array.from({length: n}, ...)] and the loop
    [for (d = 0; d < n; d++)] run through; none when [n <= 0]. *)
Definition indices (n : Z) : list Z := map Z.of_nat (seq 0 (Z.to_nat n)).

Section Vortex.

Variable cfg : Config.

(** [Math.exp(-CTT_CONFIG.ALPHA * d)] *)
Definition decay (d : Z) : number :=
  Math_exp (mul (neg (ALPHA cfg)) (of_Z d)).

(** The state a page starts in, before any vortex exists. *)
Definition fresh_page : State := {|
  energyLevels := [];
  totalEnergy := NaN;
  temporalFrequencies := [];
  resonanceEstablished := false;
  activeBridge := None;
  messageListeners := 0;
  storedBridge := None;
  clockReads := 0;
  randomReads := 0;
  trace := []
|}.

(** [constructor()]: sets the fields of [this]; the page is left alone.
    One [State] holds the vortex and the page, so it stands for a page
    with one vortex at a time: the listeners counted in [messageListeners]
    are taken to belong to the vortex of the state.  [LAYERS] is an
    integer of any size; a length of [2^32] or more, which [Array.from]
    refuses, is not told apart. *)
Definition constructor : M unit :=
  modify (fun s =>
    let levels := map decay (indices (LAYERS cfg)) in
    {| energyLevels := levels;
       totalEnergy := sum levels;
       temporalFrequencies := [];
       resonanceEstablished := false;
       activeBridge := None;
       messageListeners := messageListeners s;
       storedBridge := storedBridge s;
       clockReads := clockReads s;
       randomReads := randomReads s;
       trace := trace s |}).

Definition calculateEnergyCascade : M number :=
  console_log (L_TheoremParams (ALPHA cfg) (LAYERS cfg)) ;;
  s <- get ;;
  console_log (L_TotalEnergy (totalEnergy s)) ;;
  ret (totalEnergy s).

(** *** Stimuli *)

(** [applyDOMPressure]: no handler around the DOM calls.  The animation
    frame callback and the cleanup timer run later and touch only the
    marker element. *)
Definition applyDOMPressure (layer : Z) (e : number) : M unit :=
  env <- ask ;;
  if dom_throws env layer then throw (DomError layer)
  else emit (DomMarker layer e).

(** [applyWorkerPressure]: guarded by [window.Worker] and a [try]/[catch]. *)
Definition applyWorkerPressure (layer : Z) : M unit :=
  env <- ask ;;
  when (has_Worker env)
    (try_catch
       (if worker_throws env layer then throw (WorkerError layer)
        else emit (WorkerStarted layer))
       (console_log L_WorkerUnavailable)).

(** [applyRAFPressure]: no handler either. *)
Definition applyRAFPressure (layer : Z) (e : number) : M unit :=
  env <- ask ;;
  if raf_throws env layer then throw (RafError layer)
  else emit (RafLoop layer e).

(** *** Handshake *)

Definition initiateCrossDomainExchange (bridge : Bridge) : M unit :=
  console_log L_InitiatingExchange ;;
  s <- get ;;
  emit (WindowExchange (id bridge) (LAYERS cfg) (energyLevels s) (PRIMES cfg)) ;;
  env <- ask ;;
  try_catch
    (if storage_throws env then throw HostError
     else modify (set_storedBridge (Some bridge)) ;; emit (StorageSet bridge))
    (ret tt).

Definition establishTemporalBridge (handshakeData : MessageData) : M unit :=
  console_log (L_BridgeEstablished (msg_bridgeId handshakeData)) ;;
  t <- now ;;
  let bridge := {| id := msg_bridgeId handshakeData;
                   energy := msg_energy handshakeData;
                   established := t |} in
  modify (set_activeBridge (Some bridge)) ;;
  initiateCrossDomainExchange bridge.

(** The listener that [handshakeViaPostMessage] adds to [window]. *)
Definition handshake_listener (data : MessageData) : M unit :=
  when (String.eqb (msg_type data) "CTT_HANDSHAKE_RESPONSE")
    (console_log L_HandshakeResponse ;;
     establishTemporalBridge data).

Fixpoint post_to_iframes (fs : list bool) : M unit :=
  match fs with
  | [] => ret tt
  | throws :: fs' =>
      try_catch
        (s <- get ;;
         t <- now ;;
         if throws then throw HostError
         else emit (IframeHandshake (totalEnergy s) t))
        (ret tt) ;;
      post_to_iframes fs'
  end.

Definition handshakeViaPostMessage : M unit :=
  env <- ask ;;
  post_to_iframes (iframes env) ;;
  modify (fun s => set_messageListeners (S (messageListeners s)) s) ;;
  emit MessageListenerAdded.

Definition handshakeViaSharedWorker : M unit :=
  env <- ask ;;
  when (has_SharedWorker env)
    (try_catch
       (if sharedWorker_throws env then throw HostError
        else _ <- now ;;
             s <- get ;;
             emit (SharedWorkerRegister (totalEnergy s)))
       (console_log L_SharedWorkerUnavailable)).

Definition handshakeViaBroadcastChannel : M unit :=
  env <- ask ;;
  when (has_BroadcastChannel env)
    (try_catch
       (if broadcast_throws env then throw HostError
        else s <- get ;;
             emit (BroadcastSent (ALPHA cfg) (totalEnergy s) (resonanceEstablished s)))
       (console_log L_BroadcastUnavailable)).

(** The [ready] promise settles later, if at all; its outcome is recorded
    here: the message is posted, or the [catch] logs (the promise rejects,
    or there is no active worker), or nothing happens (the promise stays
    pending). *)
Definition handshakeViaServiceWorker : M unit :=
  env <- ask ;;
  when (has_serviceWorker env)
    (if serviceWorker_ready env
     then s <- get ;; emit (ServiceWorkerSync (totalEnergy s) (LAYERS cfg))
     else when (negb (serviceWorker_pending env))
            (console_log L_ServiceWorkerUnavailable)).

Definition attemptCrossDomainHandshake : M unit :=
  console_log L_AttemptingHandshake ;;
  handshakeViaPostMessage ;;
  handshakeViaSharedWorker ;;
  handshakeViaBroadcastChannel ;;
  handshakeViaServiceWorker.

(** *** Resonance analysis *)

(** [Math.exp(-CTT_CONFIG.ALPHA * layer) * 1000] *)
Definition expected_delay (layer : Z) : number := mul (decay layer) (Fin 1000).

(** The body of the loop over the Map: the entry pushed for one layer, if
    [delays.length > 1]. *)
Definition frequency_of (levels : list number) (entry : Z * list number)
  : list Frequency :=
  let (layer, delays) := entry in
  if (1 <? List.length delays)%nat then
    let avgDelay := div (sum delays) (of_Z (Z.of_nat (List.length delays))) in
    let expected := expected_delay layer in
    let deviation := div (Math_abs (sub avgDelay expected)) expected in
    [ {| f_layer := layer; f_avgDelay := avgDelay; f_expected := expected;
         f_deviation := deviation; f_energy := index levels layer |} ]
  else [].

Definition frequencies (levels : list number) (tf : FreqMap.t) : list Frequency :=
  flat_map (frequency_of levels) tf.

(** [frequencies.reduce((sum, f) => sum + f.deviation, 0) / frequencies.length] *)
Definition avgDeviation (fs : list Frequency) : number :=
  div (fold_left (fun acc f => add acc (f_deviation f)) fs (Fin 0))
      (of_Z (Z.of_nat (List.length fs))).

Definition analyzeResonancePattern : M unit :=
  s <- get ;;
  let fs := frequencies (energyLevels s) (temporalFrequencies s) in
  let avg := avgDeviation fs in
  if lt avg (Fin 0.1) then
    console_log (L_ResonanceEstablished avg) ;;
    modify (set_resonanceEstablished true) ;;
    attemptCrossDomainHandshake
  else
    console_log (L_ResonanceIncomplete avg).

Definition recordFrequency (layer : Z) (delay : number) : M unit :=
  modify (fun s =>
    if FreqMap.has layer (temporalFrequencies s) then s
    else set_temporalFrequencies (FreqMap.set layer [] (temporalFrequencies s)) s) ;;
  modify (fun s =>
    set_temporalFrequencies (FreqMap.push layer delay (temporalFrequencies s)) s) ;;
  when (layer =? LAYERS cfg - 1)%Z analyzeResonancePattern.

(** *** Timed pressure *)

(** [CTT_CONFIG.PRIMES.find(p => layer % p === 0) || 1] *)
Definition primeFactor (layer : Z) : Z :=
  match find (rem_is_zero layer) (PRIMES cfg) with
  | Some p => if (p =? 0)%Z then 1%Z else p
  | None => 1%Z
  end.

Definition baseDelay (layer : Z) (e : number) : number :=
  mul (mul e (of_Z (primeFactor layer))) (Fin 1000).

(** The jitter, given the value [Date.now()] returned. *)
Definition jitter (layer : Z) (t : number) : number :=
  if (Z.rem layer 2 =? 0)%Z
  then mul (Math_sin (mul t (Fin 0.001))) (Fin 50)
  else mul (Math_cos (mul t (Fin 0.001))) (Fin 50).

Definition totalDelay (layer : Z) (e t : number) : number :=
  Math_max (Fin 1) (add (baseDelay layer e) (jitter layer t)).

(** The promise resolves in the timer callback, after [recordFrequency];
    the awaiting caller continues from there. *)
Definition createTemporalPressure (layer : Z) (e : number) : M unit :=
  t <- now ;;
  let delay := totalDelay layer e t in
  applyDOMPressure layer e ;;
  applyWorkerPressure layer ;;
  applyRAFPressure layer e ;;
  emit (Timer delay) ;;
  recordFrequency layer delay.

(** *** The cascade *)

Definition retuneParameters : M unit :=
  r <- random ;;
  let adjustedAlpha := mul (ALPHA cfg) (add (Fin 0.95) (mul r (Fin 0.1))) in
  console_log (L_Retuning adjustedAlpha).

(** [this.energyLevels.slice(0, d + 1).reduce((a, b) => a + b, 0)] *)
Definition cumulative (levels : list number) (d : Z) : number :=
  sum (firstn (Z.to_nat (d + 1)) levels).

(** One turn of the loop of [triggerCrossDomainVortex].  An index past the
    end of [energyLevels] reads [undefined]: it is NaN in arithmetic, false
    in the comparison, and [toFixed] on it throws. *)
Definition layer_step (d : Z) : M unit :=
  s0 <- get ;;
  let e := index (energyLevels s0) d in
  let e_num := match e with Some x => x | None => NaN end in
  createTemporalPressure d e_num ;;
  when ((Z.rem d 5 =? 0)%Z || (d =? LAYERS cfg - 1)%Z)
    (match e with
     | Some x => s <- get ;; console_log (L_Layer d x (cumulative (energyLevels s) d))
     | None => throw HostError
     end) ;;
  s <- get ;;
  when (le e_num (RESONANCE_THRESHOLD cfg) && negb (resonanceEstablished s))
    (console_log (L_ThresholdReached d)).

Fixpoint for_each (ds : list Z) (body : Z -> M unit) : M unit :=
  match ds with
  | [] => ret tt
  | d :: ds' => body d ;; for_each ds' body
  end.

Definition triggerCrossDomainVortex : M unit :=
  console_log L_Initializing ;;
  console_log (L_Theorem (ALPHA cfg)) ;;
  _ <- calculateEnergyCascade ;;
  for_each (indices (LAYERS cfg)) layer_step ;;
  s <- get ;;
  console_log (L_VortexComplete (totalEnergy s)) ;;
  if resonanceEstablished s then console_log L_ResonanceAchieved
  else console_log L_RetuningParameters ;; retuneParameters.

(** The timer callback of the [load] handler: a new vortex, its run, and
    the [catch] on the promise the run returns.  The other half of the
    handler, the window listener that writes a console line for every
    message whose type starts with [CTT_], is not part of it. *)
Definition main : M unit :=
  constructor ;;
  try_catch triggerCrossDomainVortex (console_log L_VortexFailed).

(** *** Message delivery *)

Fixpoint times (n : nat) (m : M unit) : M unit :=
  match n with
  | O => ret tt
  | S n' => m ;; times n' m
  end.

(** One [message] event on [window]: every listener registered by
    [handshakeViaPostMessage] is called with it. *)
Definition deliver (data : MessageData) : M unit :=
  s <- get ;;
  times (messageListeners s) (handshake_listener data).

Fixpoint deliver_all (ds : list MessageData) : M unit :=
  match ds with
  | [] => ret tt
  | data :: ds' => deliver data ;; deliver_all ds'
  end.

End Vortex.

(* ================================================================== *)
(** ** Vocabulary of the statements *)

(** *** Environments, configurations and states used as examples *)

(** An environment in which every primitive is present and nothing throws;
    the clock stands at 0. *)
Definition quiet_env : Env := {|
  Date_now := fun _ => 0;
  Math_random := fun _ => 0;
  dom_throws := fun _ => false;
  has_Worker := true;
  worker_throws := fun _ => false;
  raf_throws := fun _ => false;
  iframes := [];
  has_SharedWorker := true;
  sharedWorker_throws := false;
  has_BroadcastChannel := true;
  broadcast_throws := false;
  has_serviceWorker := true;
  serviceWorker_ready := true;
  serviceWorker_pending := false;
  storage_throws := false
|}.

(** *** Properties of methods *)

(** A method that always returns normally. *)
Definition never_throws {A} (m : M A) : Prop :=
  forall env s, completed (m env s) = true.

(** A method whose final state, returned or thrown with, is related to the
    state it started in. *)
Definition preserves {A} (R : State -> State -> Prop) (m : M A) : Prop :=
  forall env s, R s (final_state (m env s)).

(** A method started in a state with [P] returns in a state with [Q] or
    throws in a state with [E]. *)
Definition triple {A} (env : Env) (P : State -> Prop) (m : M A)
                  (Q : A -> State -> Prop) (E : Error -> State -> Prop) : Prop :=
  forall s, P s ->
    match m env s with
    | Ok a s' => Q a s'
    | Throw e s' => E e s'
    end.

(** *** Relations between states *)

(** The fields the resonance analysis reads and writes are the same. *)
Definition same_analyzer (s s' : State) : Prop :=
  energyLevels s' = energyLevels s /\
  totalEnergy s' = totalEnergy s /\
  temporalFrequencies s' = temporalFrequencies s /\
  resonanceEstablished s' = resonanceEstablished s.

(** The trace only grew. *)
Definition trace_grows (s s' : State) : Prop :=
  exists evs, trace s' = evs ++ trace s.

(** *** The analysis *)

(** [delays.length > 1] *)
Definition qualifies (entry : Z * list number) : bool :=
  (1 <? List.length (snd entry))%nat.

(** What one analysis decides: the average deviation and the outcome of
    the test [avgDeviation < 0.1]. *)
Definition verdict (cfg : Config) (s : State) : number * bool :=
  let avg := avgDeviation (frequencies cfg (energyLevels s) (temporalFrequencies s)) in
  (avg, lt avg (Fin 0.1)).

(** The deviation the loop of [analyzeResonancePattern] computes for one
    layer of the Map: [|avgDelay - expected| / expected]. *)
Definition layer_deviation (cfg : Config) (entry : Z * list number) : number :=
  let avgDelay := div (sum (snd entry)) (of_Z (Z.of_nat (List.length (snd entry)))) in
  let expected := expected_delay cfg (fst entry) in
  div (Math_abs (sub avgDelay expected)) expected.

(** *** The states one layer goes through *)

(** After the clock was read and the marker element appended. *)
Definition after_dom (layer : Z) (e : number) (s : State) : State :=
  let s1 := set_clockReads (S (clockReads s)) s in
  set_trace (DomMarker layer e :: trace s1) s1.

(** After the worker stimulus: started, failed and logged, or skipped. *)
Definition after_worker (env : Env) (layer : Z) (s : State) : State :=
  if has_Worker env then
    if worker_throws env layer
    then set_trace (Log L_WorkerUnavailable :: trace s) s
    else set_trace (WorkerStarted layer :: trace s) s
  else s.

(** The state in which the timer of [createTemporalPressure] fires, when
    neither the DOM nor the frame-loop stimulus throws. *)
Definition at_timer (env : Env) (layer : Z) (e delay : number) (s : State) : State :=
  let s3 := after_worker env layer (after_dom layer e s) in
  let s4 := set_trace (RafLoop layer e :: trace s3) s3 in
  set_trace (Timer delay :: trace s4) s4.

(** The state after the two Map operations of [recordFrequency]. *)
Definition recorded (layer : Z) (delay : number) (s : State) : State :=
  let s1 := if FreqMap.has layer (temporalFrequencies s) then s
            else set_temporalFrequencies
                   (FreqMap.set layer [] (temporalFrequencies s)) s in
  set_temporalFrequencies (FreqMap.push layer delay (temporalFrequencies s1)) s1.

(** *** Runs of the cascade *)

(** The log line written on entry to [attemptCrossDomainHandshake]. *)
Definition is_handshake_attempt (e : Event) : bool :=
  match e with
  | Log L_AttemptingHandshake => true
  | _ => false
  end.

(** How often [attemptCrossDomainHandshake] was entered. *)
Definition handshake_attempts (tr : list Event) : nat :=
  List.length (filter is_handshake_attempt tr).

(** A layer of the Map with exactly one sample. *)
Definition single_sample (entry : Z * list number) : Prop :=
  List.length (snd entry) = 1%nat.

(** Steps that touch neither the analyzer nor the handshake. *)
Definition calm (s s' : State) : Prop :=
  same_analyzer s s' /\ trace_grows s s' /\
  handshake_attempts (trace s') = handshake_attempts (trace s).

(** The state of a run that has recorded the layers below [k] of a new
    vortex created on the page [p]. *)
Definition run_inv (cfg : Config) (p : State) (k : Z) (s : State) : Prop :=
  resonanceEstablished s = false /\
  handshake_attempts (trace s) = handshake_attempts (trace p) /\
  map fst (temporalFrequencies s) = indices k /\
  Forall single_sample (temporalFrequencies s) /\
  ((0 <= LAYERS cfg - 1 < k)%Z -> In (Log (L_ResonanceIncomplete NaN)) (trace s)).

(** What holds of a run wherever it stops. *)
Definition run_safe (p : State) (s : State) : Prop :=
  resonanceEstablished s = false /\
  handshake_attempts (trace s) = handshake_attempts (trace p).

(** The error [e] is the one thrown by the DOM or the frame-loop stimulus
    of layer [d], and that stimulus does throw in [env]. *)
Definition stimulus_failure (env : Env) (e : Error) (d : Z) : Prop :=
  (e = DomError d /\ dom_throws env d = true) \/
  (e = RafError d /\ raf_throws env d = true).

(** Neither the DOM nor the frame-loop stimulus throws at layer [d]. *)
Definition stimuli_work (env : Env) (d : Z) : Prop :=
  dom_throws env d = false /\ raf_throws env d = false.

(** [energyLevels] has the length the constructor gave it. *)
Definition levels_ok (cfg : Config) (s : State) : Prop :=
  List.length (energyLevels s) = Z.to_nat (LAYERS cfg).

(** The invariant of a run that has got past the layers below [k]. *)
Definition progress (cfg : Config) (env : Env) (p : State) (k : Z) (s : State) : Prop :=
  run_inv cfg p k s /\ levels_ok cfg s /\
  (forall d, (0 <= d < k)%Z -> stimuli_work env d).

(** How a run stops early: at some layer [d] in range whose stimulus
    failed, with exactly the layers below [d] recorded. *)
Definition aborted (cfg : Config) (env : Env) (p : State) (e : Error) (s : State) : Prop :=
  run_safe p s /\
  exists d, (0 <= d < LAYERS cfg)%Z /\ stimulus_failure env e d /\
            map fst (temporalFrequencies s) = indices d.

(** An environment in which the DOM calls throw at layer 3. *)
Definition dom_fails_at_3 : Env := {|
  Date_now := fun _ => 0;
  Math_random := fun _ => 0;
  dom_throws := fun d => (d =? 3)%Z;
  has_Worker := true;
  worker_throws := fun _ => false;
  raf_throws := fun _ => false;
  iframes := [];
  has_SharedWorker := true;
  sharedWorker_throws := false;
  has_BroadcastChannel := true;
  broadcast_throws := false;
  has_serviceWorker := true;
  serviceWorker_ready := true;
  serviceWorker_pending := false;
  storage_throws := false
|}.

(** [CTT_CONFIG] with no layers. *)
Definition no_layers : Config := {|
  ALPHA := ALPHA CTT_CONFIG;
  LAYERS := 0;
  PRIMES := PRIMES CTT_CONFIG;
  RESONANCE_THRESHOLD := RESONANCE_THRESHOLD CTT_CONFIG;
  CROSS_ORIGIN_TARGETS := CROSS_ORIGIN_TARGETS CTT_CONFIG
|}.

(** Two layers and a negative decay constant. *)
Definition negative_alpha : Config := {|
  ALPHA := Fin (-1);
  LAYERS := 2;
  PRIMES := PRIMES CTT_CONFIG;
  RESONANCE_THRESHOLD := RESONANCE_THRESHOLD CTT_CONFIG;
  CROSS_ORIGIN_TARGETS := CROSS_ORIGIN_TARGETS CTT_CONFIG
|}.

(** Three layers and the decay constant [+Infinity], which passes the
    test [ALPHA > 0]. *)
Definition infinite_alpha : Config := {|
  ALPHA := PInf;
  LAYERS := 3;
  PRIMES := PRIMES CTT_CONFIG;
  RESONANCE_THRESHOLD := RESONANCE_THRESHOLD CTT_CONFIG;
  CROSS_ORIGIN_TARGETS := CROSS_ORIGIN_TARGETS CTT_CONFIG
|}.

(** *** Bridges *)

(** A message of type [CTT_HANDSHAKE_RESPONSE] with the given fields. *)
Definition response (r : option string * option number) : MessageData := {|
  msg_type := "CTT_HANDSHAKE_RESPONSE";
  msg_bridgeId := fst r;
  msg_energy := snd r
|}.

(** The log line written on entry to [establishTemporalBridge]. *)
Definition is_bridge_established (e : Event) : bool :=
  match e with
  | Log (L_BridgeEstablished _) => true
  | _ => false
  end.

(** How many bridge objects [establishTemporalBridge] has built. *)
Definition bridges_created (tr : list Event) : nat :=
  List.length (filter is_bridge_established tr).

(** The bridge built from the response [r] at time [t]. *)
Definition bridge_from (r : option string * option number) (t : number) : Bridge :=
  {| id := fst r; energy := snd r; established := t |}.

(** What [k] calls of the listener with the response [r] leave behind. *)
Definition bridged (k : nat) (r : option string * option number) (s s' : State) : Prop :=
  bridges_created (trace s') = (bridges_created (trace s) + k)%nat /\
  messageListeners s' = messageListeners s /\
  (k = 0%nat -> s' = s) /\
  ((0 < k)%nat -> exists t, activeBridge s' = Some (bridge_from r t)).

(** The number of registered listeners is the same. *)
Definition same_listeners (s s' : State) : Prop :=
  messageListeners s' = messageListeners s.

(** The state in which a new vortex under [CTT_CONFIG] waits for responses
    after one handshake attempt. *)
Definition listening : State :=
  final_state (attemptCrossDomainHandshake CTT_CONFIG quiet_env
                 (final_state (constructor CTT_CONFIG quiet_env fresh_page))).

(** Every layer of [ds] reports its expected delay once. *)
Definition report_expected (cfg : Config) (ds : list Z) : M unit :=
  for_each ds (fun d => recordFrequency cfg d (expected_delay cfg d)).

(** A new vortex under [CTT_CONFIG] in which each of the 33 layers holds
    its expected delay twice. *)
Definition two_exact_samples : State :=
  set_temporalFrequencies
    (map (fun d => (d, [expected_delay CTT_CONFIG d; expected_delay CTT_CONFIG d]))
         (indices 33))
    (final_state (constructor CTT_CONFIG quiet_env fresh_page)).

(** *** Delays *)

(** [layer % p == 0] *)
Definition divides (p layer : Z) : Prop := p <> 0%Z /\ Z.rem layer p = 0%Z.

(** [pf] is the first element of [ps] that divides [layer], or 1 when no
    element does. *)
Definition first_dividing (ps : list Z) (layer pf : Z) : Prop :=
  (exists before after,
      ps = before ++ pf :: after /\ divides pf layer /\
      Forall (fun q => ~ divides q layer) before)
  \/ (pf = 1%Z /\ Forall (fun q => ~ divides q layer) ps).

(** The delays of the timers set so far, most recent first. *)
Definition timers (tr : list Event) : list number :=
  flat_map (fun e => match e with Timer d => [d] | _ => [] end) tr.

(** No timer was set in between. *)
Definition same_timers (s s' : State) : Prop :=
  timers (trace s') = timers (trace s).

(** The quiet environment one second later. *)
Definition one_second_later : Env := {|
  Date_now := fun _ => 1000;
  Math_random := fun _ => 0;
  dom_throws := fun _ => false;
  has_Worker := true;
  worker_throws := fun _ => false;
  raf_throws := fun _ => false;
  iframes := [];
  has_SharedWorker := true;
  sharedWorker_throws := false;
  has_BroadcastChannel := true;
  broadcast_throws := false;
  has_serviceWorker := true;
  serviceWorker_ready := true;
  serviceWorker_pending := false;
  storage_throws := false
|}.

(* ================================================================== *)
(** ** Vocabulary of the further properties *)

(** Nothing was done to a bridge, and a set flag stayed set. *)
Definition no_bridge_built (s s' : State) : Prop :=
  activeBridge s' = activeBridge s /\
  storedBridge s' = storedBridge s /\
  bridges_created (trace s') = bridges_created (trace s) /\
  (resonanceEstablished s = true -> resonanceEstablished s' = true).

(** The message [initiateCrossDomainExchange] posts to its own window, as
    the listeners see it. *)
Definition exchange_message (bridgeId : option string) : MessageData := {|
  msg_type := "CTT_EXCHANGE";
  msg_bridgeId := bridgeId;
  msg_energy := None
|}.

(** How many events of a kind a trace holds. *)
Definition count (p : Event -> bool) (tr : list Event) : nat :=
  List.length (filter p tr).

Definition is_iframe_handshake (e : Event) : bool :=
  match e with IframeHandshake _ _ => true | _ => false end.

Definition is_sharedWorker_register (e : Event) : bool :=
  match e with SharedWorkerRegister _ => true | _ => false end.

Definition is_broadcast (e : Event) : bool :=
  match e with BroadcastSent _ _ _ => true | _ => false end.

Definition is_serviceWorker_sync (e : Event) : bool :=
  match e with ServiceWorkerSync _ _ => true | _ => false end.

(** The sum of the first [n] terms of the geometric sequence with ratio
    [exp(-a)]. *)
Definition geometric (a : R) (n : nat) : R :=
  (1 - exp (- a * INR n)) / (1 - exp (- a)).

(** The delay of layer [d] in a run that starts when [c0] clock readings
    have been taken: the layers read the clock once each, in turn. *)
Definition run_delay (cfg : Config) (env : Env) (c0 : nat) (d : Z) : number :=
  totalDelay cfg d (decay cfg d) (Fin (Date_now env (c0 + Z.to_nat d))).

(** The Map of a run that has recorded the layers below [k]. *)
Definition run_samples (cfg : Config) (env : Env) (c0 : nat) (k : Z) : FreqMap.t :=
  map (fun d => (d, [run_delay cfg env c0 d])) (indices k).

(** Steps that only write to the console or start a stimulus: the
    analyzer, the clock and the timers are as before. *)
Definition log_only (s s' : State) : Prop :=
  same_analyzer s s' /\ clockReads s' = clockReads s /\ same_timers s s'.

(** A run of a new vortex that has got past the layers below [k]. *)
Definition run_state (cfg : Config) (env : Env) (page : State) (k : Z) (s : State) : Prop :=
  energyLevels s = map (decay cfg) (indices (LAYERS cfg)) /\
  resonanceEstablished s = false /\
  clockReads s = (clockReads page + Z.to_nat k)%nat /\
  temporalFrequencies s = run_samples cfg env (clockReads page) k /\
  timers (trace s)
  = rev (map (run_delay cfg env (clockReads page)) (indices k)) ++ timers (trace page).

(** A run that stopped at a failing stimulus, with the samples of the
    layers before it. *)
Definition run_stopped (cfg : Config) (env : Env) (page : State) (e : Error) (s : State) : Prop :=
  exists d, (0 <= d < LAYERS cfg)%Z /\ stimulus_failure env e d /\
            temporalFrequencies s = run_samples cfg env (clockReads page) d.

(** The arithmetic mean of a list of reals. *)
Definition mean (xs : list R) : R := fold_left Rplus xs 0 / INR (List.length xs).

(** The relative deviation of the mean of the samples [xs] of a layer from
    the delay [exp(-a * layer) * 1000] expected for it. *)
Definition relative_deviation (a : R) (layer : Z) (xs : list R) : R :=
  Rabs (mean xs - exp (- a * IZR layer) * 1000) / (exp (- a * IZR layer) * 1000).

(** A layer of the Map whose samples are the finite numbers [snd e]. *)
Definition finite_entry (e : Z * list R) : Z * list number :=
  (fst e, map Fin (snd e)).

(** Every sample of the layer lies within the fraction [p] of the delay
    [exp(-a * layer) * 1000] expected for it; the exponent is in the range
    in which [Math.exp] gives a positive number not above 1. *)
Definition near_expected (a p : R) (e : Z * list R) : Prop :=
  0 <= a * IZR (fst e) <= 700 /\
  Forall (fun x => Rabs (x - exp (- a * IZR (fst e)) * 1000)
                   <= p * (exp (- a * IZR (fst e)) * 1000)) (snd e).

(** Every sample of the layer exceeds the expected delay by the fraction
    [p] at least. *)
Definition above_expected (a p : R) (e : Z * list R) : Prop :=
  0 <= a * IZR (fst e) <= 700 /\
  Forall (fun x => (1 + p) * (exp (- a * IZR (fst e)) * 1000) <= x) (snd e).

(** [n] runs of the cascade on the same vortex, each with the [catch] the
    load handler attaches to a run. *)
Definition rerun (cfg : Config) (n : nat) : M unit :=
  times n (try_catch (triggerCrossDomainVortex cfg) (console_log L_VortexFailed)).

(** The delay of layer [d] as a real, for a finite [ALPHA = a], when the
    clock reading [c0 + d] is taken. *)
Definition delay_value (cfg : Config) (a : R) (env : Env) (c0 : nat) (d : Z) : R :=
  Rmax 1 (exp (- a * IZR d) * IZR (primeFactor cfg d) * 1000
          + (if Z.even d
             then sin (Date_now env (c0 + Z.to_nat d) * 0.001)
             else cos (Date_now env (c0 + Z.to_nat d) * 0.001)) * 50).

(** A delay the cascade can set for layer [d]: within 50 ms of
    [exp(-a * d) * primeFactor * 1000], both ends cut off at 1. *)
Definition schedulable (cfg : Config) (a : R) (d : Z) (x : R) : Prop :=
  Rmax 1 (exp (- a * IZR d) * IZR (primeFactor cfg d) * 1000 - 50) <= x
  <= Rmax 1 (exp (- a * IZR d) * IZR (primeFactor cfg d) * 1000 + 50).

(** The samples layer [d] got in the first [r] runs, each run reading the
    clock [LAYERS] times. *)
Definition history (cfg : Config) (a : R) (env : Env) (c0 : nat) (r : nat) (d : Z) : list R :=
  map (fun k => delay_value cfg a env (c0 + k * Z.to_nat (LAYERS cfg)) d) (seq 0 r).

(** The state of the run number [r] (counted from 0, [r >= 1]) of a vortex
    when it has got past the layers below [i]. *)
Definition later_run (cfg : Config) (a : R) (env : Env) (c0 : nat)
           (r : nat) (i : Z) (s : State) : Prop :=
  energyLevels s = map (decay cfg) (indices (LAYERS cfg)) /\
  resonanceEstablished s = false /\
  clockReads s = (c0 + r * Z.to_nat (LAYERS cfg) + Z.to_nat i)%nat /\
  temporalFrequencies s
  = map (fun d =>
           (d, map Fin (history cfg a env c0 r d
                        ++ (if (d <? i)%Z
                            then [delay_value cfg a env (c0 + r * Z.to_nat (LAYERS cfg)) d]
                            else []))))
        (indices (LAYERS cfg)).

(** If the flag is not set at the end, it was not set at the start and no
    handshake was attempted in between. *)
Definition flag_guards_handshake (s s' : State) : Prop :=
  resonanceEstablished s' = false ->
  resonanceEstablished s = false /\
  handshake_attempts (trace s') = handshake_attempts (trace s).

(** The analysis did not run: the flag is as it was, and no handshake was
    attempted. *)
Definition no_analysis (s s' : State) : Prop :=
  resonanceEstablished s' = resonanceEstablished s /\
  handshake_attempts (trace s') = handshake_attempts (trace s).

(** The DOM or the frame-loop stimulus of layer [d] throws. *)
Definition stimulus_throws (env : Env) (d : Z) : Prop :=
  dom_throws env d = true \/ raf_throws env d = true.

(** *** The frame loop of [applyRAFPressure] *)

(** [const duration = energy * 100] *)
Definition duration (e : number) : number := mul e (Fin 100).

(** [Math.sin(elapsed * 0.01) * 0.5 + 0.5] *)
Definition opacity (elapsed : number) : number :=
  add (mul (Math_sin (mul elapsed (Fin 0.01))) (Fin 0.5)) (Fin 0.5).

(** [pressureLoop], called by the browser once for every frame it was
    requested for.  A frame is its timestamp and the number of elements of
    class [ctt-temporal-marker] in the document at that time.  The result
    holds, for every frame that wrote, the opacity given to each marker;
    only a frame that wrote requests the next one. *)
Fixpoint pressureLoop (startTime duration : number) (frames : list (number * nat))
  : list (list number) :=
  match frames with
  | [] => []
  | (timestamp, markers) :: later =>
      let elapsed := sub timestamp startTime in
      if lt elapsed duration
      then repeat (opacity elapsed) markers :: pressureLoop startTime duration later
      else []
  end.

(** A finite number. *)
Definition finite (x : number) : Prop := exists r, x = Fin r.

(** An opacity CSS takes as it is: a number from 0 to 1. *)
Definition valid_opacity (x : number) : Prop := exists r, x = Fin r /\ 0 <= r <= 1.

(** The frames come at least [delta] ms apart, the first one not before
    [t0]; every timestamp is finite. *)
Definition paced (t0 delta : R) (frames : list (number * nat)) : Prop :=
  forall k f, nth_error frames k = Some f ->
    exists t, fst f = Fin t /\ t0 + INR k * delta <= t.

(** *** The threshold line *)

(** The layers of the lines [Resonance Threshold Reached] of a trace, the
    most recent first. *)
Definition threshold_layers (tr : list Event) : list Z :=
  flat_map (fun ev => match ev with
                      | Log (L_ThresholdReached d) => [d]
                      | _ => []
                      end) tr.

(** [energy <= CTT_CONFIG.RESONANCE_THRESHOLD] for the energy the loop
    reads at index [d]. *)
Definition threshold_reached (cfg : Config) (levels : list number) (d : Z) : bool :=
  le (match index levels d with Some x => x | None => NaN end)
     (RESONANCE_THRESHOLD cfg).

(** Steps that end with the flag not set did not start with it set, left
    the energy levels alone and wrote the threshold line for the layers
    of [ds] that reached the threshold, and for no other. *)
Definition thresholds_logged (cfg : Config) (ds : list Z) (s s' : State) : Prop :=
  resonanceEstablished s' = false ->
  resonanceEstablished s = false /\
  energyLevels s' = energyLevels s /\
  threshold_layers (trace s')
  = rev (filter (threshold_reached cfg (energyLevels s)) ds) ++ threshold_layers (trace s).

(* ================================================================== *)
(** ** Facts about numbers *)

Section NumberFacts.

Lemma sign_of_R_zero : sign_of_R 0 = Zero.
Proof.
  unfold sign_of_R.
  destruct (Rlt_dec 0 0) as [H | _]; [lra |].
  destruct (Rlt_dec 0 0) as [H | _]; [lra | reflexivity].
Qed.

Lemma div_zero_zero : div (Fin 0) (of_Z 0) = NaN.
Proof.
  unfold div, of_Z.
  destruct (Req_dec_T 0 0) as [_ | H]; [| contradiction H; reflexivity].
  now rewrite sign_of_R_zero.
Qed.

Lemma div_Fin (x y : R) : y <> 0 -> div (Fin x) (Fin y) = Fin (x / y).
Proof.
  intros Hy. unfold div.
  destruct (Req_dec_T y 0) as [E | _]; [contradiction | reflexivity].
Qed.

Lemma lt_Fin_true (x y : R) : x < y -> lt (Fin x) (Fin y) = true.
Proof.
  intros H. unfold lt. destruct (Rlt_dec x y); [reflexivity | contradiction].
Qed.

Lemma le_Fin_true (x y : R) : x <= y -> le (Fin x) (Fin y) = true.
Proof.
  intros H. unfold le. destruct (Rle_dec x y); [reflexivity | contradiction].
Qed.

Lemma Math_max_Fin (x y : R) : Math_max (Fin x) (Fin y) = Fin (Rmax x y).
Proof.
  unfold Math_max, lt, Rmax.
  destruct (Rlt_dec x y) as [H | H]; destruct (Rle_dec x y) as [H' | H'];
    try reflexivity; try lra.
  f_equal. lra.
Qed.

(** Adding [n] copies of a finite value. *)
Lemma fold_add_repeat (x : R) (n : nat) (acc : R) :
  fold_left add (repeat (Fin x) n) (Fin acc) = Fin (acc + INR n * x).
Proof.
  revert acc. induction n as [| n IH]; intros acc.
  - simpl. f_equal. lra.
  - cbn [repeat fold_left add]. rewrite IH. f_equal.
    rewrite S_INR. lra.
Qed.

Lemma IZR_of_nat (n : nat) : IZR (Z.of_nat n) = INR n.
Proof. symmetry. apply INR_IZR_INZ. Qed.

End NumberFacts.

(* ================================================================== *)
(** ** Facts about the Map and the indices *)

Lemma indices_length (n : Z) : List.length (indices n) = Z.to_nat n.
Proof. unfold indices. now rewrite length_map, length_seq. Qed.

Lemma indices_nonpos (n : Z) : (n <= 0)%Z -> indices n = [].
Proof.
  intros H. unfold indices.
  replace (Z.to_nat n) with O by lia. reflexivity.
Qed.

Lemma index_map_indices {A} (f : Z -> A) (n d : Z) :
  (0 <= d < n)%Z -> index (map f (indices n)) d = Some (f d).
Proof.
  intros [H0 Hn]. unfold index, indices.
  destruct (Z.ltb_spec d 0) as [H | _]; [lia |].
  rewrite nth_error_map, nth_error_map.
  rewrite nth_error_seq.
  destruct (Nat.ltb_spec (Z.to_nat d) (Z.to_nat n)) as [_ | H]; [| lia].
  cbn. now rewrite Z2Nat.id by lia.
Qed.

Lemma index_map_indices_inv {A} (f : Z -> A) (n d : Z) (x : A) :
  index (map f (indices n)) d = Some x -> (0 <= d < n)%Z /\ x = f d.
Proof.
  intros H.
  assert (Hr : (0 <= d < n)%Z).
  { unfold index in H. destruct (Z.ltb_spec d 0) as [| H0]; [discriminate |].
    split; [assumption |].
    assert (Hl : (Z.to_nat d < List.length (map f (indices n)))%nat).
    { apply nth_error_Some. now rewrite H. }
    rewrite length_map, indices_length in Hl. lia. }
  split; [assumption |].
  rewrite (index_map_indices f n d Hr) in H. now inversion H.
Qed.

(* ================================================================== *)
(** ** The energy levels *)

Lemma constructor_energyLevels (cfg : Config) (env : Env) (s : State) :
  energyLevels (final_state (constructor cfg env s))
  = map (decay cfg) (indices (LAYERS cfg)).
Proof. reflexivity. Qed.

Lemma decay_Fin (cfg : Config) (a : R) (d : Z) :
  ALPHA cfg = Fin a -> decay cfg d = Fin (exp (- a * IZR d)).
Proof. intros Ha. unfold decay. rewrite Ha. reflexivity. Qed.

Lemma exp_nonpos_le_1 (x : R) : x <= 0 -> exp x <= 1.
Proof.
  intros [H | H].
  - left. rewrite <- exp_0. now apply exp_increasing.
  - subst. rewrite exp_0. lra.
Qed.

(** C10, as the code has it.  For a configuration with [LAYERS > 0] and a
    finite [ALPHA] with [1e-9 <= ALPHA] and [ALPHA * LAYERS <= 700], the
    constructor's [energyLevels] holds [exp(-ALPHA * d)] at every index
    [d] in range, is strictly decreasing in [d], has all its values in
    (0, 1], and starts with 1.  The two bounds mark the range in which
    binary64 keeps what the exact exponential of the model has: below
    [1e-9] consecutive levels may round to the same number, and above 700
    [Math.exp] underflows towards 0. *)
Theorem energy_levels_exponential_decay
  (cfg : Config) (a : R) (env : Env) (s : State) :
  ALPHA cfg = Fin a ->
  0.000000001 <= a -> a * IZR (LAYERS cfg) <= 700 -> (0 < LAYERS cfg)%Z ->
  let levels := energyLevels (final_state (constructor cfg env s)) in
  List.length levels = Z.to_nat (LAYERS cfg) /\
  (forall d, (0 <= d < LAYERS cfg)%Z ->
     index levels d = Some (Fin (exp (- a * IZR d)))) /\
  (forall d d' x y, (d < d')%Z ->
     index levels d = Some x -> index levels d' = Some y -> lt y x = true) /\
  (forall d x, index levels d = Some x ->
     lt (Fin 0) x = true /\ le x (Fin 1) = true) /\
  index levels 0 = Some (Fin 1).
Proof.
  intros Ha Hlo _ HL levels. subst levels.
  assert (Hpos : 0 < a) by lra.
  rewrite constructor_energyLevels.
  split; [| split; [| split; [| split]]].
  - now rewrite length_map, indices_length.
  - intros d Hd. rewrite index_map_indices by assumption.
    f_equal. now apply decay_Fin.
  - intros d d' x y Hlt Hx Hy.
    apply index_map_indices_inv in Hx as [Hd ->].
    apply index_map_indices_inv in Hy as [Hd' ->].
    rewrite !(decay_Fin cfg a) by assumption.
    apply lt_Fin_true, exp_increasing.
    apply IZR_lt in Hlt. nra.
  - intros d x Hx.
    apply index_map_indices_inv in Hx as [Hd ->].
    rewrite (decay_Fin cfg a) by assumption. split.
    + apply lt_Fin_true, exp_pos.
    + apply le_Fin_true, exp_nonpos_le_1.
      assert (0 <= IZR d) by (apply IZR_le; lia). nra.
  - rewrite index_map_indices by lia.
    rewrite (decay_Fin cfg a) by assumption.
    do 2 f_equal. rewrite Rmult_0_r. apply exp_0.
Qed.

Lemma energy_levels_exponential_decay_witness :
  let levels := energyLevels (final_state (constructor CTT_CONFIG quiet_env fresh_page)) in
  List.length levels = Z.to_nat (LAYERS CTT_CONFIG) /\
  (forall d, (0 <= d < LAYERS CTT_CONFIG)%Z ->
     index levels d = Some (Fin (exp (- (0.0302011) * IZR d)))) /\
  (forall d d' x y, (d < d')%Z ->
     index levels d = Some x -> index levels d' = Some y -> lt y x = true) /\
  (forall d x, index levels d = Some x ->
     lt (Fin 0) x = true /\ le x (Fin 1) = true) /\
  index levels 0 = Some (Fin 1).
Proof.
  apply (energy_levels_exponential_decay CTT_CONFIG 0.0302011 quiet_env fresh_page).
  - reflexivity.
  - lra.
  - change (IZR (LAYERS CTT_CONFIG)) with 33. lra.
  - reflexivity.
Defined.

Lemma infinite_alpha_levels (env : Env) (page : State) :
  energyLevels (final_state (constructor infinite_alpha env page))
  = [NaN; Fin 0; Fin 0].
Proof.
  rewrite constructor_energyLevels.
  change (indices (LAYERS infinite_alpha)) with [0; 1; 2]%Z.
  cbn [map]. unfold decay. cbn [ALPHA infinite_alpha neg of_Z mul].
  assert (Hpos : forall x, 0 < x -> sign_of_R x = Pos).
  { intros x Hx. unfold sign_of_R.
    destruct (Rlt_dec 0 x); [reflexivity | contradiction]. }
  rewrite sign_of_R_zero, (Hpos 1), (Hpos 2) by lra.
  reflexivity.
Qed.

(** C10 fails as stated: [+Infinity] is a decay constant above 0, and with
    it the first level is [exp(-Infinity * 0) = exp(NaN) = NaN] and every
    later one is [exp(-Infinity) = 0]: the sequence does not start with 1,
    no value lies in (0, 1], and level 2 is not below level 1. *)
Lemma infinite_decay_constant_gives_no_decay :
  let levels := energyLevels (final_state (constructor infinite_alpha quiet_env fresh_page)) in
  lt (Fin 0) (ALPHA infinite_alpha) = true /\
  (0 < LAYERS infinite_alpha)%Z /\
  levels = [NaN; Fin 0; Fin 0] /\
  index levels 0 = Some NaN /\
  (forall d x, index levels d = Some x -> lt (Fin 0) x = false) /\
  (exists x y, index levels 1 = Some x /\ index levels 2 = Some y /\ lt y x = false).
Proof.
  cbv zeta. rewrite infinite_alpha_levels.
  assert (H00 : lt (Fin 0) (Fin 0) = false).
  { cbn [lt]. destruct (Rlt_dec 0 0) as [H | _]; [lra | reflexivity]. }
  split; [reflexivity |]. split; [reflexivity |]. split; [reflexivity |].
  split; [reflexivity |]. split.
  - intros d x Hx. unfold index in Hx.
    destruct (d <? 0)%Z; [discriminate |].
    destruct (Z.to_nat d) as [| [| [| n]]]; cbn in Hx;
      try (injection Hx as <-); try exact H00; try reflexivity.
    destruct n; discriminate.
  - exists (Fin 0), (Fin 0). split; [reflexivity |]. split; [reflexivity | exact H00].
Qed.

(* ================================================================== *)
(** ** Reasoning about methods *)

Section NeverThrows.

Lemma nt_ret {A} (a : A) : never_throws (ret a).
Proof. intros env s. reflexivity. Qed.

Lemma nt_bind {A B} (m : M A) (k : A -> M B) :
  never_throws m -> (forall a, never_throws (k a)) -> never_throws (bind m k).
Proof.
  intros Hm Hk env s. unfold bind.
  specialize (Hm env s). destruct (m env s) as [a s' | e s']; [| discriminate].
  apply Hk.
Qed.

Lemma nt_try_catch {A} (m h : M A) : never_throws h -> never_throws (try_catch m h).
Proof.
  intros Hh env s. unfold try_catch.
  destruct (m env s); [reflexivity | apply Hh].
Qed.

Lemma nt_when (b : bool) (m : M unit) : never_throws m -> never_throws (when b m).
Proof. intros Hm. destruct b; [exact Hm | apply nt_ret]. Qed.

Lemma nt_modify (f : State -> State) : never_throws (modify f).
Proof. intros env s. reflexivity. Qed.

Lemma nt_emit (e : Event) : never_throws (emit e).
Proof. apply nt_modify. Qed.

Lemma nt_console_log (m : LogMsg) : never_throws (console_log m).
Proof. apply nt_modify. Qed.

Lemma nt_get : never_throws get.
Proof. intros env s. reflexivity. Qed.

Lemma nt_ask : never_throws ask.
Proof. intros env s. reflexivity. Qed.

Lemma nt_now : never_throws now.
Proof. intros env s. reflexivity. Qed.

Lemma nt_random : never_throws random.
Proof. intros env s. reflexivity. Qed.

Lemma nt_if {A} (b : bool) (m1 m2 : M A) :
  never_throws m1 -> never_throws m2 -> never_throws (if b then m1 else m2).
Proof. destruct b; auto. Qed.

End NeverThrows.

Create HintDb nothrow.
#[local] Hint Resolve nt_ret nt_try_catch nt_when nt_modify nt_emit
  nt_console_log nt_get nt_ask nt_now nt_random nt_if : nothrow.

(** Breaks a goal [never_throws m] along the structure of [m]. *)
Ltac nothrow :=
  repeat first
    [ apply nt_bind; [| intro]
    | apply nt_when
    | apply nt_if
    | apply nt_try_catch
    | solve [auto with nothrow] ].

Section Preserves.

Variable R : State -> State -> Prop.
Hypothesis R_refl : forall s, R s s.
Hypothesis R_trans : forall s1 s2 s3, R s1 s2 -> R s2 s3 -> R s1 s3.

Lemma pr_ret {A} (a : A) : preserves R (ret a).
Proof. intros env s. apply R_refl. Qed.

Lemma pr_throw {A} (e : Error) : preserves R (@throw A e).
Proof. intros env s. apply R_refl. Qed.

Lemma pr_get : preserves R get.
Proof. intros env s. apply R_refl. Qed.

Lemma pr_ask : preserves R ask.
Proof. intros env s. apply R_refl. Qed.

Lemma pr_bind {A B} (m : M A) (k : A -> M B) :
  preserves R m -> (forall a, preserves R (k a)) -> preserves R (bind m k).
Proof.
  intros Hm Hk env s. unfold bind.
  specialize (Hm env s). destruct (m env s) as [a s' | e s']; cbn in *.
  - eapply R_trans; [exact Hm | apply Hk].
  - exact Hm.
Qed.

Lemma pr_try_catch {A} (m h : M A) :
  preserves R m -> preserves R h -> preserves R (try_catch m h).
Proof.
  intros Hm Hh env s. unfold try_catch.
  specialize (Hm env s). destruct (m env s) as [a s' | e s']; cbn in *.
  - exact Hm.
  - eapply R_trans; [exact Hm | apply Hh].
Qed.

Lemma pr_when (b : bool) (m : M unit) : preserves R m -> preserves R (when b m).
Proof. intros Hm. destruct b; [exact Hm | apply pr_ret]. Qed.

Lemma pr_if {A} (b : bool) (m1 m2 : M A) :
  preserves R m1 -> preserves R m2 -> preserves R (if b then m1 else m2).
Proof. destruct b; auto. Qed.

End Preserves.

Lemma triple_bind {A B} env (P : State -> Prop) (Q : A -> State -> Prop)
      (R : B -> State -> Prop) (E : Error -> State -> Prop) (m : M A) (k : A -> M B) :
  triple env P m Q E -> (forall a, triple env (Q a) (k a) R E) ->
  triple env P (bind m k) R E.
Proof.
  intros Hm Hk s HP. unfold bind. specialize (Hm s HP).
  destruct (m env s) as [a s' | err s']; [| exact Hm].
  now apply Hk.
Qed.

(** Breaks a goal [preserves R m] along the structure of [m]; what is left
    are the primitive steps. *)
Ltac preserve Hrefl Htrans :=
  repeat first
    [ apply (pr_bind _ Htrans); [| intro]
    | apply (pr_when _ Hrefl)
    | apply pr_if
    | apply (pr_try_catch _ Htrans)
    | apply (pr_ret _ Hrefl)
    | apply (pr_throw _ Hrefl)
    | apply (pr_get _ Hrefl)
    | apply (pr_ask _ Hrefl) ].

(** *** Two relations between states *)

Lemma same_analyzer_refl s : same_analyzer s s.
Proof. repeat split. Qed.

Lemma same_analyzer_trans s1 s2 s3 :
  same_analyzer s1 s2 -> same_analyzer s2 s3 -> same_analyzer s1 s3.
Proof.
  unfold same_analyzer. intros (A1 & A2 & A3 & A4) (B1 & B2 & B3 & B4).
  repeat split; congruence.
Qed.

Lemma trace_grows_refl s : trace_grows s s.
Proof. now exists []. Qed.

Lemma trace_grows_trans s1 s2 s3 :
  trace_grows s1 s2 -> trace_grows s2 s3 -> trace_grows s1 s3.
Proof.
  intros [e1 H1] [e2 H2]. exists (e2 ++ e1). now rewrite H2, H1, app_assoc.
Qed.

(* ================================================================== *)
(** ** The handshake leaves the analyzer alone and never throws *)

Section HandshakeFacts.

Variable cfg : Config.

Ltac prim_same :=
  try (intros ? ?); cbn; repeat split.

Ltac prim_grows :=
  try (intros ? ?); cbn;
  first [ now exists [] | eexists [_]; reflexivity ].

Ltac same_analyzer_steps :=
  preserve same_analyzer_refl same_analyzer_trans; prim_same.

Ltac trace_grows_steps :=
  preserve trace_grows_refl trace_grows_trans; prim_grows.

Lemma post_to_iframes_nt fs : never_throws (post_to_iframes fs).
Proof. induction fs as [| f fs IH]; cbn [post_to_iframes]; nothrow. Qed.

Lemma post_to_iframes_same fs : preserves same_analyzer (post_to_iframes fs).
Proof.
  induction fs as [| f fs IH]; cbn [post_to_iframes].
  - same_analyzer_steps.
  - apply (pr_bind _ same_analyzer_trans); [| intro; exact IH].
    same_analyzer_steps.
Qed.

Lemma post_to_iframes_grows fs : preserves trace_grows (post_to_iframes fs).
Proof.
  induction fs as [| f fs IH]; cbn [post_to_iframes].
  - trace_grows_steps.
  - apply (pr_bind _ trace_grows_trans); [| intro; exact IH].
    trace_grows_steps.
Qed.

Lemma post_to_iframes_listeners fs env s :
  messageListeners (final_state (post_to_iframes fs env s)) = messageListeners s.
Proof.
  revert s. induction fs as [| f fs IH]; intros s; [reflexivity |].
  cbn [post_to_iframes]. unfold bind at 1, try_catch, bind, get, now.
  destruct f; cbn; rewrite IH; reflexivity.
Qed.

Lemma attemptCrossDomainHandshake_nt : never_throws (attemptCrossDomainHandshake cfg).
Proof.
  unfold attemptCrossDomainHandshake, handshakeViaPostMessage,
    handshakeViaSharedWorker, handshakeViaBroadcastChannel,
    handshakeViaServiceWorker.
  nothrow. apply post_to_iframes_nt.
Qed.

Lemma attemptCrossDomainHandshake_same :
  preserves same_analyzer (attemptCrossDomainHandshake cfg).
Proof.
  unfold attemptCrossDomainHandshake, handshakeViaPostMessage,
    handshakeViaSharedWorker, handshakeViaBroadcastChannel,
    handshakeViaServiceWorker.
  preserve same_analyzer_refl same_analyzer_trans;
    try apply post_to_iframes_same; prim_same.
Qed.

Lemma attemptCrossDomainHandshake_grows :
  preserves trace_grows (attemptCrossDomainHandshake cfg).
Proof.
  unfold attemptCrossDomainHandshake, handshakeViaPostMessage,
    handshakeViaSharedWorker, handshakeViaBroadcastChannel,
    handshakeViaServiceWorker.
  preserve trace_grows_refl trace_grows_trans;
    try apply post_to_iframes_grows; prim_grows.
Qed.

End HandshakeFacts.

(* ================================================================== *)
(** ** The resonance analysis *)

Section AnalysisFacts.

Variable cfg : Config.

Lemma frequency_of_qualifies levels entry :
  qualifies entry = false -> frequency_of cfg levels entry = [].
Proof.
  destruct entry as [layer delays]. unfold qualifies, frequency_of. cbn [snd].
  now intros ->.
Qed.

Lemma frequency_of_layer levels entry f :
  In f (frequency_of cfg levels entry) ->
  f_layer f = fst entry /\ qualifies entry = true.
Proof.
  destruct entry as [layer delays]. unfold qualifies, frequency_of. cbn [fst snd].
  destruct (1 <? List.length delays)%nat; [| contradiction].
  intros [<- | []]. split; reflexivity.
Qed.

Lemma frequencies_filter levels tf :
  frequencies cfg levels tf = frequencies cfg levels (filter qualifies tf).
Proof.
  unfold frequencies. induction tf as [| entry tf IH]; [reflexivity |].
  cbn [flat_map filter]. destruct (qualifies entry) eqn:Q.
  - cbn [flat_map]. now rewrite IH.
  - now rewrite (frequency_of_qualifies _ _ Q).
Qed.

Lemma frequencies_none levels tf :
  forallb (fun entry => negb (qualifies entry)) tf = true ->
  frequencies cfg levels tf = [].
Proof.
  unfold frequencies. induction tf as [| entry tf IH]; [reflexivity |].
  cbn [forallb flat_map]. intros H. apply andb_true_iff in H as [Q H].
  apply negb_true_iff in Q.
  now rewrite (frequency_of_qualifies _ _ Q), IH.
Qed.

Lemma avgDeviation_nil : avgDeviation [] = NaN.
Proof. unfold avgDeviation. cbn [fold_left List.length Z.of_nat]. apply div_zero_zero. Qed.

(** The analysis, step by step: the branch taken is the one [verdict] names. *)
Lemma analyzeResonancePattern_not_converged env s :
  snd (verdict cfg s) = false ->
  analyzeResonancePattern cfg env s
  = Ok tt (set_trace (Log (L_ResonanceIncomplete (fst (verdict cfg s))) :: trace s) s).
Proof.
  unfold verdict, analyzeResonancePattern, bind, get. cbn [fst snd].
  intros ->. reflexivity.
Qed.

Lemma analyzeResonancePattern_converged env s :
  snd (verdict cfg s) = true ->
  analyzeResonancePattern cfg env s
  = attemptCrossDomainHandshake cfg env
      (set_resonanceEstablished true
         (set_trace (Log (L_ResonanceEstablished (fst (verdict cfg s))) :: trace s) s)).
Proof.
  unfold verdict, analyzeResonancePattern, bind, get. cbn [fst snd].
  intros ->. reflexivity.
Qed.

Lemma analyzeResonancePattern_nt : never_throws (analyzeResonancePattern cfg).
Proof.
  intros env s. destruct (snd (verdict cfg s)) eqn:V.
  - rewrite (analyzeResonancePattern_converged _ _ V).
    apply attemptCrossDomainHandshake_nt.
  - now rewrite (analyzeResonancePattern_not_converged _ _ V).
Qed.

(** The analysis changes neither the samples nor the energy levels, and
    leaves [resonanceEstablished] set exactly when it was set before or the
    verdict is "converged". *)
Lemma analyzeResonancePattern_fields env s :
  let s' := final_state (analyzeResonancePattern cfg env s) in
  energyLevels s' = energyLevels s /\
  totalEnergy s' = totalEnergy s /\
  temporalFrequencies s' = temporalFrequencies s /\
  resonanceEstablished s' = snd (verdict cfg s) || resonanceEstablished s.
Proof.
  cbv zeta. destruct (snd (verdict cfg s)) eqn:V.
  - rewrite (analyzeResonancePattern_converged _ _ V).
    destruct (attemptCrossDomainHandshake_same cfg env
                (set_resonanceEstablished true
                   (set_trace (Log (L_ResonanceEstablished (fst (verdict cfg s))) :: trace s) s)))
      as (E1 & E2 & E3 & E4).
    rewrite E1, E2, E3, E4. repeat split.
  - rewrite (analyzeResonancePattern_not_converged _ _ V). repeat split.
Qed.

(** The verdict depends on the samples and the levels only. *)
Lemma verdict_ext s s' :
  energyLevels s' = energyLevels s ->
  temporalFrequencies s' = temporalFrequencies s ->
  verdict cfg s' = verdict cfg s.
Proof. unfold verdict. now intros -> ->. Qed.

End AnalysisFacts.

Lemma forallb_not_qualifies (tf : FreqMap.t) :
  (forall layer delays, In (layer, delays) tf -> (List.length delays < 2)%nat) ->
  forallb (fun entry => negb (qualifies entry)) tf = true.
Proof.
  intros H. apply forallb_forall. intros [layer delays] Hin.
  apply negb_true_iff. unfold qualifies. cbn [snd].
  apply Nat.ltb_ge. specialize (H _ _ Hin). lia.
Qed.

Lemma in_frequencies (cfg : Config) levels tf f :
  In f (frequencies cfg levels tf) ->
  exists delays, In (f_layer f, delays) tf /\ (2 <= List.length delays)%nat.
Proof.
  unfold frequencies. intros H. apply in_flat_map in H as ([layer delays] & Hin & Hf).
  apply frequency_of_layer in Hf as [-> Q]. cbn [fst].
  exists delays. split; [assumption |].
  unfold qualifies in Q. cbn [snd] in Q. apply Nat.ltb_lt in Q. lia.
Qed.

Lemma verdict_none (cfg : Config) (s : State) :
  (forall layer delays, In (layer, delays) (temporalFrequencies s) ->
     (List.length delays < 2)%nat) ->
  verdict cfg s = (NaN, false).
Proof.
  intros Hnone. unfold verdict.
  rewrite (frequencies_none cfg _ _ (forallb_not_qualifies _ Hnone)).
  now rewrite avgDeviation_nil.
Qed.

(** The local array [frequencies] holds one element for every layer with
    at least two samples, in the order of the Map, and no other. *)
Lemma frequencies_counted (cfg : Config) levels (tf : FreqMap.t) :
  map f_layer (frequencies cfg levels tf) = map fst (filter qualifies tf) /\
  map f_deviation (frequencies cfg levels tf)
  = map (layer_deviation cfg) (filter qualifies tf).
Proof.
  unfold frequencies. induction tf as [| [layer delays] tf [IH1 IH2]].
  - split; reflexivity.
  - cbn [flat_map filter].
    set (rest := flat_map (frequency_of cfg levels) tf) in *.
    destruct (qualifies (layer, delays)) eqn:Q;
      unfold qualifies in Q; cbn [snd] in Q; unfold frequency_of; rewrite Q.
    + cbn [app map f_layer f_deviation]. rewrite IH1, IH2.
      split; reflexivity.
    + cbn [app]. split; assumption.
Qed.

Lemma fold_add_map {A} (g : A -> number) (l : list A) (acc : number) :
  fold_left (fun acc x => add acc (g x)) l acc = fold_left add (map g l) acc.
Proof.
  revert acc. induction l as [| x l IH]; intros acc; [reflexivity |].
  cbn [fold_left map]. apply IH.
Qed.

(** The average deviation is the mean of the deviations of the layers
    with at least two samples. *)
Lemma verdict_counted (cfg : Config) (s : State) :
  let counted := filter qualifies (temporalFrequencies s) in
  fst (verdict cfg s)
  = div (sum (map (layer_deviation cfg) counted))
        (of_Z (Z.of_nat (List.length counted))).
Proof.
  cbv zeta. unfold verdict. cbn [fst]. unfold avgDeviation.
  destruct (frequencies_counted cfg (energyLevels s) (temporalFrequencies s))
    as [Hl Hd].
  rewrite fold_add_map, Hd. unfold sum. f_equal.
  rewrite <- (length_map f_layer), Hl, length_map. reflexivity.
Qed.

Lemma filter_none {A} (p : A -> bool) (l : list A) :
  forallb (fun x => negb (p x)) l = true -> filter p l = [].
Proof.
  induction l as [| x l IH]; [reflexivity |].
  cbn [forallb filter]. intros H. apply andb_true_iff in H as [Q H].
  apply negb_true_iff in Q. rewrite Q. now apply IH.
Qed.

(** The analysis logs the average deviation in the branch the verdict
    names. *)
Lemma analyzeResonancePattern_logs (cfg : Config) env s :
  In (Log (if snd (verdict cfg s)
           then L_ResonanceEstablished (fst (verdict cfg s))
           else L_ResonanceIncomplete (fst (verdict cfg s))))
     (trace (final_state (analyzeResonancePattern cfg env s))).
Proof.
  destruct (snd (verdict cfg s)) eqn:V.
  - rewrite (analyzeResonancePattern_converged cfg env s V).
    destruct (attemptCrossDomainHandshake_grows cfg env
                (set_resonanceEstablished true
                   (set_trace (Log (L_ResonanceEstablished (fst (verdict cfg s)))
                               :: trace s) s)))
      as [evs ->].
    apply in_or_app. right. now left.
  - rewrite (analyzeResonancePattern_not_converged cfg env s V). now left.
Qed.

(** C9.  The analysis counts exactly the layers with at least two samples:
    the array [frequencies] holds one element for each of them, in the
    order of the Map, with the deviation computed from the samples of that
    layer, and nothing for any other layer; the average deviation is the
    mean of these deviations, so the verdict is the one computed from the
    Map with the other layers removed.  The analysis acts on this verdict:
    it logs the average in the branch the test [avgDeviation < 0.1]
    selects, and [resonanceEstablished] is set afterwards exactly when the
    test succeeded or the flag was set before.  When no layer qualifies,
    the average deviation is [0/0 = NaN], the test is false, and the
    analysis returns normally with the flag as it was, its only effect
    being the log line of the "incomplete" branch. *)
Theorem analysis_ignores_layers_below_two_samples
  (cfg : Config) (env : Env) (s : State) :
  let tf := temporalFrequencies s in
  let counted := filter qualifies tf in
  let fs := frequencies cfg (energyLevels s) tf in
  let o := analyzeResonancePattern cfg env s in
  map f_layer fs = map fst counted /\
  map f_deviation fs = map (layer_deviation cfg) counted /\
  fst (verdict cfg s)
  = div (sum (map (layer_deviation cfg) counted))
        (of_Z (Z.of_nat (List.length counted))) /\
  snd (verdict cfg s) = lt (fst (verdict cfg s)) (Fin 0.1) /\
  verdict cfg s = verdict cfg (set_temporalFrequencies counted s) /\
  resonanceEstablished (final_state o)
  = snd (verdict cfg s) || resonanceEstablished s /\
  In (Log (if snd (verdict cfg s)
           then L_ResonanceEstablished (fst (verdict cfg s))
           else L_ResonanceIncomplete (fst (verdict cfg s))))
     (trace (final_state o)) /\
  ((forall layer delays, In (layer, delays) tf -> (List.length delays < 2)%nat) ->
     counted = [] /\
     verdict cfg s = (NaN, false) /\
     o = Ok tt (set_trace (Log (L_ResonanceIncomplete NaN) :: trace s) s)).
Proof.
  cbv zeta.
  destruct (frequencies_counted cfg (energyLevels s) (temporalFrequencies s))
    as [Hl Hd].
  split; [exact Hl |]. split; [exact Hd |].
  split; [apply verdict_counted |]. split; [reflexivity |].
  split.
  { unfold verdict. cbn [temporalFrequencies energyLevels set_temporalFrequencies].
    now rewrite <- frequencies_filter. }
  split.
  { now destruct (analyzeResonancePattern_fields cfg env s) as (_ & _ & _ & Hr). }
  split; [apply analyzeResonancePattern_logs |].
  intros Hnone.
  pose proof (verdict_none cfg s Hnone) as V.
  split.
  { apply filter_none, forallb_not_qualifies, Hnone. }
  split; [exact V |].
  rewrite analyzeResonancePattern_not_converged by now rewrite V.
  now rewrite V.
Qed.


(* ================================================================== *)
(** ** One layer of the cascade, spelled out *)

Section LayerFacts.

Variable cfg : Config.

Lemma recordFrequency_eq layer delay env s :
  recordFrequency cfg layer delay env s
  = when (layer =? LAYERS cfg - 1)%Z (analyzeResonancePattern cfg) env
      (recorded layer delay s).
Proof. reflexivity. Qed.

Lemma createTemporalPressure_eq layer e env s :
  createTemporalPressure cfg layer e env s
  = let delay := totalDelay cfg layer e (Fin (Date_now env (clockReads s))) in
    if dom_throws env layer
    then Throw (DomError layer) (set_clockReads (S (clockReads s)) s)
    else if raf_throws env layer
    then Throw (RafError layer) (after_worker env layer (after_dom layer e s))
    else recordFrequency cfg layer delay env (at_timer env layer e delay s).
Proof.
  unfold createTemporalPressure, at_timer, after_worker, after_dom,
    applyDOMPressure, applyWorkerPressure, applyRAFPressure,
    bind, now, ask, when, try_catch, throw, emit, console_log, modify, ret.
  cbv zeta.
  destruct (dom_throws env layer); [reflexivity |].
  destruct (has_Worker env); [destruct (worker_throws env layer) |];
    destruct (raf_throws env layer); reflexivity.
Qed.

Lemma recordFrequency_nt layer delay : never_throws (recordFrequency cfg layer delay).
Proof.
  intros env s. rewrite recordFrequency_eq.
  apply nt_when, analyzeResonancePattern_nt.
Qed.

(** The worker stimulus never throws, whatever the environment. *)
Lemma applyWorkerPressure_nt layer : never_throws (applyWorkerPressure layer).
Proof. unfold applyWorkerPressure. nothrow. Qed.

End LayerFacts.

(* ================================================================== *)
(** ** The Map under [recordFrequency] *)

Lemma has_false_iff (k : Z) (m : FreqMap.t) :
  FreqMap.has k m = false <-> ~ In k (map fst m).
Proof.
  induction m as [| [k' v] m IH]; cbn [FreqMap.has map fst In].
  - tauto.
  - rewrite orb_false_iff, IH, Z.eqb_neq. intuition congruence.
Qed.

Lemma push_set_fresh (k : Z) (x : number) (m : FreqMap.t) :
  FreqMap.has k m = false ->
  FreqMap.push k x (FreqMap.set k [] m) = m ++ [(k, [x])].
Proof.
  induction m as [| [k' v] m IH]; cbn [FreqMap.has FreqMap.set FreqMap.push app].
  - intros _. now rewrite Z.eqb_refl.
  - intros H. apply orb_false_iff in H as [Hk Hm].
    rewrite Hk. cbn [FreqMap.push]. rewrite Hk. now rewrite IH.
Qed.

Lemma in_indices (n d : Z) : In d (indices n) <-> (0 <= d < n)%Z.
Proof.
  unfold indices. rewrite in_map_iff. split.
  - intros (i & <- & Hi). apply in_seq in Hi. lia.
  - intros H. exists (Z.to_nat d). split; [lia |]. apply in_seq. lia.
Qed.

Lemma indices_succ (k : nat) :
  indices (Z.of_nat (S k)) = indices (Z.of_nat k) ++ [Z.of_nat k].
Proof.
  unfold indices. rewrite !Nat2Z.id, seq_S, map_app. reflexivity.
Qed.

(* ================================================================== *)
(** ** A run of the cascade on a new vortex *)

Lemma calm_refl s : calm s s.
Proof. repeat split. apply trace_grows_refl. Qed.

Lemma calm_trans s1 s2 s3 : calm s1 s2 -> calm s2 s3 -> calm s1 s3.
Proof.
  intros (A & B & C) (A' & B' & C'). split; [| split].
  - eapply same_analyzer_trans; eassumption.
  - eapply trace_grows_trans; eassumption.
  - congruence.
Qed.

Ltac prim_calm :=
  try (intros ? ?); cbn; repeat split;
  first [ now exists [] | eexists [_]; reflexivity ].

Ltac calm_steps :=
  preserve calm_refl calm_trans; prim_calm.

Section RunFacts.

Variable cfg : Config.

Lemma run_inv_safe p k s : run_inv cfg p k s -> run_safe p s.
Proof. intros (A & B & _). now split. Qed.

Lemma run_inv_calm p k s s' : run_inv cfg p k s -> calm s s' -> run_inv cfg p k s'.
Proof.
  intros (A & B & C & D & E) ((E1 & E2 & E3 & E4) & [evs G] & H).
  repeat split; try congruence.
  intros Hk. rewrite G. apply in_or_app. right. now apply E.
Qed.

Lemma run_safe_calm p s s' : run_safe p s -> calm s s' -> run_safe p s'.
Proof.
  intros (A & B) ((E1 & E2 & E3 & E4) & _ & H). split; congruence.
Qed.

Lemma single_sample_none (tf : FreqMap.t) :
  Forall single_sample tf ->
  forall layer delays, In (layer, delays) tf -> (List.length delays < 2)%nat.
Proof.
  intros H layer delays Hin. rewrite Forall_forall in H.
  specialize (H _ Hin). unfold single_sample in H. cbn [snd] in H. lia.
Qed.

Lemma calm_emit ev s :
  is_handshake_attempt ev = false -> calm s (set_trace (ev :: trace s) s).
Proof.
  intros H. repeat split; cbn.
  - now exists [ev].
  - unfold handshake_attempts. cbn [filter]. now rewrite H.
Qed.

Lemma calm_clock n s : calm s (set_clockReads n s).
Proof. repeat split. now exists []. Qed.

Lemma after_dom_calm layer e s : calm s (after_dom layer e s).
Proof.
  unfold after_dom. cbv zeta.
  eapply calm_trans; [apply (calm_clock (S (clockReads s))) |].
  now apply calm_emit.
Qed.

Lemma after_worker_calm env layer s : calm s (after_worker env layer s).
Proof.
  unfold after_worker.
  destruct (has_Worker env); [destruct (worker_throws env layer) |];
    first [ now apply calm_emit | apply calm_refl ].
Qed.

Lemma before_raf_calm env layer e s :
  calm s (after_worker env layer (after_dom layer e s)).
Proof.
  eapply calm_trans; [apply after_dom_calm | apply after_worker_calm].
Qed.

Lemma at_timer_calm env layer e delay s : calm s (at_timer env layer e delay s).
Proof.
  unfold at_timer. cbv zeta.
  eapply calm_trans; [apply before_raf_calm |].
  eapply calm_trans; now apply calm_emit.
Qed.

Lemma recorded_fresh layer delay s :
  FreqMap.has layer (temporalFrequencies s) = false ->
  recorded layer delay s
  = set_temporalFrequencies (temporalFrequencies s ++ [(layer, [delay])]) s.
Proof.
  intros H. unfold recorded. rewrite H.
  cbn [temporalFrequencies set_temporalFrequencies].
  now rewrite push_set_fresh.
Qed.

Lemma recordFrequency_inv p (i : nat) delay env s :
  run_inv cfg p (Z.of_nat i) s ->
  match recordFrequency cfg (Z.of_nat i) delay env s with
  | Ok _ s' => run_inv cfg p (Z.of_nat (S i)) s'
  | Throw _ s' => run_safe p s'
  end.
Proof.
  intros (A & B & C & D & E).
  rewrite recordFrequency_eq.
  assert (Hfresh : FreqMap.has (Z.of_nat i) (temporalFrequencies s) = false).
  { apply has_false_iff. rewrite C, in_indices. lia. }
  rewrite recorded_fresh by assumption.
  set (s6 := set_temporalFrequencies _ s).
  assert (C6 : map fst (temporalFrequencies s6) = indices (Z.of_nat (S i))).
  { subst s6. cbn [temporalFrequencies set_temporalFrequencies].
    rewrite map_app, C, indices_succ. reflexivity. }
  assert (D6 : Forall single_sample (temporalFrequencies s6)).
  { subst s6. cbn [temporalFrequencies set_temporalFrequencies].
    apply Forall_app. split; [assumption |]. now repeat constructor. }
  destruct (Z.of_nat i =? LAYERS cfg - 1)%Z eqn:Hlast; cbn [when].
  - pose proof (verdict_none cfg s6 (single_sample_none _ D6)) as V.
    rewrite analyzeResonancePattern_not_converged by now rewrite V.
    rewrite V. cbn [fst].
    repeat split; try assumption.
    intros _. now left.
  - repeat split; try assumption.
    intros Hk. apply Z.eqb_neq in Hlast. apply E. lia.
Qed.

Lemma createTemporalPressure_inv p (i : nat) e env s :
  run_inv cfg p (Z.of_nat i) s ->
  match createTemporalPressure cfg (Z.of_nat i) e env s with
  | Ok _ s' => run_inv cfg p (Z.of_nat (S i)) s'
  | Throw _ s' => run_safe p s'
  end.
Proof.
  intros Hinv. rewrite createTemporalPressure_eq. cbv zeta.
  destruct (dom_throws env (Z.of_nat i)).
  { eapply run_safe_calm; [eapply run_inv_safe; eassumption | apply calm_clock]. }
  destruct (raf_throws env (Z.of_nat i)).
  { eapply run_safe_calm; [eapply run_inv_safe; eassumption |].
    apply before_raf_calm. }
  apply recordFrequency_inv.
  eapply run_inv_calm; [exact Hinv | apply at_timer_calm].
Qed.

Lemma layer_step_inv p (i : nat) env s :
  run_inv cfg p (Z.of_nat i) s ->
  match layer_step cfg (Z.of_nat i) env s with
  | Ok _ s' => run_inv cfg p (Z.of_nat (S i)) s'
  | Throw _ s' => run_safe p s'
  end.
Proof.
  intros Hinv. unfold layer_step. unfold bind at 1. unfold get at 1. cbv zeta.
  unfold bind at 1.
  set (e := index (energyLevels s) (Z.of_nat i)).
  pose proof (createTemporalPressure_inv p i
                (match e with Some x => x | None => NaN end) env s Hinv) as Hstep.
  destruct (createTemporalPressure cfg (Z.of_nat i)
              (match e with Some x => x | None => NaN end) env s)
    as [[] s' | err s']; [| exact Hstep].
  match goal with |- match ?m env s' with _ => _ end => set (rest := m) end.
  assert (Hc : preserves calm rest).
  { subst rest. destruct e; calm_steps. }
  specialize (Hc env s').
  destruct (rest env s') as [[] s'' | err s'']; cbn [final_state] in Hc.
  - eapply run_inv_calm; eassumption.
  - eapply run_safe_calm; [eapply run_inv_safe |]; eassumption.
Qed.

Lemma for_each_layers_inv p (n k : nat) env s :
  run_inv cfg p (Z.of_nat k) s ->
  match for_each (map Z.of_nat (seq k n)) (layer_step cfg) env s with
  | Ok _ s' => run_inv cfg p (Z.of_nat (k + n)) s'
  | Throw _ s' => run_safe p s'
  end.
Proof.
  revert k s. induction n as [| n IH]; intros k s Hinv.
  - cbn. now rewrite Nat.add_0_r.
  - cbn [seq map for_each]. unfold bind.
    pose proof (layer_step_inv p k env s Hinv) as Hstep.
    destruct (layer_step cfg (Z.of_nat k) env s) as [[] s' | err s'];
      [| exact Hstep].
    specialize (IH (S k) s' Hstep).
    now rewrite Nat.add_succ_r.
Qed.

(** A new vortex satisfies the invariant at layer 0. *)
Lemma constructor_inv env p :
  run_inv cfg (final_state (constructor cfg env p)) 0
          (final_state (constructor cfg env p)).
Proof.
  repeat split; cbn.
  - constructor.
  - intros H. lia.
Qed.

Lemma calm_triple {A} env p k (m : M A) :
  preserves calm m ->
  triple env (run_inv cfg p k) m (fun _ => run_inv cfg p k) (fun _ => run_safe p).
Proof.
  intros Hc s Hinv. specialize (Hc env s).
  destruct (m env s) as [a s' | err s']; cbn [final_state] in Hc.
  - eapply run_inv_calm; eassumption.
  - eapply run_safe_calm; [eapply run_inv_safe |]; eassumption.
Qed.

Lemma triggerCrossDomainVortex_inv env p :
  triple env (run_inv cfg p 0) (triggerCrossDomainVortex cfg)
         (fun _ => run_inv cfg p (Z.of_nat (Z.to_nat (LAYERS cfg))))
         (fun _ => run_safe p).
Proof.
  unfold triggerCrossDomainVortex.
  eapply triple_bind; [apply calm_triple; calm_steps | intros ?].
  eapply triple_bind; [apply calm_triple; calm_steps | intros ?].
  eapply triple_bind;
    [apply calm_triple; unfold calculateEnergyCascade; calm_steps | intros ?].
  eapply triple_bind.
  { intros s Hinv. exact (for_each_layers_inv p (Z.to_nat (LAYERS cfg)) 0 env s Hinv). }
  intros ?. cbn [Nat.add].
  apply calm_triple. unfold retuneParameters. calm_steps.
Qed.

End RunFacts.

Lemma single_run (cfg : Config) (env : Env) (page : State) :
  let s0 := final_state (constructor cfg env page) in
  let o := triggerCrossDomainVortex cfg env s0 in
  let s := final_state o in
  resonanceEstablished s = false /\
  handshake_attempts (trace s) = handshake_attempts (trace page) /\
  (completed o = true ->
     map fst (temporalFrequencies s) = indices (LAYERS cfg) /\
     Forall single_sample (temporalFrequencies s) /\
     frequencies cfg (energyLevels s) (temporalFrequencies s) = [] /\
     ((0 < LAYERS cfg)%Z -> In (Log (L_ResonanceIncomplete NaN)) (trace s))).
Proof.
  cbv zeta.
  pose proof (triggerCrossDomainVortex_inv cfg env _ _ (constructor_inv cfg env page)) as H.
  set (s0 := final_state (constructor cfg env page)) in *.
  assert (Htr : trace s0 = trace page) by reflexivity.
  destruct (triggerCrossDomainVortex cfg env s0) as [[] s | err s]; cbn [final_state completed].
  - destruct H as (A & B & C & D & E). rewrite <- Htr.
    split; [assumption |]. split; [assumption |]. intros _.
    split; [| split; [assumption | split]].
    + rewrite C. unfold indices. now rewrite Nat2Z.id.
    + apply frequencies_none, forallb_not_qualifies, single_sample_none, D.
    + intros HL. apply E. lia.
  - destruct H as (A & B). rewrite <- Htr. split; [assumption |].
    split; [assumption | discriminate].
Qed.

(** C3.  One run of [triggerCrossDomainVortex] on a new vortex, in any
    environment and on any page: the flag [resonanceEstablished] is false
    at the end and [attemptCrossDomainHandshake] was not entered; when the
    run reaches its end, the Map holds the layers 0..32 with exactly one
    sample each, so the analysis found no qualifying layer and took the
    "incomplete" branch with a NaN deviation. *)
Theorem single_run_never_resonates (env : Env) (page : State) :
  let s0 := final_state (constructor CTT_CONFIG env page) in
  let o := triggerCrossDomainVortex CTT_CONFIG env s0 in
  let s := final_state o in
  resonanceEstablished s = false /\
  handshake_attempts (trace s) = handshake_attempts (trace page) /\
  (completed o = true ->
     map fst (temporalFrequencies s) = indices 33 /\
     Forall single_sample (temporalFrequencies s) /\
     frequencies CTT_CONFIG (energyLevels s) (temporalFrequencies s) = [] /\
     In (Log (L_ResonanceIncomplete NaN)) (trace s)).
Proof.
  cbv zeta. destruct (single_run CTT_CONFIG env page) as (A & B & C).
  split; [exact A |]. split; [exact B |]. intros Hc.
  destruct (C Hc) as (C1 & C2 & C3 & C4).
  repeat split; try assumption. now apply C4.
Qed.

(* ================================================================== *)
(** ** Which failures stop the cascade *)

Section Completion.

Variable cfg : Config.

Lemma recordFrequency_levels layer delay env s :
  energyLevels (final_state (recordFrequency cfg layer delay env s)) = energyLevels s.
Proof.
  rewrite recordFrequency_eq.
  assert (H : energyLevels (recorded layer delay s) = energyLevels s).
  { unfold recorded. cbv zeta.
    destruct (FreqMap.has layer (temporalFrequencies s)); reflexivity. }
  destruct (layer =? LAYERS cfg - 1)%Z; cbn [when].
  - destruct (analyzeResonancePattern_fields cfg env (recorded layer delay s)) as (E & _).
    now rewrite E.
  - exact H.
Qed.

Lemma createTemporalPressure_outcome layer e env s :
  match createTemporalPressure cfg layer e env s with
  | Ok _ s' => stimuli_work env layer /\ energyLevels s' = energyLevels s
  | Throw err s' => stimulus_failure env err layer /\ calm s s'
  end.
Proof.
  rewrite createTemporalPressure_eq. cbv zeta.
  unfold stimulus_failure, stimuli_work.
  destruct (dom_throws env layer) eqn:Hd.
  { split; [left; now split | apply calm_clock]. }
  destruct (raf_throws env layer) eqn:Hr.
  { split; [right; now split | apply before_raf_calm]. }
  set (delay := totalDelay cfg layer e _).
  pose proof (recordFrequency_nt cfg layer delay env (at_timer env layer e delay s)) as Hnt.
  pose proof (recordFrequency_levels layer delay env (at_timer env layer e delay s)) as Hl.
  destruct (recordFrequency cfg layer delay env (at_timer env layer e delay s))
    as [[] s' | err s']; [| discriminate].
  cbn [final_state] in Hl. split; [now split |].
  rewrite Hl. now destruct (at_timer_calm env layer e delay s) as ((E & _) & _).
Qed.

Lemma progress_calm env p k s s' : progress cfg env p k s -> calm s s' -> progress cfg env p k s'.
Proof.
  intros (A & B & C) Hc. split; [eapply run_inv_calm; eassumption |].
  split; [| assumption].
  destruct Hc as ((E & _) & _). unfold levels_ok in *. now rewrite E.
Qed.

Lemma layer_step_progress env p (i : nat) :
  (Z.of_nat i < LAYERS cfg)%Z ->
  triple env (progress cfg env p (Z.of_nat i)) (layer_step cfg (Z.of_nat i))
         (fun _ => progress cfg env p (Z.of_nat (S i))) (aborted cfg env p).
Proof.
  intros Hi s (Hinv & Hlev & Hwork).
  unfold layer_step. unfold bind at 1. unfold get at 1. cbv zeta.
  destruct (index (energyLevels s) (Z.of_nat i)) as [x |] eqn:Hx.
  2:{ exfalso. unfold index in Hx.
      destruct (Z.ltb_spec (Z.of_nat i) 0) as [| _]; [lia |].
      apply nth_error_None in Hx. unfold levels_ok in Hlev. lia. }
  unfold bind at 1.
  pose proof (createTemporalPressure_inv cfg p i x env s Hinv) as Hstep.
  pose proof (createTemporalPressure_outcome (Z.of_nat i) x env s) as Hout.
  destruct (createTemporalPressure cfg (Z.of_nat i) x env s) as [[] s' | err s'].
  - destruct Hout as (Hw & Hl).
    match goal with |- match ?m env s' with _ => _ end => set (rest := m) end.
    assert (Hc : preserves calm rest /\ never_throws rest).
    { subst rest. split; [calm_steps | nothrow]. }
    destruct Hc as [Hc Hnt]. specialize (Hc env s'). specialize (Hnt env s').
    destruct (rest env s') as [[] s'' | err s'']; [| discriminate].
    cbn [final_state] in Hc.
    eapply progress_calm; [| exact Hc].
    split; [exact Hstep |]. split.
    + unfold levels_ok in *. now rewrite Hl.
    + intros d Hd. destruct (Z.eq_dec d (Z.of_nat i)) as [-> | Hne];
        [exact Hw | apply Hwork; lia].
  - destruct Hout as (Hf & Hc). split; [exact Hstep |].
    exists (Z.of_nat i). split; [lia |]. split; [exact Hf |].
    destruct Hc as ((_ & _ & E & _) & _). rewrite E.
    now destruct Hinv as (_ & _ & C & _).
Qed.

Lemma for_each_layers_progress env p (n k : nat) :
  ((0 < n)%nat -> (Z.of_nat (k + n) <= LAYERS cfg)%Z) ->
  triple env (progress cfg env p (Z.of_nat k))
         (for_each (map Z.of_nat (seq k n)) (layer_step cfg))
         (fun _ => progress cfg env p (Z.of_nat (k + n))) (aborted cfg env p).
Proof.
  revert k. induction n as [| n IH]; intros k Hk.
  - intros s HP. cbn. now rewrite Nat.add_0_r.
  - cbn [seq map for_each]. eapply triple_bind.
    + apply layer_step_progress. lia.
    + intros ?. rewrite Nat.add_succ_r. apply IH. lia.
Qed.

Lemma calm_progress_triple {A} env p k (m : M A) :
  preserves calm m -> never_throws m ->
  triple env (progress cfg env p k) m (fun _ => progress cfg env p k) (aborted cfg env p).
Proof.
  intros Hc Hnt s HP. specialize (Hc env s). specialize (Hnt env s).
  destruct (m env s) as [a s' | err s']; [| discriminate].
  eapply progress_calm; eassumption.
Qed.

Lemma triggerCrossDomainVortex_progress env p :
  triple env (progress cfg env p 0) (triggerCrossDomainVortex cfg)
         (fun _ => progress cfg env p (Z.of_nat (Z.to_nat (LAYERS cfg))))
         (aborted cfg env p).
Proof.
  unfold triggerCrossDomainVortex.
  eapply triple_bind; [apply calm_progress_triple; [calm_steps | nothrow] | intros ?].
  eapply triple_bind; [apply calm_progress_triple; [calm_steps | nothrow] | intros ?].
  eapply triple_bind;
    [apply calm_progress_triple; unfold calculateEnergyCascade; [calm_steps | nothrow]
    | intros ?].
  eapply triple_bind.
  { apply (for_each_layers_progress env p (Z.to_nat (LAYERS cfg)) 0). lia. }
  intros ?. cbn [Nat.add].
  apply calm_progress_triple; unfold retuneParameters; [calm_steps | nothrow].
Qed.

Lemma constructor_progress env page :
  progress cfg env (final_state (constructor cfg env page)) 0
           (final_state (constructor cfg env page)).
Proof.
  split; [apply constructor_inv |]. split.
  - unfold levels_ok. rewrite constructor_energyLevels.
    now rewrite length_map, indices_length.
  - intros d Hd. lia.
Qed.

End Completion.

(** The outcome of the run of a new vortex. *)
Lemma run_outcome (cfg : Config) (env : Env) (page : State) :
  match triggerCrossDomainVortex cfg env (final_state (constructor cfg env page)) with
  | Ok _ s =>
      (forall d, (0 <= d < LAYERS cfg)%Z -> stimuli_work env d) /\
      map fst (temporalFrequencies s) = indices (LAYERS cfg)
  | Throw e s =>
      exists d, (0 <= d < LAYERS cfg)%Z /\ stimulus_failure env e d /\
                map fst (temporalFrequencies s) = indices d
  end.
Proof.
  pose proof (triggerCrossDomainVortex_progress cfg env _ _
                (constructor_progress cfg env page)) as H.
  destruct (triggerCrossDomainVortex cfg env (final_state (constructor cfg env page)))
    as [[] s | e s].
  - destruct H as ((_ & _ & C & _) & _ & W). split.
    + intros d Hd. apply W. lia.
    + rewrite C. unfold indices. now rewrite Nat2Z.id.
  - now destruct H as (_ & H).
Qed.

(** In the quiet environment the run of a new vortex reaches its end. *)
Lemma quiet_run_completes (cfg : Config) (page : State) :
  completed (triggerCrossDomainVortex cfg quiet_env
               (final_state (constructor cfg quiet_env page))) = true.
Proof.
  pose proof (triggerCrossDomainVortex_progress cfg quiet_env _ _
                (constructor_progress cfg quiet_env page)) as H.
  destruct (triggerCrossDomainVortex cfg quiet_env
              (final_state (constructor cfg quiet_env page))) as [[] s | e s];
    [reflexivity |].
  destruct H as (_ & d & _ & [[_ Hf] | [_ Hf]] & _); discriminate Hf.
Qed.

Lemma stimulus_failure_not_work env e d :
  stimulus_failure env e d -> stimuli_work env d -> False.
Proof. intros [[_ H] | [_ H]] [H1 H2]; congruence. Qed.

Lemma main_eq (cfg : Config) (env : Env) (page : State) :
  main cfg env page
  = match triggerCrossDomainVortex cfg env (final_state (constructor cfg env page)) with
    | Ok a s => Ok a s
    | Throw _ s => Ok tt (set_trace (Log L_VortexFailed :: trace s) s)
    end.
Proof. reflexivity. Qed.

(** C6, as the code has it.  The worker stimulus never throws: a failure
    to create the worker is caught inside [applyWorkerPressure].  The DOM
    and the frame-loop stimulus have no handler: the run of a new vortex
    reaches its end exactly when neither of them throws at any layer;
    otherwise it stops at the first layer [d] where one throws, with that
    error and only the layers below [d] recorded, and the [catch] of the
    load handler logs the failure. *)
Theorem only_worker_failures_are_swallowed (cfg : Config) (env : Env) (page : State) :
  let o := triggerCrossDomainVortex cfg env (final_state (constructor cfg env page)) in
  (forall layer s, completed (applyWorkerPressure layer env s) = true) /\
  (completed o = true <-> forall d, (0 <= d < LAYERS cfg)%Z -> stimuli_work env d) /\
  match o with
  | Ok _ s => map fst (temporalFrequencies s) = indices (LAYERS cfg)
  | Throw e s =>
      exists d, (0 <= d < LAYERS cfg)%Z /\ stimulus_failure env e d /\
                map fst (temporalFrequencies s) = indices d
  end /\
  completed (main cfg env page) = true /\
  (completed o = false ->
   exists tr, trace (final_state (main cfg env page)) = Log L_VortexFailed :: tr).
Proof.
  cbv zeta. pose proof (run_outcome cfg env page) as H. rewrite main_eq.
  destruct (triggerCrossDomainVortex cfg env (final_state (constructor cfg env page)))
    as [[] s | e s]; cbn [completed final_state].
  - destruct H as (W & K).
    split; [intros; apply applyWorkerPressure_nt |].
    split; [tauto |]. split; [exact K |]. split; [reflexivity | discriminate].
  - destruct H as (d & Hd & Hf & K).
    split; [intros; apply applyWorkerPressure_nt |].
    split.
    { split; [discriminate |]. intros W. exfalso.
      eapply stimulus_failure_not_work; [exact Hf | now apply W]. }
    split; [now exists d |]. split; [reflexivity |].
    intros _. now eexists.
Qed.

(** C6 fails as stated: with the DOM calls throwing at layer 3, the error
    reaches the driver, which stops with layers 0, 1, 2 recorded only. *)
Lemma dom_failure_stops_cascade :
  exists s,
    triggerCrossDomainVortex CTT_CONFIG dom_fails_at_3
      (final_state (constructor CTT_CONFIG dom_fails_at_3 fresh_page))
    = Throw (DomError 3) s /\
    map fst (temporalFrequencies s) = [0; 1; 2]%Z.
Proof.
  pose proof (run_outcome CTT_CONFIG dom_fails_at_3 fresh_page) as H.
  destruct (triggerCrossDomainVortex CTT_CONFIG dom_fails_at_3
              (final_state (constructor CTT_CONFIG dom_fails_at_3 fresh_page)))
    as [[] s | e s].
  - destruct H as (W & _). destruct (W 3%Z) as [Hd _]; [cbn; lia | discriminate Hd].
  - destruct H as (d & Hd & [[-> Hf] | [_ Hf]] & K); [| discriminate Hf].
    cbn in Hf. apply Z.eqb_eq in Hf. subst d.
    exists s. split; [reflexivity | exact K].
Qed.

(* ================================================================== *)
(** ** Configurations the spec calls invalid *)

(** C5, as the code has it.  The constructor validates nothing and returns
    normally for every configuration.  With [LAYERS <= 0] the energy
    sequence is empty, the total is 0, and the run goes through no layer:
    it returns normally with an empty Map, having only written its log
    lines and taken the retune branch.  Whatever the sign of a finite
    [ALPHA], the level of every layer in range is [exp(-ALPHA * d)], and
    the run goes through all the layers when no stimulus throws. *)
Theorem no_configuration_is_rejected (cfg : Config) (env : Env) (page : State) :
  let s0 := final_state (constructor cfg env page) in
  let o := triggerCrossDomainVortex cfg env s0 in
  completed (constructor cfg env page) = true /\
  ((LAYERS cfg <= 0)%Z ->
     energyLevels s0 = [] /\ totalEnergy s0 = Fin 0 /\
     completed o = true /\
     temporalFrequencies (final_state o) = [] /\
     trace (final_state o)
     = [ Log (L_Retuning (mul (ALPHA cfg)
                            (add (Fin 0.95)
                               (mul (Fin (Math_random env (randomReads page))) (Fin 0.1)))));
         Log L_RetuningParameters;
         Log (L_VortexComplete (Fin 0));
         Log (L_TotalEnergy (Fin 0));
         Log (L_TheoremParams (ALPHA cfg) (LAYERS cfg));
         Log (L_Theorem (ALPHA cfg));
         Log L_Initializing ] ++ trace page) /\
  (forall a d, ALPHA cfg = Fin a -> (0 <= d < LAYERS cfg)%Z ->
     index (energyLevels s0) d = Some (Fin (exp (- a * IZR d)))) /\
  ((forall d, (0 <= d < LAYERS cfg)%Z -> stimuli_work env d) ->
     completed o = true /\
     map fst (temporalFrequencies (final_state o)) = indices (LAYERS cfg)).
Proof.
  cbv zeta. split; [reflexivity |]. split; [| split].
  - intros HL. unfold triggerCrossDomainVortex, constructor.
    rewrite (indices_nonpos _ HL). repeat split.
  - intros a d Ha Hd. rewrite constructor_energyLevels.
    rewrite index_map_indices by assumption. f_equal. now apply decay_Fin.
  - intros W. pose proof (run_outcome cfg env page) as H.
    destruct (triggerCrossDomainVortex cfg env (final_state (constructor cfg env page)))
      as [[] s | e s]; cbn [completed final_state].
    + now destruct H.
    + destruct H as (d & Hd & Hf & _). exfalso.
      eapply stimulus_failure_not_work; [exact Hf | now apply W].
Qed.

(** C5 fails as stated: with [LAYERS = 0] the constructor and the run both
    return normally, and with a negative [ALPHA] the levels are computed
    and both layers are run. *)
Lemma invalid_configurations_are_accepted :
  (exists s, constructor no_layers quiet_env fresh_page = Ok tt s /\
             energyLevels s = [] /\
             completed (triggerCrossDomainVortex no_layers quiet_env s) = true) /\
  (exists s, constructor negative_alpha quiet_env fresh_page = Ok tt s /\
             energyLevels s = [Fin (exp (- -1 * 0)); Fin (exp (- -1 * 1))] /\
             exists s', triggerCrossDomainVortex negative_alpha quiet_env s = Ok tt s' /\
                        map fst (temporalFrequencies s') = [0; 1]%Z).
Proof.
  split.
  - eexists. split; [reflexivity |]. split; reflexivity.
  - eexists. split; [reflexivity |]. split; [reflexivity |].
    pose proof (run_outcome negative_alpha quiet_env fresh_page) as H.
    cbn [final_state constructor modify] in H.
    match goal with
    | |- exists s', ?t = _ /\ _ => destruct t as [[] s | e s] eqn:E
    end.
    + exists s. split; [reflexivity |]. now destruct H.
    + destruct H as (d & _ & [[_ Hf] | [_ Hf]] & _); discriminate Hf.
Qed.

(* ================================================================== *)
(** ** Bridges *)

Section BridgeFacts.

Variable cfg : Config.
Variable env : Env.

Lemma handshake_listener_response r s :
  exists s', handshake_listener cfg (response r) env s = Ok tt s' /\ bridged 1 r s s'.
Proof.
  unfold handshake_listener, establishTemporalBridge, initiateCrossDomainExchange,
    bind, when, try_catch, console_log, emit, modify, now, get, ask, throw, ret.
  cbn [msg_type response String.eqb Ascii.eqb Bool.eqb andb msg_bridgeId msg_energy].
  unfold bridged, bridges_created.
  destruct (storage_throws env); cbn; eexists; (split; [reflexivity |]);
    (split; [now rewrite Nat.add_1_r |]); (split; [reflexivity |]);
    (split; [discriminate |]); intros _; eexists; reflexivity.
Qed.

Lemma times_listener_response r (k : nat) s :
  exists s', times k (handshake_listener cfg (response r)) env s = Ok tt s' /\
             bridged k r s s'.
Proof.
  revert s. induction k as [| k IH]; intros s.
  - exists s. split; [reflexivity |]. repeat split; [now rewrite Nat.add_0_r | lia].
  - cbn [times]. unfold bind.
    destruct (handshake_listener_response r s) as (s1 & -> & (A1 & B1 & _ & C1)).
    destruct (IH s1) as (s2 & -> & (A2 & B2 & Z2 & C2)).
    exists s2. split; [reflexivity |]. repeat split.
    + rewrite A2, A1. lia.
    + congruence.
    + discriminate.
    + intros _. destruct k as [| k].
      * rewrite (Z2 eq_refl). apply C1. lia.
      * apply C2. lia.
Qed.

Lemma deliver_response r s :
  exists s', deliver cfg (response r) env s = Ok tt s' /\
             bridged (messageListeners s) r s s'.
Proof.
  unfold deliver, bind, get. apply times_listener_response.
Qed.

Lemma deliver_all_responses rs s :
  exists s', deliver_all cfg (map response rs) env s = Ok tt s' /\
    bridges_created (trace s')
    = (bridges_created (trace s) + messageListeners s * List.length rs)%nat /\
    messageListeners s' = messageListeners s /\
    (rs = [] -> s' = s) /\
    ((0 < messageListeners s)%nat ->
     forall rs' r, rs = rs' ++ [r] ->
     exists t, activeBridge s' = Some (bridge_from r t)).
Proof.
  revert s. induction rs as [| r rs IH]; intros s.
  - exists s. split; [reflexivity |]. repeat split.
    + cbn. lia.
    + intros _ rs' r E. now destruct rs'.
  - cbn [map deliver_all]. unfold bind.
    destruct (deliver_response r s) as (s1 & -> & (A1 & B1 & _ & C1)).
    destruct (IH s1) as (s2 & -> & A2 & B2 & Z2 & C2).
    exists s2. split; [reflexivity |]. repeat split.
    + rewrite A2, A1, B1. cbn [List.length]. lia.
    + congruence.
    + discriminate.
    + intros Hk rs' r' E. destruct rs as [| r2 rs].
      * destruct rs' as [| ? [| ? ?]]; inversion E; subst.
        rewrite (Z2 eq_refl). now apply C1.
      * destruct rs' as [| r0 rs']; [inversion E |].
        inversion E as [[E0 E']]. apply (C2 ltac:(lia) rs' r'). exact E'.
Qed.

End BridgeFacts.

(** *** One handshake registers one listener *)

Lemma same_listeners_refl s : same_listeners s s.
Proof. reflexivity. Qed.

Lemma same_listeners_trans s1 s2 s3 :
  same_listeners s1 s2 -> same_listeners s2 s3 -> same_listeners s1 s3.
Proof. unfold same_listeners. congruence. Qed.

Lemma listeners_triple {A} env n (m : M A) :
  preserves same_listeners m -> never_throws m ->
  triple env (fun s => messageListeners s = n) m
         (fun _ s => messageListeners s = n) (fun _ _ => False).
Proof.
  intros Hp Hnt s Hs. specialize (Hp env s). specialize (Hnt env s).
  destruct (m env s) as [a s' | e s']; [| discriminate].
  unfold same_listeners in Hp. cbn [final_state] in Hp. congruence.
Qed.

Lemma post_to_iframes_same_listeners fs : preserves same_listeners (post_to_iframes fs).
Proof. intros env s. apply post_to_iframes_listeners. Qed.

Lemma attemptCrossDomainHandshake_listeners (cfg : Config) env s :
  messageListeners (final_state (attemptCrossDomainHandshake cfg env s))
  = S (messageListeners s).
Proof.
  assert (H : triple env (fun s' => messageListeners s' = messageListeners s)
                (attemptCrossDomainHandshake cfg)
                (fun _ s' => messageListeners s' = S (messageListeners s))
                (fun _ _ => False)).
  { unfold attemptCrossDomainHandshake, handshakeViaPostMessage.
    eapply triple_bind;
      [apply listeners_triple;
       [preserve same_listeners_refl same_listeners_trans; now intros ? ? | nothrow]
      | intros ?].
    eapply triple_bind.
    { eapply triple_bind; [apply listeners_triple; [now intros ? ? | nothrow] | intros ?].
      eapply triple_bind;
        [apply listeners_triple;
         [apply post_to_iframes_same_listeners | apply post_to_iframes_nt]
        | intros ?].
      eapply triple_bind with (Q := fun _ s' => messageListeners s' = S (messageListeners s)).
      - intros s' Hs'. cbn. now rewrite Hs'.
      - intros ?. apply listeners_triple; [now intros ? ? | nothrow]. }
    intros ?.
    unfold handshakeViaSharedWorker, handshakeViaBroadcastChannel,
      handshakeViaServiceWorker.
    apply listeners_triple;
      [preserve same_listeners_refl same_listeners_trans; now intros ? ? | nothrow]. }
  specialize (H s eq_refl).
  now destruct (attemptCrossDomainHandshake cfg env s).
Qed.

(** A converged analysis starts a handshake every time it runs: run twice,
    it leaves two listeners more on the page. *)
Lemma converged_analysis_adds_listener (cfg : Config) (env env' : Env) (s : State) :
  snd (verdict cfg s) = true ->
  let s1 := final_state (analyzeResonancePattern cfg env s) in
  let s2 := final_state (analyzeResonancePattern cfg env' s1) in
  messageListeners s1 = S (messageListeners s) /\
  messageListeners s2 = S (S (messageListeners s)).
Proof.
  intros V. cbv zeta.
  assert (H1 : messageListeners (final_state (analyzeResonancePattern cfg env s))
               = S (messageListeners s)).
  { rewrite (analyzeResonancePattern_converged cfg env s V).
    now rewrite attemptCrossDomainHandshake_listeners. }
  split; [exact H1 |].
  set (s1 := final_state (analyzeResonancePattern cfg env s)) in *.
  assert (V1 : snd (verdict cfg s1) = true).
  { destruct (analyzeResonancePattern_fields cfg env s) as (E1 & _ & E3 & _).
    fold s1 in E1, E3. now rewrite (verdict_ext cfg s s1 E1 E3). }
  rewrite (analyzeResonancePattern_converged cfg env' s1 V1).
  rewrite attemptCrossDomainHandshake_listeners. cbn [messageListeners
    set_resonanceEstablished set_trace]. now rewrite H1.
Qed.

(** C1, as the code has it.  [establishTemporalBridge] has no guard: every
    call of a listener with a handshake response builds a bridge and stores
    it in [activeBridge].  One handshake attempt registers one listener;
    after the responses [rs] are delivered, [messageListeners * |rs|] more
    bridges have been built, and with a listener registered [activeBridge]
    is the bridge built from the last response. *)
Theorem every_response_builds_a_bridge
  (cfg : Config) (env : Env) (s : State) (rs : list (option string * option number)) :
  let o := deliver_all cfg (map response rs) env s in
  let s' := final_state o in
  messageListeners (final_state (attemptCrossDomainHandshake cfg env s))
  = S (messageListeners s) /\
  completed o = true /\
  bridges_created (trace s')
  = (bridges_created (trace s) + messageListeners s * List.length rs)%nat /\
  ((0 < messageListeners s)%nat ->
   forall rs' r, rs = rs' ++ [r] ->
   exists t, activeBridge s' = Some (bridge_from r t)).
Proof.
  cbv zeta. split; [apply attemptCrossDomainHandshake_listeners |].
  destruct (deliver_all_responses cfg env rs s) as (s' & -> & A & _ & _ & C).
  cbn [completed final_state]. repeat split; assumption.
Qed.

(** C1 fails as stated: two responses, with the bridge ids A and B, leave
    two bridges built, and the active one is B, not A. *)
Lemma second_response_replaces_bridge :
  let s := final_state
             (deliver_all CTT_CONFIG
                [response (Some "A"%string, None); response (Some "B"%string, None)]
                quiet_env listening) in
  messageListeners listening = 1%nat /\
  bridges_created (trace s) = 2%nat /\
  option_map id (activeBridge s) = Some (Some "B"%string).
Proof. cbv zeta. repeat split. Qed.

(* ================================================================== *)
(** ** Samples that match the expectation exactly *)

Section ExactSamples.

Variable cfg : Config.
Variable a : R.
Hypothesis alpha_finite : ALPHA cfg = Fin a.

Lemma expected_delay_Fin layer :
  expected_delay cfg layer = Fin (exp (- a * IZR layer) * 1000).
Proof. unfold expected_delay. now rewrite (decay_Fin cfg a). Qed.

Lemma all_equal_repeat (v : number) (l : list number) :
  Forall (fun x => x = v) l -> l = repeat v (List.length l).
Proof.
  induction 1 as [| x l Hx _ IH]; [reflexivity |].
  cbn [List.length repeat]. now rewrite Hx, <- IH.
Qed.

(** The average of [n >= 2] copies of the expected delay deviates by 0. *)
Lemma frequency_of_exact levels layer delays :
  (2 <= List.length delays)%nat ->
  Forall (fun x => x = expected_delay cfg layer) delays ->
  exists f, frequency_of cfg levels (layer, delays) = [f] /\ f_deviation f = Fin 0.
Proof.
  intros Hn Hall. unfold frequency_of.
  destruct (Nat.ltb_spec 1 (List.length delays)) as [_ | H]; [| lia].
  eexists. split; [reflexivity |]. cbn [f_deviation].
  rewrite (all_equal_repeat _ _ Hall) at 1.
  rewrite expected_delay_Fin. unfold sum. rewrite fold_add_repeat.
  set (x := exp (- a * IZR layer) * 1000).
  assert (Hx : 0 < x) by (subst x; pose proof (exp_pos (- a * IZR layer)); lra).
  assert (Hlen : INR (List.length delays) <> 0) by (apply not_0_INR; lia).
  unfold of_Z. rewrite IZR_of_nat.
  rewrite div_Fin by assumption.
  replace ((0 + INR (List.length delays) * x) / INR (List.length delays)) with x
    by (field; assumption).
  unfold sub, neg, add, Math_abs.
  rewrite div_Fin by lra. f_equal.
  replace (x + - x) with 0 by lra. rewrite Rabs_R0. lra.
Qed.

Lemma avgDeviation_zero (fs : list Frequency) :
  fs <> [] -> Forall (fun f => f_deviation f = Fin 0) fs -> avgDeviation fs = Fin 0.
Proof.
  intros Hne Hall. unfold avgDeviation.
  assert (Hsum : forall acc, acc = Fin 0 ->
            fold_left (fun acc f => add acc (f_deviation f)) fs acc = Fin 0).
  { clear Hne. induction Hall as [| f fs Hf _ IH]; intros acc ->; [reflexivity |].
    cbn [fold_left]. apply IH. rewrite Hf. cbn. f_equal. lra. }
  rewrite (Hsum _ eq_refl). unfold of_Z. rewrite IZR_of_nat.
  assert (Hlen : INR (List.length fs) <> 0).
  { apply not_0_INR. destruct fs; [contradiction | discriminate]. }
  rewrite div_Fin by assumption. f_equal. unfold Rdiv. lra.
Qed.

Lemma frequencies_exact levels (tf : FreqMap.t) :
  (forall layer delays, In (layer, delays) tf ->
     (2 <= List.length delays)%nat /\
     Forall (fun x => x = expected_delay cfg layer) delays) ->
  List.length (frequencies cfg levels tf) = List.length tf /\
  Forall (fun f => f_deviation f = Fin 0) (frequencies cfg levels tf).
Proof.
  unfold frequencies. induction tf as [| [layer delays] tf IH]; intros H.
  - split; [reflexivity | constructor].
  - cbn [flat_map].
    destruct (H layer delays (or_introl eq_refl)) as [Hn Hall].
    destruct (frequency_of_exact levels layer delays Hn Hall) as (f & -> & Hf).
    destruct IH as [IHl IHz]; [intros l d Hin; apply H; now right |].
    cbn [app List.length]. split; [now rewrite IHl | now constructor].
Qed.

Lemma verdict_exact s :
  temporalFrequencies s <> [] ->
  (forall layer delays, In (layer, delays) (temporalFrequencies s) ->
     (2 <= List.length delays)%nat /\
     Forall (fun x => x = expected_delay cfg layer) delays) ->
  verdict cfg s = (Fin 0, true).
Proof.
  intros Hne H. unfold verdict.
  destruct (frequencies_exact (energyLevels s) _ H) as [Hl Hz].
  rewrite avgDeviation_zero; [| | exact Hz].
  - f_equal. apply lt_Fin_true. lra.
  - intros E. rewrite E in Hl. cbn in Hl.
    destruct (temporalFrequencies s); [contradiction | discriminate].
Qed.

End ExactSamples.

Lemma handshake_logged (cfg : Config) env s :
  In (Log L_AttemptingHandshake)
     (trace (final_state (attemptCrossDomainHandshake cfg env s))).
Proof.
  unfold attemptCrossDomainHandshake. unfold bind at 1. cbn [console_log emit modify].
  match goal with
  | |- In _ (trace (final_state (?m env ?s1))) =>
      assert (H : preserves trace_grows m)
  end.
  { unfold handshakeViaPostMessage, handshakeViaSharedWorker,
      handshakeViaBroadcastChannel, handshakeViaServiceWorker.
    preserve trace_grows_refl trace_grows_trans;
      try apply post_to_iframes_grows;
      try (intros ? ?); cbn; first [ now exists [] | eexists [_]; reflexivity ]. }
  match goal with
  | |- In _ (trace (final_state (?m env ?s1))) => destruct (H env s1) as [evs ->]
  end.
  apply in_or_app. right. now left.
Qed.

(** C2, as the code has it.  When the Map is not empty and every layer in
    it holds exactly two samples, both equal to the expected delay
    [exp(-ALPHA * layer) * 1000] of its layer, the average deviation is 0,
    the test [avgDeviation < 0.1] succeeds, and the analysis sets
    [resonanceEstablished] and enters the handshake.  Two equal samples
    are averaged without rounding in binary64 as well ([e + e] and
    [2e / 2] are exact); the bound on [ALPHA * layer] keeps the expected
    delay a positive finite number there, as it is in the model. *)
Theorem exact_repeated_samples_converge
  (cfg : Config) (a : R) (env : Env) (s : State) :
  ALPHA cfg = Fin a ->
  temporalFrequencies s <> [] ->
  (forall layer delays, In (layer, delays) (temporalFrequencies s) ->
     Rabs (a * IZR layer) <= 700 /\
     delays = [expected_delay cfg layer; expected_delay cfg layer]) ->
  let s' := final_state (analyzeResonancePattern cfg env s) in
  verdict cfg s = (Fin 0, true) /\
  resonanceEstablished s' = true /\
  In (Log (L_ResonanceEstablished (Fin 0))) (trace s') /\
  In (Log L_AttemptingHandshake) (trace s').
Proof.
  intros Ha Hne Hall. cbv zeta.
  assert (V : verdict cfg s = (Fin 0, true)).
  { apply (verdict_exact cfg a Ha s Hne).
    intros layer delays Hin. destruct (Hall layer delays Hin) as [_ ->].
    split; [cbn; lia | repeat constructor]. }
  split; [exact V |].
  destruct (analyzeResonancePattern_fields cfg env s) as (_ & _ & _ & Hr).
  split; [now rewrite Hr, V |].
  rewrite analyzeResonancePattern_converged by now rewrite V.
  rewrite V. cbn [fst]. split.
  - destruct (attemptCrossDomainHandshake_grows cfg env
                (set_resonanceEstablished true
                   (set_trace (Log (L_ResonanceEstablished (Fin 0)) :: trace s) s)))
      as [evs ->].
    apply in_or_app. right. now left.
  - apply handshake_logged.
Qed.

Lemma exact_repeated_samples_converge_witness :
  let s' := final_state (analyzeResonancePattern CTT_CONFIG quiet_env two_exact_samples) in
  verdict CTT_CONFIG two_exact_samples = (Fin 0, true) /\
  resonanceEstablished s' = true /\
  In (Log (L_ResonanceEstablished (Fin 0))) (trace s') /\
  In (Log L_AttemptingHandshake) (trace s').
Proof.
  apply (exact_repeated_samples_converge CTT_CONFIG 0.0302011 quiet_env two_exact_samples).
  - reflexivity.
  - discriminate.
  - intros layer delays Hin.
    apply in_map_iff in Hin as (d & E & Hd). inversion E; subst.
    split; [| reflexivity].
    apply in_indices in Hd.
    assert (H0 : 0 <= IZR layer) by (apply (IZR_le 0 layer); lia).
    assert (H33 : IZR layer <= 33) by (apply (IZR_le layer 33); lia).
    apply Rabs_le. split; nra.
Defined.

(** C2 fails as stated: every one of the 33 layers reports its expected
    delay, once; the analysis that the report of layer 32 starts finds no
    layer with two samples, the deviation is NaN and nothing converges. *)
Lemma one_exact_sample_per_layer_does_not_converge :
  let s := final_state
             (report_expected CTT_CONFIG (indices 33) quiet_env
                (final_state (constructor CTT_CONFIG quiet_env fresh_page))) in
  map fst (temporalFrequencies s) = indices 33 /\
  verdict CTT_CONFIG s = (NaN, false) /\
  resonanceEstablished s = false /\
  In (Log (L_ResonanceIncomplete NaN)) (trace s).
Proof.
  cbv zeta.
  assert (H : forall n k s,
             run_inv CTT_CONFIG fresh_page (Z.of_nat k) s ->
             run_inv CTT_CONFIG fresh_page (Z.of_nat (k + n))
               (final_state
                  (report_expected CTT_CONFIG (map Z.of_nat (seq k n)) quiet_env s))).
  { induction n as [| n IH]; intros k s Hinv.
    - cbn. now rewrite Nat.add_0_r.
    - unfold report_expected. cbn [seq map for_each]. unfold bind.
      pose proof (recordFrequency_inv CTT_CONFIG fresh_page k
                    (expected_delay CTT_CONFIG (Z.of_nat k)) quiet_env s Hinv) as Hstep.
      pose proof (recordFrequency_nt CTT_CONFIG (Z.of_nat k)
                    (expected_delay CTT_CONFIG (Z.of_nat k)) quiet_env s) as Hnt.
      destruct (recordFrequency CTT_CONFIG (Z.of_nat k)
                  (expected_delay CTT_CONFIG (Z.of_nat k)) quiet_env s)
        as [[] s' | e s']; [| discriminate].
      rewrite Nat.add_succ_r. apply (IH (S k) s' Hstep). }
  destruct (H 33%nat 0%nat _ (constructor_inv CTT_CONFIG quiet_env fresh_page))
    as (A & _ & C & D & E).
  change (map Z.of_nat (seq 0 33)) with (indices 33) in *.
  split; [exact C |]. split; [| split].
  - apply verdict_none, single_sample_none, D.
  - exact A.
  - apply E. cbn. lia.
Qed.

(* ================================================================== *)
(** ** The delay of a layer *)

Lemma same_timers_refl s : same_timers s s.
Proof. reflexivity. Qed.

Lemma same_timers_trans s1 s2 s3 :
  same_timers s1 s2 -> same_timers s2 s3 -> same_timers s1 s3.
Proof. unfold same_timers. congruence. Qed.

Lemma rem_is_zero_spec layer p : rem_is_zero layer p = true <-> divides p layer.
Proof.
  unfold rem_is_zero, divides.
  rewrite andb_true_iff, negb_true_iff, Z.eqb_neq, Z.eqb_eq. tauto.
Qed.

Lemma primeFactor_first (cfg : Config) (layer : Z) :
  first_dividing (PRIMES cfg) layer (primeFactor cfg layer).
Proof.
  unfold primeFactor. generalize (PRIMES cfg) as ps.
  induction ps as [| p ps IH]; cbn [find].
  - right. split; [reflexivity | constructor].
  - destruct (rem_is_zero layer p) eqn:Hp.
    + apply rem_is_zero_spec in Hp. destruct Hp as [Hne Hrem].
      destruct (Z.eqb_spec p 0) as [| _]; [contradiction |].
      left. exists [], ps. repeat split; try assumption. constructor.
    + assert (Hnot : ~ divides p layer).
      { intros H. apply rem_is_zero_spec in H. congruence. }
      destruct IH as [(before & after & E & Hd & Hb) | (E & Hall)].
      * left. exists (p :: before), after. rewrite E at 1.
        repeat split; try apply Hd. now constructor.
      * right. split; [assumption | now constructor].
Qed.

Lemma rem_2_even (layer : Z) : (Z.rem layer 2 =? 0)%Z = Z.even layer.
Proof.
  destruct (Z.even layer) eqn:He.
  - apply Z.eqb_eq. apply Z.even_spec in He as [m ->].
    rewrite Z.mul_comm. now apply Z.rem_mul.
  - apply Z.eqb_neq. intros Hr.
    apply Z.rem_divide in Hr; [| lia]. destruct Hr as [m ->].
    rewrite Z.even_mul in He. cbn in He. now rewrite orb_true_r in He.
Qed.

Section DelayFacts.

Variable cfg : Config.

Lemma totalDelay_Fin (layer : Z) (e t : R) :
  totalDelay cfg layer (Fin e) (Fin t)
  = Fin (Rmax 1 (e * IZR (primeFactor cfg layer) * 1000
                 + (if Z.even layer then sin (t * 0.001) else cos (t * 0.001)) * 50)).
Proof.
  unfold totalDelay, baseDelay, jitter. rewrite rem_2_even.
  destruct (Z.even layer); cbn [mul of_Z Math_sin Math_cos add];
    apply Math_max_Fin.
Qed.

Lemma primeFactor_nonzero (layer : Z) : primeFactor cfg layer <> 0%Z.
Proof.
  unfold primeFactor. destruct (find (rem_is_zero layer) (PRIMES cfg)) as [p |]; [| lia].
  destruct (Z.eqb_spec p 0); lia.
Qed.

Lemma sign_of_R_nonzero (x : R) : x <> 0 -> sign_of_R x <> Zero.
Proof.
  intros Hx. unfold sign_of_R.
  destruct (Rlt_dec 0 x); [discriminate |].
  destruct (Rlt_dec x 0); [discriminate |]. lra.
Qed.

Lemma sign_of_R_pos (x : R) : 0 < x -> sign_of_R x = Pos.
Proof. intros Hx. unfold sign_of_R. destruct (Rlt_dec 0 x); [reflexivity | contradiction]. Qed.

(** Whatever the energy, NaN apart, the delay is a number not below 1. *)
Lemma totalDelay_at_least_1 (layer : Z) (x : number) (t : R) :
  x <> NaN -> le (Fin 1) (totalDelay cfg layer x (Fin t)) = true.
Proof.
  intros Hx. destruct x as [| | | e]; [contradiction | | |].
  - (* +Infinity *)
    unfold totalDelay, baseDelay, jitter.
    assert (Hs : sign_of_R (IZR (primeFactor cfg layer)) <> Zero).
    { apply sign_of_R_nonzero. intros H. apply eq_IZR_R0 in H.
      now apply (primeFactor_nonzero layer). }
    assert (H1000 : sign_of_R 1000 = Pos) by (apply sign_of_R_pos; lra).
    destruct (Z.rem layer 2 =? 0)%Z; cbn [mul of_Z Math_sin Math_cos];
      destruct (sign_of_R (IZR (primeFactor cfg layer))); try contradiction;
      cbn [scale_inf mul]; rewrite H1000; cbn [scale_inf add Math_max lt le];
      try reflexivity; destruct (Rle_dec 1 1); try reflexivity; lra.
  - (* -Infinity *)
    unfold totalDelay, baseDelay, jitter.
    assert (Hs : sign_of_R (IZR (primeFactor cfg layer)) <> Zero).
    { apply sign_of_R_nonzero. intros H. apply eq_IZR_R0 in H.
      now apply (primeFactor_nonzero layer). }
    assert (H1000 : sign_of_R 1000 = Pos) by (apply sign_of_R_pos; lra).
    destruct (Z.rem layer 2 =? 0)%Z; cbn [mul of_Z Math_sin Math_cos];
      destruct (sign_of_R (IZR (primeFactor cfg layer))); try contradiction;
      cbn [scale_inf mul]; rewrite H1000; cbn [scale_inf add Math_max lt le];
      try reflexivity; destruct (Rle_dec 1 1); try reflexivity; lra.
  - rewrite totalDelay_Fin. apply le_Fin_true, Rmax_l.
Qed.

Lemma analyzeResonancePattern_timers : preserves same_timers (analyzeResonancePattern cfg).
Proof.
  unfold analyzeResonancePattern, attemptCrossDomainHandshake,
    handshakeViaPostMessage, handshakeViaSharedWorker,
    handshakeViaBroadcastChannel, handshakeViaServiceWorker.
  assert (Hi : forall fs, preserves same_timers (post_to_iframes fs)).
  { induction fs as [| f fs IH]; cbn [post_to_iframes].
    - now intros ? ?.
    - apply (pr_bind _ same_timers_trans); [| intro; exact IH].
      preserve same_timers_refl same_timers_trans; now intros ? ?. }
  preserve same_timers_refl same_timers_trans; try apply Hi; now intros ? ?.
Qed.

Lemma recordFrequency_timers layer delay :
  preserves same_timers (recordFrequency cfg layer delay).
Proof.
  intros env s. rewrite recordFrequency_eq.
  assert (H : same_timers s (recorded layer delay s)).
  { unfold recorded, same_timers. cbv zeta.
    destruct (FreqMap.has layer (temporalFrequencies s)); reflexivity. }
  eapply same_timers_trans; [exact H |].
  destruct (layer =? LAYERS cfg - 1)%Z; cbn [when];
    [apply analyzeResonancePattern_timers | reflexivity].
Qed.

Lemma after_worker_timers env layer s :
  timers (trace (after_worker env layer s)) = timers (trace s).
Proof.
  unfold after_worker.
  destruct (has_Worker env); [destruct (worker_throws env layer) |]; reflexivity.
Qed.

(** With working stimuli the method sets exactly one timer, for [totalDelay]
    at the clock reading it takes. *)
Lemma createTemporalPressure_timer layer e env s :
  stimuli_work env layer ->
  timers (trace (final_state (createTemporalPressure cfg layer e env s)))
  = totalDelay cfg layer e (Fin (Date_now env (clockReads s))) :: timers (trace s).
Proof.
  intros [Hd Hr]. rewrite createTemporalPressure_eq. cbv zeta. rewrite Hd, Hr.
  set (delay := totalDelay cfg layer e _).
  rewrite (recordFrequency_timers layer delay env (at_timer env layer e delay s)).
  unfold at_timer. cbv zeta. cbn [trace set_trace timers flat_map app].
  f_equal. change (flat_map _ ?tr) with (timers tr).
  now rewrite after_worker_timers.
Qed.

(** The method reads the clock: it uses up at least one reading. *)
Lemma createTemporalPressure_reads_clock layer e env s :
  (clockReads s < clockReads (final_state (createTemporalPressure cfg layer e env s)))%nat.
Proof.
  rewrite createTemporalPressure_eq. cbv zeta.
  destruct (dom_throws env layer); [cbn; lia |].
  assert (Hw : forall s0, clockReads (after_worker env layer s0) = clockReads s0).
  { intros s0. unfold after_worker.
    destruct (has_Worker env); [destruct (worker_throws env layer) |]; reflexivity. }
  destruct (raf_throws env layer); [cbn [final_state]; rewrite Hw; cbn; lia |].
  set (delay := totalDelay cfg layer e _).
  assert (Hrec : preserves (fun s s' => (clockReads s <= clockReads s')%nat)
                   (recordFrequency cfg layer delay)).
  { assert (Hrefl : forall s0 : State, (clockReads s0 <= clockReads s0)%nat) by (intros; lia).
    assert (Htrans : forall s1 s2 s3 : State,
               (clockReads s1 <= clockReads s2)%nat ->
               (clockReads s2 <= clockReads s3)%nat ->
               (clockReads s1 <= clockReads s3)%nat) by (intros; lia).
    assert (Hi : forall fs, preserves (fun s s' => (clockReads s <= clockReads s')%nat)
                              (post_to_iframes fs)).
    { induction fs as [| f fs IH]; cbn [post_to_iframes].
      - intros ? ?. cbn. lia.
      - apply (pr_bind _ Htrans); [| intro; exact IH].
        preserve Hrefl Htrans; intros ? ?; cbn; lia. }
    unfold recordFrequency, analyzeResonancePattern, attemptCrossDomainHandshake,
      handshakeViaPostMessage, handshakeViaSharedWorker,
      handshakeViaBroadcastChannel, handshakeViaServiceWorker.
    preserve Hrefl Htrans; try apply Hi; intros ? s0; cbn;
      try lia; destruct (FreqMap.has layer (temporalFrequencies s0)); cbn; lia. }
  specialize (Hrec env (at_timer env layer e delay s)). cbv beta in Hrec.
  eapply Nat.lt_le_trans; [| exact Hrec].
  unfold at_timer. cbv zeta. cbn [clockReads set_trace]. rewrite Hw. cbn. lia.
Qed.

End DelayFacts.

Lemma lookup_push_set (layer : Z) (x : number) (tf : FreqMap.t) :
  FreqMap.lookup layer
    (FreqMap.push layer x (if FreqMap.has layer tf then tf
                           else FreqMap.set layer [] tf))
  = Some (match FreqMap.lookup layer tf with
          | Some old => old
          | None => []
          end ++ [x]).
Proof.
  induction tf as [| [k v] tf IH].
  - cbn [FreqMap.has FreqMap.set FreqMap.push FreqMap.lookup].
    rewrite Z.eqb_refl. cbn [FreqMap.lookup]. now rewrite Z.eqb_refl.
  - cbn [FreqMap.has FreqMap.lookup].
    destruct (layer =? k)%Z eqn:Hk; cbn [orb].
    + cbn [FreqMap.push]. rewrite Hk. cbn [FreqMap.lookup]. now rewrite Hk.
    + destruct (FreqMap.has layer tf) eqn:Hh.
      * cbn [FreqMap.push]. rewrite Hk. cbn [FreqMap.lookup]. rewrite Hk.
        exact IH.
      * cbn [FreqMap.set]. rewrite Hk. cbn [FreqMap.push]. rewrite Hk.
        cbn [FreqMap.lookup]. rewrite Hk. exact IH.
Qed.

Lemma lookup_recorded (layer : Z) (x : number) (s : State) :
  FreqMap.lookup layer (temporalFrequencies (recorded layer x s))
  = Some (match FreqMap.lookup layer (temporalFrequencies s) with
          | Some old => old
          | None => []
          end ++ [x]).
Proof.
  rewrite <- lookup_push_set. unfold recorded. cbv zeta.
  destruct (FreqMap.has layer (temporalFrequencies s)); reflexivity.
Qed.

Lemma createTemporalPressure_sample (cfg : Config) layer e env s :
  stimuli_work env layer ->
  FreqMap.lookup layer
    (temporalFrequencies (final_state (createTemporalPressure cfg layer e env s)))
  = Some (match FreqMap.lookup layer (temporalFrequencies s) with
          | Some old => old
          | None => []
          end ++ [totalDelay cfg layer e (Fin (Date_now env (clockReads s)))]).
Proof.
  intros [Hd Hr]. rewrite createTemporalPressure_eq. cbv zeta. rewrite Hd, Hr.
  set (delay := totalDelay cfg layer e _).
  rewrite recordFrequency_eq.
  assert (H : temporalFrequencies
                (final_state (when (layer =? LAYERS cfg - 1)%Z
                                (analyzeResonancePattern cfg) env
                                (recorded layer delay (at_timer env layer e delay s))))
              = temporalFrequencies (recorded layer delay (at_timer env layer e delay s))).
  { destruct (layer =? LAYERS cfg - 1)%Z; cbn [when]; [| reflexivity].
    now destruct (analyzeResonancePattern_fields cfg env
                    (recorded layer delay (at_timer env layer e delay s)))
      as (_ & _ & E & _). }
  rewrite H, lookup_recorded.
  destruct (at_timer_calm env layer e delay s) as ((_ & _ & E & _) & _).
  now rewrite E.
Qed.

Lemma totalDelay_formula (cfg : Config) (layer : Z) (x : number) (t : R) :
  totalDelay cfg layer x (Fin t)
  = Math_max (Fin 1)
      (add (mul (mul x (of_Z (primeFactor cfg layer))) (Fin 1000))
           (Fin ((if Z.even layer then sin (t * 0.001) else cos (t * 0.001)) * 50))).
Proof.
  unfold totalDelay, baseDelay, jitter. rewrite rem_2_even.
  destruct (Z.even layer); reflexivity.
Qed.

Lemma totalDelay_NaN (cfg : Config) (layer : Z) (t : number) :
  totalDelay cfg layer NaN t = NaN.
Proof. reflexivity. Qed.

(** C8, as the code has it.  For every layer index, every energy [x] (a
    finite number, an infinity or NaN) and every clock reading [t], the
    delay is [max(1, x * primeFactor * 1000 + jitter)] in the arithmetic
    of JavaScript, where [primeFactor] is the first element of [PRIMES]
    dividing the layer (1 if none does) and [jitter] is
    [sin(t * 0.001) * 50] for an even layer and [cos(t * 0.001) * 50] for
    an odd one.  For a finite energy [e], as long as the product
    [e * primeFactor * 1000] does not overflow, this is the number
    [max(1, e * primeFactor * 1000 + jitter)], which is at least 1; for
    every energy but NaN the delay is at least 1; for the energy NaN it
    is NaN, which is not.  With working stimuli the delay is that of the
    one timer the method sets and the sample it records for the layer,
    whatever the energy. *)
Theorem delay_formula (cfg : Config) (env : Env) (s : State) (layer : Z) (e : R) :
  let t := Date_now env (clockReads s) in
  let pf := primeFactor cfg layer in
  let phase := if Z.even layer then sin (t * 0.001) else cos (t * 0.001) in
  let d := Rmax 1 (e * IZR pf * 1000 + phase * 50) in
  first_dividing (PRIMES cfg) layer pf /\
  (forall x, totalDelay cfg layer x (Fin t)
             = Math_max (Fin 1)
                 (add (mul (mul x (of_Z pf)) (Fin 1000)) (Fin (phase * 50)))) /\
  (Rabs (e * IZR pf * 1000) <= 1e300 ->
     totalDelay cfg layer (Fin e) (Fin t) = Fin d /\ 1 <= d) /\
  (forall x, x <> NaN -> le (Fin 1) (totalDelay cfg layer x (Fin t)) = true) /\
  totalDelay cfg layer NaN (Fin t) = NaN /\
  le (Fin 1) NaN = false /\
  (forall x, stimuli_work env layer ->
     let s' := final_state (createTemporalPressure cfg layer x env s) in
     timers (trace s') = totalDelay cfg layer x (Fin t) :: timers (trace s) /\
     FreqMap.lookup layer (temporalFrequencies s')
     = Some (match FreqMap.lookup layer (temporalFrequencies s) with
             | Some old => old
             | None => []
             end ++ [totalDelay cfg layer x (Fin t)])).
Proof.
  cbv zeta. split; [apply primeFactor_first |].
  split; [intros x; apply totalDelay_formula |].
  split; [intros _; split; [apply totalDelay_Fin | apply Rmax_l] |].
  split; [intros x Hx; now apply totalDelay_at_least_1 |].
  split; [reflexivity |]. split; [reflexivity |].
  intros x Hw. split.
  - now apply createTemporalPressure_timer.
  - now apply createTemporalPressure_sample.
Qed.

(** C8 fails as stated: the result is not always at least 1.  For the
    energy NaN the delay is NaN, and the cascade passes this energy: with
    the decay constant [+Infinity] the level of layer 0 is NaN, and the
    timer of layer 0 is set with the delay NaN. *)
Lemma nan_energy_gives_nan_delay :
  let s0 := final_state (constructor infinite_alpha quiet_env fresh_page) in
  let s1 := final_state (createTemporalPressure infinite_alpha 0 NaN quiet_env s0) in
  index (energyLevels s0) 0 = Some NaN /\
  totalDelay infinite_alpha 0 NaN (Fin (Date_now quiet_env (clockReads s0))) = NaN /\
  le (Fin 1) NaN = false /\
  timers (trace s1) = [NaN] /\
  FreqMap.lookup 0 (temporalFrequencies s1) = Some [NaN].
Proof.
  cbv zeta.
  assert (W : stimuli_work quiet_env 0) by (split; reflexivity).
  split; [now rewrite infinite_alpha_levels |].
  split; [reflexivity |]. split; [reflexivity |]. split.
  - rewrite (createTemporalPressure_timer infinite_alpha 0 NaN quiet_env _ W).
    reflexivity.
  - rewrite (createTemporalPressure_sample infinite_alpha 0 NaN quiet_env _ W).
    reflexivity.
Qed.

(** C7, as the code has it.  [createTemporalPressure] reads the clock
    itself.  Two calls with the same layer and energy, in whatever states
    and environments, set a timer for the same delay when they read the
    same clock value. *)
Theorem delay_determined_by_clock_reading
  (cfg : Config) (layer : Z) (e : number) (env1 env2 : Env) (s1 s2 : State) :
  let o1 := createTemporalPressure cfg layer e env1 s1 in
  let o2 := createTemporalPressure cfg layer e env2 s2 in
  (clockReads s1 < clockReads (final_state o1))%nat /\
  (stimuli_work env1 layer -> stimuli_work env2 layer ->
   Date_now env1 (clockReads s1) = Date_now env2 (clockReads s2) ->
   exists d, timers (trace (final_state o1)) = d :: timers (trace s1) /\
             timers (trace (final_state o2)) = d :: timers (trace s2)).
Proof.
  cbv zeta. split; [apply createTemporalPressure_reads_clock |].
  intros W1 W2 Hclock.
  exists (totalDelay cfg layer e (Fin (Date_now env1 (clockReads s1)))).
  split; [now apply createTemporalPressure_timer |].
  rewrite Hclock. now apply createTemporalPressure_timer.
Qed.

(** C7 fails as stated: the same call, layer 0 with energy 1 on the same
    new vortex, sets a timer of 2000 ms when the clock reads 0 and a
    longer one when the clock reads 1000. *)
Lemma same_arguments_different_delay :
  let s0 := final_state (constructor CTT_CONFIG quiet_env fresh_page) in
  exists d1 d2,
    timers (trace (final_state (createTemporalPressure CTT_CONFIG 0 (Fin 1) quiet_env s0)))
    = [Fin d1] /\
    timers (trace (final_state (createTemporalPressure CTT_CONFIG 0 (Fin 1) one_second_later s0)))
    = [Fin d2] /\
    d1 = 2000 /\ 2000 < d2.
Proof.
  cbv zeta.
  set (s0 := final_state (constructor CTT_CONFIG quiet_env fresh_page)).
  assert (W1 : stimuli_work quiet_env 0) by (split; reflexivity).
  assert (W2 : stimuli_work one_second_later 0) by (split; reflexivity).
  rewrite (createTemporalPressure_timer CTT_CONFIG 0 (Fin 1) quiet_env s0 W1).
  rewrite (createTemporalPressure_timer CTT_CONFIG 0 (Fin 1) one_second_later s0 W2).
  rewrite !totalDelay_Fin.
  change (primeFactor CTT_CONFIG 0) with 2%Z.
  change (Z.even 0) with true. cbv iota.
  change (Date_now quiet_env (clockReads s0)) with 0.
  change (Date_now one_second_later (clockReads s0)) with 1000.
  change (timers (trace s0)) with (@nil number).
  do 2 eexists. split; [reflexivity |]. split; [reflexivity |].
  replace (0 * 0.001) with 0 by lra.
  replace (1000 * 0.001) with 1 by lra.
  rewrite sin_0.
  assert (Hs : 0 < sin 1).
  { apply sin_gt_0; [lra |]. pose proof PI2_1. lra. }
  split.
  - unfold Rmax. destruct (Rle_dec 1 (1 * 2 * 1000 + 0 * 50)); lra.
  - unfold Rmax. destruct (Rle_dec 1 (1 * 2 * 1000 + sin 1 * 50)); lra.
Qed.

(* ================================================================== *)
(** ** Further properties: the sample Map *)

Lemma lookup_push_set_other (layer k : Z) (x : number) (tf : FreqMap.t) :
  k <> layer ->
  FreqMap.lookup k
    (FreqMap.push layer x (if FreqMap.has layer tf then tf
                           else FreqMap.set layer [] tf))
  = FreqMap.lookup k tf.
Proof.
  intros Hk. induction tf as [| [k' v] tf IH].
  - cbn [FreqMap.has FreqMap.set FreqMap.push FreqMap.lookup].
    rewrite Z.eqb_refl. cbn [FreqMap.lookup].
    destruct (Z.eqb_spec k layer); [contradiction | reflexivity].
  - cbn [FreqMap.has FreqMap.lookup].
    destruct (layer =? k')%Z eqn:Hl; cbn [orb].
    + cbn [FreqMap.push]. rewrite Hl. cbn [FreqMap.lookup].
      apply Z.eqb_eq in Hl. subst k'.
      destruct (Z.eqb_spec k layer); [contradiction | reflexivity].
    + destruct (FreqMap.has layer tf) eqn:Hh.
      * cbn [FreqMap.push]. rewrite Hl. cbn [FreqMap.lookup].
        destruct (k =? k')%Z; [reflexivity | exact IH].
      * cbn [FreqMap.set]. rewrite Hl. cbn [FreqMap.push]. rewrite Hl.
        cbn [FreqMap.lookup]. destruct (k =? k')%Z; [reflexivity | exact IH].
Qed.

Lemma keys_push (layer : Z) (x : number) (tf : FreqMap.t) :
  map fst (FreqMap.push layer x tf) = map fst tf.
Proof.
  induction tf as [| [k v] tf IH]; [reflexivity |].
  cbn [FreqMap.push]. destruct (layer =? k)%Z; cbn [map fst]; [reflexivity |].
  now rewrite IH.
Qed.

Lemma keys_set_fresh (layer : Z) (v : list number) (tf : FreqMap.t) :
  FreqMap.has layer tf = false ->
  map fst (FreqMap.set layer v tf) = map fst tf ++ [layer].
Proof.
  induction tf as [| [k w] tf IH]; [reflexivity |].
  cbn [FreqMap.has FreqMap.set]. intros H. apply orb_false_iff in H as [Hk Hh].
  rewrite Hk. cbn [map fst app]. now rewrite IH.
Qed.

Lemma recordFrequency_samples (cfg : Config) layer delay env s :
  temporalFrequencies (final_state (recordFrequency cfg layer delay env s))
  = temporalFrequencies (recorded layer delay s).
Proof.
  rewrite recordFrequency_eq.
  destruct (layer =? LAYERS cfg - 1)%Z; cbn [when]; [| reflexivity].
  now destruct (analyzeResonancePattern_fields cfg env (recorded layer delay s))
    as (_ & _ & E & _).
Qed.

(** X1.  [recordFrequency] only appends: the new sample goes to the end of
    the samples of its layer, the samples of every other layer stay as they
    are, the layers keep their order in the Map and a layer seen for the
    first time goes last.  This is the Map the call leaves, also when it
    goes on to the analysis of the last layer. *)
Theorem recordFrequency_appends
  (cfg : Config) (env : Env) (s : State) (layer : Z) (delay : number) :
  let o := recordFrequency cfg layer delay env s in
  let tf := temporalFrequencies s in
  let tf' := temporalFrequencies (final_state o) in
  FreqMap.lookup layer tf'
  = Some (match FreqMap.lookup layer tf with
          | Some old => old
          | None => []
          end ++ [delay]) /\
  (forall k, k <> layer -> FreqMap.lookup k tf' = FreqMap.lookup k tf) /\
  map fst tf' = map fst tf ++ (if FreqMap.has layer tf then [] else [layer]).
Proof.
  cbv zeta. rewrite recordFrequency_samples.
  split; [apply lookup_recorded |]. split.
  - intros k Hk.
    rewrite <- (lookup_push_set_other layer k delay (temporalFrequencies s) Hk).
    unfold recorded. cbv zeta.
    destruct (FreqMap.has layer (temporalFrequencies s)); reflexivity.
  - unfold recorded. cbv zeta.
    destruct (FreqMap.has layer (temporalFrequencies s)) eqn:Hh;
      cbn [temporalFrequencies set_temporalFrequencies]; rewrite keys_push.
    + now rewrite app_nil_r.
    + now apply keys_set_fresh.
Qed.

(* ================================================================== *)
(** ** Further properties: what the cascade and the listeners leave alone *)

Lemma no_bridge_built_refl s : no_bridge_built s s.
Proof. repeat split. auto. Qed.

Lemma no_bridge_built_trans s1 s2 s3 :
  no_bridge_built s1 s2 -> no_bridge_built s2 s3 -> no_bridge_built s1 s3.
Proof.
  intros (A1 & A2 & A3 & A4) (B1 & B2 & B3 & B4).
  split; [congruence |]. split; [congruence |]. split; [congruence | auto].
Qed.

Ltac prim_no_bridge :=
  try (intros ? ?); cbn;
  (split; [reflexivity |]); (split; [reflexivity |]); (split; [reflexivity |]);
  auto.

Ltac no_bridge_steps :=
  preserve no_bridge_built_refl no_bridge_built_trans; prim_no_bridge.

Section CascadeLeavesBridges.

Variable cfg : Config.

Lemma post_to_iframes_no_bridge fs : preserves no_bridge_built (post_to_iframes fs).
Proof.
  induction fs as [| f fs IH]; cbn [post_to_iframes].
  - no_bridge_steps.
  - apply (pr_bind _ no_bridge_built_trans); [| intro; exact IH].
    no_bridge_steps.
Qed.

Lemma analyzeResonancePattern_no_bridge :
  preserves no_bridge_built (analyzeResonancePattern cfg).
Proof.
  unfold analyzeResonancePattern, attemptCrossDomainHandshake,
    handshakeViaPostMessage, handshakeViaSharedWorker,
    handshakeViaBroadcastChannel, handshakeViaServiceWorker.
  preserve no_bridge_built_refl no_bridge_built_trans;
    try apply post_to_iframes_no_bridge; prim_no_bridge.
Qed.

Lemma recordFrequency_no_bridge layer delay :
  preserves no_bridge_built (recordFrequency cfg layer delay).
Proof.
  intros env s. rewrite recordFrequency_eq.
  assert (H : no_bridge_built s (recorded layer delay s)).
  { unfold recorded. cbv zeta.
    destruct (FreqMap.has layer (temporalFrequencies s)); prim_no_bridge. }
  eapply no_bridge_built_trans; [exact H |].
  destruct (layer =? LAYERS cfg - 1)%Z; cbn [when];
    [apply analyzeResonancePattern_no_bridge | apply no_bridge_built_refl].
Qed.

Lemma createTemporalPressure_no_bridge layer e :
  preserves no_bridge_built (createTemporalPressure cfg layer e).
Proof.
  unfold createTemporalPressure, applyDOMPressure, applyWorkerPressure,
    applyRAFPressure.
  apply (pr_bind _ no_bridge_built_trans); [prim_no_bridge | intros t].
  cbv zeta.
  pose proof (recordFrequency_no_bridge layer (totalDelay cfg layer e t)) as Hrec.
  set (rf := recordFrequency cfg layer (totalDelay cfg layer e t)) in *.
  clearbody rf.
  preserve no_bridge_built_refl no_bridge_built_trans;
    try exact Hrec; prim_no_bridge.
Qed.

Lemma layer_step_no_bridge d : preserves no_bridge_built (layer_step cfg d).
Proof.
  unfold layer_step.
  apply (pr_bind _ no_bridge_built_trans); [apply (pr_get _ no_bridge_built_refl) |].
  intros s0. cbv zeta.
  destruct (index (energyLevels s0) d) as [x |].
  - pose proof (createTemporalPressure_no_bridge d x) as Hc.
    set (ctp := createTemporalPressure cfg d x) in *. clearbody ctp.
    preserve no_bridge_built_refl no_bridge_built_trans;
      try exact Hc; prim_no_bridge.
  - pose proof (createTemporalPressure_no_bridge d NaN) as Hc.
    set (ctp := createTemporalPressure cfg d NaN) in *. clearbody ctp.
    preserve no_bridge_built_refl no_bridge_built_trans;
      try exact Hc; prim_no_bridge.
Qed.

Lemma for_each_no_bridge ds :
  preserves no_bridge_built (for_each ds (layer_step cfg)).
Proof.
  induction ds as [| d ds IH]; cbn [for_each].
  - apply (pr_ret _ no_bridge_built_refl).
  - apply (pr_bind _ no_bridge_built_trans); [apply layer_step_no_bridge |].
    intro. exact IH.
Qed.

Lemma triggerCrossDomainVortex_no_bridge :
  preserves no_bridge_built (triggerCrossDomainVortex cfg).
Proof.
  unfold triggerCrossDomainVortex, calculateEnergyCascade, retuneParameters.
  pose proof (for_each_no_bridge (indices (LAYERS cfg))) as Hloop.
  set (loop := for_each (indices (LAYERS cfg)) (layer_step cfg)) in *.
  clearbody loop.
  preserve no_bridge_built_refl no_bridge_built_trans;
    try exact Hloop; prim_no_bridge.
Qed.

End CascadeLeavesBridges.

(** X2.  A run of the cascade, from any state and in any environment,
    whether it ends or stops on an error, builds no bridge: [activeBridge]
    and the stored bridge are the ones it found, no bridge was established
    on the way, and a flag [resonanceEstablished] that was set stays set. *)
Theorem cascade_builds_no_bridge (cfg : Config) (env : Env) (s : State) :
  let s' := final_state (triggerCrossDomainVortex cfg env s) in
  activeBridge s' = activeBridge s /\
  storedBridge s' = storedBridge s /\
  bridges_created (trace s') = bridges_created (trace s) /\
  (resonanceEstablished s = true -> resonanceEstablished s' = true).
Proof. cbv zeta. apply triggerCrossDomainVortex_no_bridge. Qed.

Section ListenerFacts.

Variable cfg : Config.

Ltac prim_same_analyzer :=
  try (intros ? ?); cbn; repeat split.

Lemma handshake_listener_same data :
  preserves same_analyzer (handshake_listener cfg data)
  /\ never_throws (handshake_listener cfg data)
  /\ preserves same_listeners (handshake_listener cfg data)
  /\ preserves same_timers (handshake_listener cfg data).
Proof.
  unfold handshake_listener, establishTemporalBridge, initiateCrossDomainExchange.
  split; [| split; [| split]].
  - preserve same_analyzer_refl same_analyzer_trans; prim_same_analyzer.
  - nothrow.
  - preserve same_listeners_refl same_listeners_trans; now intros ? ?.
  - preserve same_timers_refl same_timers_trans; now intros ? ?.
Qed.

Lemma times_listener_same data n :
  preserves same_analyzer (times n (handshake_listener cfg data))
  /\ never_throws (times n (handshake_listener cfg data))
  /\ preserves same_listeners (times n (handshake_listener cfg data))
  /\ preserves same_timers (times n (handshake_listener cfg data)).
Proof.
  destruct (handshake_listener_same data) as (A & B & C & D).
  induction n as [| n (IA & IB & IC & ID)]; cbn [times].
  - split; [apply (pr_ret _ same_analyzer_refl) |].
    split; [apply nt_ret |].
    split; [apply (pr_ret _ same_listeners_refl) | apply (pr_ret _ same_timers_refl)].
  - split; [apply (pr_bind _ same_analyzer_trans); auto |].
    split; [apply nt_bind; auto |].
    split; [apply (pr_bind _ same_listeners_trans); auto
           | apply (pr_bind _ same_timers_trans); auto].
Qed.

End ListenerFacts.

(** X3.  Delivering a message, whatever it holds and whether or not
    storage works, returns normally and touches neither the analyzer (the
    samples, the energy levels, the total and the flag), nor the set of
    listeners, nor any timer. *)
Theorem deliver_leaves_analyzer
  (cfg : Config) (env : Env) (s : State) (data : MessageData) :
  let o := deliver cfg data env s in
  let s' := final_state o in
  completed o = true /\
  temporalFrequencies s' = temporalFrequencies s /\
  energyLevels s' = energyLevels s /\
  totalEnergy s' = totalEnergy s /\
  resonanceEstablished s' = resonanceEstablished s /\
  messageListeners s' = messageListeners s /\
  timers (trace s') = timers (trace s).
Proof.
  cbv zeta. unfold deliver. unfold bind at 1. unfold get at 1.
  destruct (times_listener_same cfg data (messageListeners s)) as (A & B & C & D).
  specialize (A env s). specialize (B env s). specialize (C env s). specialize (D env s).
  destruct A as (A1 & A2 & A3 & A4).
  repeat split; assumption.
Qed.

(** X4.  A message whose type is not [CTT_HANDSHAKE_RESPONSE] is ignored by
    every handshake listener: delivering it changes nothing at all.  This
    holds in particular of the [CTT_EXCHANGE] message the vortex posts to
    its own window, which therefore starts no further exchange. *)
Theorem other_messages_are_ignored
  (cfg : Config) (env : Env) (s : State) (data : MessageData) :
  msg_type data <> "CTT_HANDSHAKE_RESPONSE"%string ->
  deliver cfg data env s = Ok tt s.
Proof.
  intros Hty. unfold deliver, bind, get.
  assert (Hl : forall s0, handshake_listener cfg data env s0 = Ok tt s0).
  { intros s0. unfold handshake_listener.
    destruct (String.eqb_spec (msg_type data) "CTT_HANDSHAKE_RESPONSE");
      [contradiction | reflexivity]. }
  induction (messageListeners s) as [| n IH]; [reflexivity |].
  cbn [times]. unfold bind. now rewrite Hl.
Qed.

Lemma other_messages_are_ignored_witness :
  deliver CTT_CONFIG (exchange_message (Some "A"%string)) quiet_env listening
  = Ok tt listening.
Proof.
  apply (other_messages_are_ignored CTT_CONFIG quiet_env listening
           (exchange_message (Some "A"%string))).
  cbn. discriminate.
Defined.

(** X5.  [establishTemporalBridge] returns normally whether or not storage
    works.  The bridge it builds carries the id and the energy of the
    response and the clock reading taken; it becomes [activeBridge], and
    the exchange message with the full energy sequence and the prime set is
    posted, in both cases.  Only the stored copy depends on storage: it is
    the new bridge when [setItem] works and the old content when it
    throws. *)
Theorem storage_failure_keeps_bridge
  (cfg : Config) (env : Env) (s : State) (data : MessageData) :
  let o := establishTemporalBridge cfg data env s in
  let s' := final_state o in
  let b := {| id := msg_bridgeId data;
              energy := msg_energy data;
              established := Fin (Date_now env (clockReads s)) |} in
  completed o = true /\
  activeBridge s' = Some b /\
  In (WindowExchange (msg_bridgeId data) (LAYERS cfg) (energyLevels s) (PRIMES cfg))
     (trace s') /\
  storedBridge s' = (if storage_throws env then storedBridge s else Some b) /\
  clockReads s' = S (clockReads s).
Proof.
  cbv zeta.
  unfold establishTemporalBridge, initiateCrossDomainExchange,
    bind, try_catch, console_log, emit, modify, now, get, ask, throw, ret.
  destruct (storage_throws env); cbn.
  - split; [reflexivity |]. split; [reflexivity |]. split; [now left |].
    split; reflexivity.
  - split; [reflexivity |]. split; [reflexivity |]. split; [right; now left |].
    split; reflexivity.
Qed.

(* ================================================================== *)
(** ** Further properties: the four channels of the handshake *)

Section ChannelFacts.

Variable cfg : Config.

(** What the loop over the iframes leaves behind: one handshake post per
    iframe that accepts it, one clock reading per iframe, nothing else. *)
Lemma post_to_iframes_effect (fs : list bool) env s :
  exists s',
    post_to_iframes fs env s = Ok tt s' /\
    count is_iframe_handshake (trace s')
    = (count is_iframe_handshake (trace s) + List.length (filter negb fs))%nat /\
    (forall p, (forall t ts, p (IframeHandshake t ts) = false) ->
               count p (trace s') = count p (trace s)) /\
    clockReads s' = (clockReads s + List.length fs)%nat /\
    messageListeners s' = messageListeners s /\
    totalEnergy s' = totalEnergy s /\
    resonanceEstablished s' = resonanceEstablished s.
Proof.
  revert s. induction fs as [| f fs IH]; intros s.
  - exists s. split; [reflexivity |]. cbn [filter List.length].
    rewrite !Nat.add_0_r. repeat split.
  - cbn [post_to_iframes]. unfold bind at 1.
    unfold try_catch, bind, get, now, throw, emit, modify, ret.
    destruct f; cbn [negb filter List.length].
    + destruct (IH (set_clockReads (S (clockReads s)) s))
        as (s' & -> & A & B & C & D & E & F).
      exists s'. split; [reflexivity |]. cbn in A, C, D, E, F.
      split; [exact A |]. split; [exact B |]. split; [lia |].
      repeat split; assumption.
    + destruct (IH (set_trace
                      (IframeHandshake (totalEnergy s) (Fin (Date_now env (clockReads s)))
                       :: trace (set_clockReads (S (clockReads s)) s))
                      (set_clockReads (S (clockReads s)) s)))
        as (s' & -> & A & B & C & D & E & F).
      exists s'. split; [reflexivity |]. cbn in A, C, D, E, F.
      split; [unfold count in *; cbn in A; lia |]. split.
      * intros p Hp. rewrite (B p Hp). unfold count. cbn [trace set_trace filter].
        now rewrite Hp.
      * split; [lia |]. repeat split; assumption.
Qed.

End ChannelFacts.

(** X6.  The four channels of the handshake attempt do not depend on one
    another: a channel that is missing, or whose guarded call throws, does
    not keep the others from being tried.  Each iframe whose [postMessage]
    does not throw gets one handshake message; the shared worker is
    registered exactly when [SharedWorker] exists and its creation does
    not throw; the broadcast is sent exactly when [BroadcastChannel]
    exists and does not throw; the service worker is synchronised exactly
    when it exists and its [ready] promise resolves; and one message
    listener is added in every case.  (The host calls the code does not
    guard are taken to succeed, see [Env].) *)
Theorem handshake_channels_are_independent (cfg : Config) (env : Env) (s : State) :
  let o := attemptCrossDomainHandshake cfg env s in
  let s' := final_state o in
  let one (b : bool) := if b then 1%nat else 0%nat in
  count is_iframe_handshake (trace s')
  = (count is_iframe_handshake (trace s) + List.length (filter negb (iframes env)))%nat /\
  count is_sharedWorker_register (trace s')
  = (count is_sharedWorker_register (trace s)
     + one (has_SharedWorker env && negb (sharedWorker_throws env)))%nat /\
  count is_broadcast (trace s')
  = (count is_broadcast (trace s)
     + one (has_BroadcastChannel env && negb (broadcast_throws env)))%nat /\
  count is_serviceWorker_sync (trace s')
  = (count is_serviceWorker_sync (trace s)
     + one (has_serviceWorker env && serviceWorker_ready env))%nat /\
  messageListeners s' = S (messageListeners s).
Proof.
  cbv zeta.
  destruct (post_to_iframes_effect (iframes env) env
              (set_trace (Log L_AttemptingHandshake :: trace s) s))
    as (s1 & E & A & B & _ & D & _).
  pose proof (B is_sharedWorker_register (fun _ _ => eq_refl)) as B1.
  pose proof (B is_broadcast (fun _ _ => eq_refl)) as B2.
  pose proof (B is_serviceWorker_sync (fun _ _ => eq_refl)) as B3.
  clear B. unfold count in *. cbn in A, B1, B2, B3, D.
  unfold attemptCrossDomainHandshake, handshakeViaPostMessage,
    handshakeViaSharedWorker, handshakeViaBroadcastChannel,
    handshakeViaServiceWorker,
    bind, when, try_catch, console_log, emit, modify, now, get, ask, throw, ret.
  rewrite E.
  destruct (has_SharedWorker env), (sharedWorker_throws env),
    (has_BroadcastChannel env), (broadcast_throws env),
    (has_serviceWorker env), (serviceWorker_ready env),
    (serviceWorker_pending env);
    cbn; rewrite ?A, ?B1, ?B2, ?B3, ?D;
    repeat split; lia.
Qed.

(* ================================================================== *)
(** ** Further properties: the total energy *)

Section EnergySum.

Variable a : R.
Hypothesis a_pos : 0 < a.

Lemma ratio_below_1 : exp (- a) < 1.
Proof. rewrite <- exp_0. apply exp_increasing. lra. Qed.

Lemma geometric_0 : geometric a 0 = 0.
Proof.
  unfold geometric. cbn [INR]. rewrite Rmult_0_r, exp_0.
  unfold Rdiv. lra.
Qed.

Lemma geometric_S (n : nat) :
  geometric a (S n) = geometric a n + exp (- a * INR n).
Proof.
  unfold geometric. rewrite S_INR.
  replace (- a * (INR n + 1)) with (- a * INR n + - a) by ring.
  rewrite exp_plus. pose proof ratio_below_1. field. lra.
Qed.

Lemma geometric_bounds (n : nat) : 0 <= geometric a n <= INR n.
Proof.
  induction n as [| n IH].
  - rewrite geometric_0. cbn [INR]. lra.
  - rewrite geometric_S, S_INR.
    pose proof (exp_pos (- a * INR n)).
    assert (exp (- a * INR n) <= 1).
    { apply exp_nonpos_le_1. pose proof (pos_INR n). nra. }
    lra.
Qed.

Lemma geometric_mono (m n : nat) : (m <= n)%nat -> geometric a m <= geometric a n.
Proof.
  induction 1 as [| n _ IH]; [lra |].
  rewrite geometric_S. pose proof (exp_pos (- a * INR n)). lra.
Qed.

Lemma geometric_ge_1 (n : nat) : (1 <= n)%nat -> 1 <= geometric a n.
Proof.
  intros Hn. apply Rle_trans with (geometric a 1); [| now apply geometric_mono].
  rewrite geometric_S, geometric_0. cbn [INR]. rewrite Rmult_0_r, exp_0. lra.
Qed.

Lemma sum_decay (cfg : Config) (n : nat) :
  ALPHA cfg = Fin a ->
  sum (map (decay cfg) (map Z.of_nat (seq 0 n))) = Fin (geometric a n).
Proof.
  intros Ha. unfold sum. induction n as [| n IH].
  - cbn. now rewrite geometric_0.
  - rewrite seq_S, !map_app, fold_left_app, IH. cbn [map fold_left Nat.add].
    rewrite (decay_Fin cfg a) by assumption. cbn [add].
    rewrite geometric_S. now rewrite IZR_of_nat.
Qed.

End EnergySum.

Lemma firstn_seq_min (k start len : nat) :
  firstn k (seq start len) = seq start (Nat.min k len).
Proof.
  revert start len. induction k as [| k IH]; intros start len; [reflexivity |].
  destruct len as [| len]; [reflexivity |].
  cbn [seq firstn Nat.min]. now rewrite IH.
Qed.

(** X7.  For a finite [ALPHA > 0] and at least one layer, the
    constructor's [totalEnergy] is a finite number between 1 and the
    number of layers.  The cumulative energy the progress log prints at
    layer [d] is a number between 1 and [d + 1] that does not exceed the
    total, and the line of the last layer shows the total itself. *)
Theorem total_energy_bounds
  (cfg : Config) (a : R) (env : Env) (page : State) :
  ALPHA cfg = Fin a -> 0 < a -> (0 < LAYERS cfg)%Z ->
  let s0 := final_state (constructor cfg env page) in
  exists T,
    totalEnergy s0 = Fin T /\
    1 <= T <= IZR (LAYERS cfg) /\
    (forall d, (0 <= d < LAYERS cfg)%Z ->
       exists C, cumulative (energyLevels s0) d = Fin C /\
                 1 <= C <= IZR (d + 1) /\ C <= T) /\
    cumulative (energyLevels s0) (LAYERS cfg - 1) = totalEnergy s0.
Proof.
  intros Ha Hpos HL. cbv zeta.
  assert (Htot : totalEnergy (final_state (constructor cfg env page))
                 = Fin (geometric a (Z.to_nat (LAYERS cfg)))).
  { cbn [constructor modify final_state totalEnergy]. unfold indices.
    now apply sum_decay. }
  assert (Hcum : forall d, (0 <= d < LAYERS cfg)%Z ->
            cumulative (energyLevels (final_state (constructor cfg env page))) d
            = Fin (geometric a (Z.to_nat (d + 1)))).
  { intros d Hd. rewrite constructor_energyLevels. unfold cumulative, indices.
    rewrite !firstn_map, firstn_seq_min.
    replace (Nat.min (Z.to_nat (d + 1)) (Z.to_nat (LAYERS cfg)))
      with (Z.to_nat (d + 1)) by lia.
    now apply sum_decay. }
  assert (Hnat : forall z, (0 <= z)%Z -> INR (Z.to_nat z) = IZR z).
  { intros z Hz. rewrite INR_IZR_INZ. now rewrite Z2Nat.id. }
  exists (geometric a (Z.to_nat (LAYERS cfg))).
  split; [exact Htot |]. split.
  { pose proof (geometric_bounds a Hpos (Z.to_nat (LAYERS cfg))) as [_ Hhi].
    pose proof (geometric_ge_1 a Hpos (Z.to_nat (LAYERS cfg)) ltac:(lia)).
    rewrite Hnat in Hhi by lia. lra. }
  split.
  { intros d Hd. exists (geometric a (Z.to_nat (d + 1))).
    split; [now apply Hcum |].
    pose proof (geometric_bounds a Hpos (Z.to_nat (d + 1))) as [_ Hhi].
    pose proof (geometric_ge_1 a Hpos (Z.to_nat (d + 1)) ltac:(lia)).
    pose proof (geometric_mono a Hpos (Z.to_nat (d + 1)) (Z.to_nat (LAYERS cfg))
                  ltac:(lia)).
    rewrite Hnat in Hhi by lia. lra. }
  rewrite Hcum by lia. rewrite Htot. do 2 f_equal. lia.
Qed.

Lemma total_energy_bounds_witness :
  let s0 := final_state (constructor CTT_CONFIG quiet_env fresh_page) in
  exists T,
    totalEnergy s0 = Fin T /\
    1 <= T <= IZR (LAYERS CTT_CONFIG) /\
    (forall d, (0 <= d < LAYERS CTT_CONFIG)%Z ->
       exists C, cumulative (energyLevels s0) d = Fin C /\
                 1 <= C <= IZR (d + 1) /\ C <= T) /\
    cumulative (energyLevels s0) (LAYERS CTT_CONFIG - 1) = totalEnergy s0.
Proof.
  apply (total_energy_bounds CTT_CONFIG 0.0302011 quiet_env fresh_page).
  - reflexivity.
  - lra.
  - reflexivity.
Defined.

(* ================================================================== *)
(** ** Further properties: the retune fallback *)

(** X8.  For a finite [ALPHA > 0] (not so large that 1.05 times it
    overflows) and a random number in [0, 1), [retuneParameters] logs an
    adjusted value between 0.95 and 1.05 times [ALPHA], the ends included,
    and does nothing else: it uses up one random number, changes no field
    of the vortex and starts no new run. *)
Theorem retune_stays_within_five_percent
  (cfg : Config) (a : R) (env : Env) (s : State) :
  ALPHA cfg = Fin a -> 0 < a <= 1e300 ->
  0 <= Math_random env (randomReads s) < 1 ->
  exists x,
    retuneParameters cfg env s
    = Ok tt (set_trace (Log (L_Retuning (Fin x)) :: trace s)
               (set_randomReads (S (randomReads s)) s)) /\
    0.95 * a <= x <= 1.05 * a.
Proof.
  intros Ha Hpos Hr.
  exists (a * (0.95 + Math_random env (randomReads s) * 0.1)). split.
  - unfold retuneParameters, bind, random, console_log, emit, modify.
    rewrite Ha. reflexivity.
  - nra.
Qed.

Lemma retune_stays_within_five_percent_witness :
  exists x,
    retuneParameters CTT_CONFIG quiet_env fresh_page
    = Ok tt (set_trace (Log (L_Retuning (Fin x)) :: trace fresh_page)
               (set_randomReads (S (randomReads fresh_page)) fresh_page)) /\
    0.95 * 0.0302011 <= x <= 1.05 * 0.0302011.
Proof.
  apply (retune_stays_within_five_percent CTT_CONFIG 0.0302011 quiet_env fresh_page).
  - reflexivity.
  - lra.
  - cbn. lra.
Defined.

(* ================================================================== *)
(** ** Further properties: the samples of a run *)

Lemma log_only_refl s : log_only s s.
Proof. repeat split. Qed.

Lemma log_only_trans s1 s2 s3 : log_only s1 s2 -> log_only s2 s3 -> log_only s1 s3.
Proof.
  intros (A & B & C) (A' & B' & C'). split; [| split].
  - eapply same_analyzer_trans; eassumption.
  - congruence.
  - eapply same_timers_trans; eassumption.
Qed.

Ltac prim_log_only :=
  try (intros ? ?); cbn; repeat split.

Ltac log_only_steps :=
  preserve log_only_refl log_only_trans; prim_log_only.

Section RunSamples.

Variable cfg : Config.
Variable env : Env.
Variable page : State.

Lemma after_worker_log_only layer s : log_only s (after_worker env layer s).
Proof.
  unfold after_worker.
  destruct (has_Worker env); [destruct (worker_throws env layer) |]; repeat split.
Qed.

Lemma run_state_log_only k s s' :
  run_state cfg env page k s -> log_only s s' -> run_state cfg env page k s'.
Proof.
  intros (A & B & C & D & E) ((E1 & E2 & E3 & E4) & F & G).
  unfold same_timers in G.
  split; [now rewrite E1 |]. split; [now rewrite E4 |].
  split; [now rewrite F |]. split; [now rewrite E3 |]. now rewrite G.
Qed.

Lemma run_samples_succ (i : nat) :
  run_samples cfg env (clockReads page) (Z.of_nat (S i))
  = run_samples cfg env (clockReads page) (Z.of_nat i)
    ++ [(Z.of_nat i, [run_delay cfg env (clockReads page) (Z.of_nat i)])].
Proof. unfold run_samples. now rewrite indices_succ, map_app. Qed.

Lemma run_samples_keys k : map fst (run_samples cfg env (clockReads page) k) = indices k.
Proof.
  unfold run_samples. rewrite map_map. cbn [fst]. apply map_id.
Qed.

Lemma run_samples_single k :
  Forall single_sample (run_samples cfg env (clockReads page) k).
Proof.
  unfold run_samples. apply Forall_forall. intros entry Hin.
  apply in_map_iff in Hin as (d & <- & _). reflexivity.
Qed.

(** One layer of the loop, from a state of the run. *)
Lemma layer_step_run_state (i : nat) :
  (Z.of_nat i < LAYERS cfg)%Z ->
  triple env (run_state cfg env page (Z.of_nat i)) (layer_step cfg (Z.of_nat i))
         (fun _ => run_state cfg env page (Z.of_nat (S i)))
         (run_stopped cfg env page).
Proof.
  intros Hi s (A & B & C & D & E).
  unfold layer_step. unfold bind at 1. unfold get at 1. cbv zeta.
  rewrite A, index_map_indices by lia.
  unfold bind at 1. rewrite createTemporalPressure_eq. cbv zeta.
  assert (Hdelay : totalDelay cfg (Z.of_nat i) (decay cfg (Z.of_nat i))
                     (Fin (Date_now env (clockReads s)))
                   = run_delay cfg env (clockReads page) (Z.of_nat i)).
  { unfold run_delay. now rewrite C. }
  rewrite Hdelay. set (delay := run_delay cfg env (clockReads page) (Z.of_nat i)).
  destruct (dom_throws env (Z.of_nat i)) eqn:Hd.
  { exists (Z.of_nat i). split; [lia |]. split; [left; now split | exact D]. }
  destruct (raf_throws env (Z.of_nat i)) eqn:Hr.
  { exists (Z.of_nat i). split; [lia |]. split; [right; now split |].
    destruct (after_worker_log_only (Z.of_nat i) (after_dom (Z.of_nat i) (decay cfg (Z.of_nat i)) s))
      as ((_ & _ & T & _) & _).
    rewrite T. exact D. }
  set (s5 := at_timer env (Z.of_nat i) (decay cfg (Z.of_nat i)) delay s).
  assert (H5 : energyLevels s5 = energyLevels s /\
               resonanceEstablished s5 = false /\
               clockReads s5 = S (clockReads s) /\
               temporalFrequencies s5 = temporalFrequencies s /\
               timers (trace s5) = delay :: timers (trace s)).
  { subst s5. unfold at_timer. cbv zeta.
    destruct (after_worker_log_only (Z.of_nat i)
                (after_dom (Z.of_nat i) (decay cfg (Z.of_nat i)) s))
      as ((T1 & _ & T3 & T4) & T5 & T6).
    unfold same_timers in T6.
    cbn [energyLevels resonanceEstablished clockReads temporalFrequencies
         trace set_trace timers flat_map app].
    change (flat_map _ ?tr) with (timers tr).
    rewrite T1, T3, T4, T5, T6. cbn. repeat split; assumption. }
  destruct H5 as (L5 & R5 & C5 & T5 & M5).
  rewrite recordFrequency_eq.
  assert (Hfresh : FreqMap.has (Z.of_nat i) (temporalFrequencies s5) = false).
  { apply has_false_iff. rewrite T5, D, run_samples_keys, in_indices. lia. }
  rewrite recorded_fresh by assumption.
  set (s6 := set_temporalFrequencies _ s5).
  assert (T6 : temporalFrequencies s6
               = run_samples cfg env (clockReads page) (Z.of_nat (S i))).
  { subst s6. cbn [temporalFrequencies set_temporalFrequencies].
    now rewrite T5, D, run_samples_succ. }
  assert (Hinv : run_state cfg env page (Z.of_nat (S i)) s6).
  { split; [subst s6; cbn [energyLevels set_temporalFrequencies]; now rewrite L5 |].
    split; [subst s6; cbn [resonanceEstablished set_temporalFrequencies]; assumption |].
    split; [subst s6; cbn [clockReads set_temporalFrequencies]; rewrite C5, C; lia |].
    split; [exact T6 |].
    subst s6. cbn [trace set_temporalFrequencies]. rewrite M5, E, indices_succ.
    rewrite map_app, rev_app_distr. reflexivity. }
  assert (Hana : exists s7,
             when (Z.of_nat i =? LAYERS cfg - 1)%Z (analyzeResonancePattern cfg) env s6
             = Ok tt s7 /\ log_only s6 s7).
  { destruct (Z.of_nat i =? LAYERS cfg - 1)%Z; cbn [when].
    - assert (V : verdict cfg s6 = (NaN, false)).
      { apply verdict_none, single_sample_none. rewrite T6. apply run_samples_single. }
      rewrite analyzeResonancePattern_not_converged by now rewrite V.
      eexists. split; [reflexivity |]. repeat split.
    - exists s6. split; [reflexivity | apply log_only_refl]. }
  destruct Hana as (s7 & -> & H67).
  pose proof (run_state_log_only _ _ _ Hinv H67) as H7.
  match goal with |- match ?m env s7 with _ => _ end => set (rest := m) end.
  assert (Hc : preserves log_only rest /\ never_throws rest).
  { subst rest. split; [log_only_steps | nothrow]. }
  destruct Hc as [Hc Hnt]. specialize (Hc env s7). specialize (Hnt env s7).
  destruct (rest env s7) as [[] s8 | err s8]; [| discriminate].
  eapply run_state_log_only; eassumption.
Qed.

Lemma for_each_run_state (n k : nat) :
  ((0 < n)%nat -> (Z.of_nat (k + n) <= LAYERS cfg)%Z) ->
  triple env (run_state cfg env page (Z.of_nat k))
         (for_each (map Z.of_nat (seq k n)) (layer_step cfg))
         (fun _ => run_state cfg env page (Z.of_nat (k + n)))
         (run_stopped cfg env page).
Proof.
  revert k. induction n as [| n IH]; intros k Hk.
  - intros s HP. cbn. now rewrite Nat.add_0_r.
  - cbn [seq map for_each]. eapply triple_bind.
    + apply layer_step_run_state. lia.
    + intros ?. rewrite Nat.add_succ_r. apply IH. lia.
Qed.

Lemma log_only_triple {A} k (m : M A) :
  preserves log_only m -> never_throws m ->
  triple env (run_state cfg env page k) m
         (fun _ => run_state cfg env page k) (run_stopped cfg env page).
Proof.
  intros Hc Hnt s HP. specialize (Hc env s). specialize (Hnt env s).
  destruct (m env s) as [x s' | err s']; [| discriminate].
  eapply run_state_log_only; eassumption.
Qed.

End RunSamples.

Lemma triggerCrossDomainVortex_run_state (cfg : Config) (env : Env) (page : State) :
  triple env (run_state cfg env page 0) (triggerCrossDomainVortex cfg)
         (fun _ => run_state cfg env page (Z.of_nat (Z.to_nat (LAYERS cfg))))
         (run_stopped cfg env page).
Proof.
  unfold triggerCrossDomainVortex.
  eapply triple_bind; [apply log_only_triple; [log_only_steps | nothrow] | intros ?].
  eapply triple_bind; [apply log_only_triple; [log_only_steps | nothrow] | intros ?].
  eapply triple_bind;
    [apply log_only_triple; unfold calculateEnergyCascade; [log_only_steps | nothrow]
    | intros ?].
  eapply triple_bind.
  { apply (for_each_run_state cfg env page (Z.to_nat (LAYERS cfg)) 0). lia. }
  intros ?. cbn [Nat.add].
  apply log_only_triple; unfold retuneParameters; [log_only_steps | nothrow].
Qed.

Lemma constructor_run_state (cfg : Config) (env : Env) (page : State) :
  run_state cfg env page 0 (final_state (constructor cfg env page)).
Proof.
  split; [apply constructor_energyLevels |].
  split; [reflexivity |]. split; [cbn; lia |]. split; reflexivity.
Qed.

(** X9.  What a run of a new vortex records is what it scheduled.  When
    the run reaches its end, the Map holds the layers [0 .. LAYERS-1] in
    order, each with the single sample [run_delay]: the delay computed from
    the energy level of the layer and the clock reading taken at that
    layer, which is the delay of the timer the layer set; the timers set
    are these delays in layer order, and the clock was read once per layer.
    When a stimulus stops the run at layer [d], the Map holds exactly the
    samples of the layers below [d]. *)
Theorem run_records_scheduled_delays (cfg : Config) (env : Env) (page : State) :
  let c0 := clockReads page in
  match triggerCrossDomainVortex cfg env (final_state (constructor cfg env page)) with
  | Ok _ s =>
      temporalFrequencies s = run_samples cfg env c0 (LAYERS cfg) /\
      timers (trace s)
      = rev (map (run_delay cfg env c0) (indices (LAYERS cfg))) ++ timers (trace page) /\
      clockReads s = (c0 + Z.to_nat (LAYERS cfg))%nat
  | Throw e s =>
      exists d, (0 <= d < LAYERS cfg)%Z /\ stimulus_failure env e d /\
                temporalFrequencies s = run_samples cfg env c0 d
  end.
Proof.
  cbv zeta.
  pose proof (triggerCrossDomainVortex_run_state cfg env page _
                (constructor_run_state cfg env page)) as H.
  destruct (triggerCrossDomainVortex cfg env (final_state (constructor cfg env page)))
    as [[] s | e s]; [| exact H].
  destruct H as (_ & _ & C & D & E).
  assert (Hi : indices (Z.of_nat (Z.to_nat (LAYERS cfg))) = indices (LAYERS cfg)).
  { unfold indices. now rewrite Nat2Z.id. }
  unfold run_samples in *. rewrite Hi in D, E. rewrite Nat2Z.id in C.
  split; [exact D |]. split; [exact E | exact C].
Qed.

Lemma Rmax_1_monotone (u v : R) : u <= v -> Rmax 1 u <= Rmax 1 v.
Proof.
  intros H. unfold Rmax.
  destruct (Rle_dec 1 u), (Rle_dec 1 v); lra.
Qed.

(** X10.  For a finite [ALPHA >= 0], a layer index from 0 and a prime
    factor of ordinary size, every delay of a run is a finite number of at
    least 1 ms, and it lies within 50 ms of
    [exp(-ALPHA * d) * primeFactor * 1000], both ends cut off at 1: the
    jitter never moves the delay by more than 50 ms.  (With [ALPHA >= 0]
    and [d >= 0] the energy level lies between 0 and 1, so that nothing
    overflows.) *)
Theorem run_delay_bounds (cfg : Config) (a : R) (env : Env) (c0 : nat) (d : Z) :
  ALPHA cfg = Fin a -> 0 <= a -> (0 <= d)%Z ->
  Rabs (IZR (primeFactor cfg d)) <= 1e300 ->
  let base := exp (- a * IZR d) * IZR (primeFactor cfg d) * 1000 in
  exists x,
    run_delay cfg env c0 d = Fin x /\
    1 <= x /\
    Rmax 1 (base - 50) <= x <= Rmax 1 (base + 50).
Proof.
  intros Ha _ _ _. cbv zeta. unfold run_delay.
  rewrite (decay_Fin cfg a) by assumption. rewrite totalDelay_Fin.
  eexists. split; [reflexivity |]. split; [apply Rmax_l |].
  set (t := Date_now env (c0 + Z.to_nat d) * 0.001).
  assert (Hph : -1 <= (if Z.even d then sin t else cos t) <= 1).
  { destruct (Z.even d); [apply SIN_bound | apply COS_bound]. }
  split; apply Rmax_1_monotone; lra.
Qed.

Lemma run_delay_bounds_witness :
  let base := exp (- (0.0302011) * IZR 0) * IZR (primeFactor CTT_CONFIG 0) * 1000 in
  exists x,
    run_delay CTT_CONFIG quiet_env 0 0 = Fin x /\
    1 <= x /\
    Rmax 1 (base - 50) <= x <= Rmax 1 (base + 50).
Proof.
  apply (run_delay_bounds CTT_CONFIG 0.0302011 quiet_env 0 0).
  - reflexivity.
  - lra.
  - lia.
  - change (primeFactor CTT_CONFIG 0) with 2%Z.
    rewrite Rabs_pos_eq by lra. lra.
Defined.

(* ================================================================== *)
(** ** Further properties: what the analysis computes *)

Lemma fold_add_Fin (xs : list R) (c : R) :
  fold_left add (map Fin xs) (Fin c) = Fin (fold_left Rplus xs c).
Proof.
  revert c. induction xs as [| x xs IH]; intros c; [reflexivity |].
  cbn [map fold_left add]. apply IH.
Qed.

Lemma fold_deviation_Fin (fs : list Frequency) (rs : list R) (c : R) :
  map f_deviation fs = map Fin rs ->
  fold_left (fun acc f => add acc (f_deviation f)) fs (Fin c)
  = Fin (fold_left Rplus rs c).
Proof.
  revert rs c. induction fs as [| f fs IH]; intros rs c H.
  - destruct rs; [reflexivity | discriminate].
  - destruct rs as [| r rs]; [discriminate |].
    cbn [map] in H. inversion H as [[Hf Hrest]].
    cbn [fold_left]. rewrite Hf. cbn [add]. now apply IH.
Qed.

Lemma fold_Rplus_shift (xs : list R) (c : R) :
  fold_left Rplus xs c = c + fold_left Rplus xs 0.
Proof.
  revert c. induction xs as [| x xs IH]; intros c; cbn [fold_left]; [lra |].
  rewrite (IH (c + x)), (IH (0 + x)). lra.
Qed.

Lemma fold_Rplus_ge (xs : list R) (lo : R) :
  Forall (fun x => lo <= x) xs -> INR (List.length xs) * lo <= fold_left Rplus xs 0.
Proof.
  induction 1 as [| x xs Hx _ IH].
  - cbn. lra.
  - cbn [fold_left List.length]. rewrite S_INR, fold_Rplus_shift. lra.
Qed.

Lemma fold_Rplus_lt (xs : list R) (hi : R) :
  xs <> [] -> Forall (fun x => x < hi) xs ->
  fold_left Rplus xs 0 < INR (List.length xs) * hi.
Proof.
  intros Hne H. induction H as [| x xs Hx Hall IH]; [contradiction |].
  cbn [fold_left List.length]. rewrite S_INR, fold_Rplus_shift.
  destruct xs as [| y ys].
  - cbn. lra.
  - assert (fold_left Rplus (y :: ys) 0 < INR (List.length (y :: ys)) * hi)
      by (apply IH; discriminate).
    lra.
Qed.

Lemma mean_ge (xs : list R) (lo : R) :
  xs <> [] -> Forall (fun x => lo <= x) xs -> lo <= mean xs.
Proof.
  intros Hne H. unfold mean.
  assert (Hn : 0 < INR (List.length xs)).
  { apply lt_0_INR. destruct xs; [contradiction | cbn; lia]. }
  pose proof (fold_Rplus_ge xs lo H) as Hs.
  apply Rmult_le_reg_r with (INR (List.length xs)); [assumption |].
  unfold Rdiv. rewrite Rmult_assoc, Rinv_l by lra. lra.
Qed.

Lemma mean_lt (xs : list R) (hi : R) :
  xs <> [] -> Forall (fun x => x < hi) xs -> mean xs < hi.
Proof.
  intros Hne H. unfold mean.
  assert (Hn : 0 < INR (List.length xs)).
  { apply lt_0_INR. destruct xs; [contradiction | cbn; lia]. }
  pose proof (fold_Rplus_lt xs hi Hne H) as Hs.
  apply Rmult_lt_reg_r with (INR (List.length xs)); [assumption |].
  unfold Rdiv. rewrite Rmult_assoc, Rinv_l by lra. lra.
Qed.

Section AnalysisFormula.

Variable cfg : Config.
Variable a : R.
Hypothesis alpha_finite : ALPHA cfg = Fin a.

Lemma relative_deviation_nonneg layer xs : 0 <= relative_deviation a layer xs.
Proof.
  unfold relative_deviation.
  pose proof (exp_pos (- a * IZR layer)).
  apply Rmult_le_pos; [apply Rabs_pos |].
  left. apply Rinv_0_lt_compat. lra.
Qed.

(** The element the analysis builds for a layer with finite samples. *)
Lemma frequency_of_finite levels (e : Z * list R) :
  qualifies (finite_entry e) = true ->
  exists f, frequency_of cfg levels (finite_entry e) = [f] /\
            f_deviation f = Fin (relative_deviation a (fst e) (snd e)).
Proof.
  destruct e as [layer xs]. unfold finite_entry, qualifies. cbn [fst snd].
  intros Hq. unfold frequency_of. rewrite Hq.
  eexists. split; [reflexivity |]. cbn [f_deviation].
  rewrite (expected_delay_Fin cfg a alpha_finite).
  unfold sum. rewrite fold_add_Fin, length_map.
  apply Nat.ltb_lt in Hq. rewrite length_map in Hq.
  assert (Hlen : INR (List.length xs) <> 0) by (apply not_0_INR; lia).
  unfold of_Z. rewrite IZR_of_nat, div_Fin by assumption.
  pose proof (exp_pos (- a * IZR layer)).
  unfold sub, neg, add, Math_abs. rewrite div_Fin by lra.
  reflexivity.
Qed.

Lemma frequencies_finite levels (q : list (Z * list R)) :
  Forall (fun e => qualifies (finite_entry e) = true) q ->
  exists fs, frequencies cfg levels (map finite_entry q) = fs /\
             List.length fs = List.length q /\
             map f_deviation fs
             = map Fin (map (fun e => relative_deviation a (fst e) (snd e)) q).
Proof.
  unfold frequencies. induction 1 as [| e q He _ (fs & Hfs & Hlen & Hdev)].
  - exists []. repeat split.
  - destruct (frequency_of_finite levels e He) as (f & Hf & Hd).
    exists (f :: fs). cbn [map flat_map]. rewrite Hf, Hfs. cbn [app].
    split; [reflexivity |]. split; [cbn; now rewrite Hlen |].
    cbn [map]. now rewrite Hd, Hdev.
Qed.

Lemma verdict_finite s (q : list (Z * list R)) :
  filter qualifies (temporalFrequencies s) = map finite_entry q ->
  q <> [] ->
  verdict cfg s
  = (Fin (mean (map (fun e => relative_deviation a (fst e) (snd e)) q)),
     if Rlt_dec (mean (map (fun e => relative_deviation a (fst e) (snd e)) q)) 0.1
     then true else false).
Proof.
  intros Hq Hne. unfold verdict.
  rewrite frequencies_filter, Hq.
  assert (Hall : Forall (fun e => qualifies (finite_entry e) = true) q).
  { apply Forall_forall. intros e He.
    assert (Hin : In (finite_entry e) (filter qualifies (temporalFrequencies s))).
    { rewrite Hq. now apply in_map. }
    now apply filter_In in Hin. }
  destruct (frequencies_finite (energyLevels s) q Hall) as (fs & -> & Hlen & Hdev).
  assert (Havg : avgDeviation fs
                 = Fin (mean (map (fun e => relative_deviation a (fst e) (snd e)) q))).
  { unfold avgDeviation, mean. rewrite (fold_deviation_Fin fs _ 0 Hdev).
    rewrite length_map, <- Hlen.
    assert (Hn : INR (List.length fs) <> 0).
    { apply not_0_INR. rewrite Hlen. destruct q; [contradiction | discriminate]. }
    unfold of_Z. rewrite IZR_of_nat. now apply div_Fin. }
  rewrite Havg. reflexivity.
Qed.

End AnalysisFormula.

Section SamplesNearExpectation.

Variable a : R.

Lemma near_expected_deviation (e : Z * list R) :
  snd e <> [] -> near_expected a 0.09 e ->
  relative_deviation a (fst e) (snd e) < 0.095.
Proof.
  intros Hne [_ Hall]. unfold relative_deviation.
  set (E := exp (- a * IZR (fst e)) * 1000) in *.
  assert (HE : 0 < E) by (subst E; pose proof (exp_pos (- a * IZR (fst e))); lra).
  assert (Hlo : 0.91 * E <= mean (snd e)).
  { apply mean_ge; [assumption |]. eapply Forall_impl; [| exact Hall].
    intros x Hx. cbv beta in Hx. unfold Rabs in Hx.
    destruct (Rcase_abs (x - E)); lra. }
  assert (Hhi : mean (snd e) < 1.095 * E).
  { apply mean_lt; [assumption |]. eapply Forall_impl; [| exact Hall].
    intros x Hx. cbv beta in Hx. unfold Rabs in Hx.
    destruct (Rcase_abs (x - E)); lra. }
  apply Rmult_lt_reg_r with E; [assumption |].
  unfold Rdiv. rewrite Rmult_assoc, Rinv_l, Rmult_1_r by lra.
  apply Rabs_def1; lra.
Qed.

Lemma above_expected_deviation (e : Z * list R) :
  snd e <> [] -> above_expected a 0.11 e ->
  0.11 <= relative_deviation a (fst e) (snd e).
Proof.
  intros Hne [_ Hall]. unfold relative_deviation.
  set (E := exp (- a * IZR (fst e)) * 1000) in *.
  assert (HE : 0 < E) by (subst E; pose proof (exp_pos (- a * IZR (fst e))); lra).
  assert (Hlo : (1 + 0.11) * E <= mean (snd e)) by now apply mean_ge.
  apply Rmult_le_reg_r with E; [assumption |].
  unfold Rdiv. rewrite Rmult_assoc, Rinv_l, Rmult_1_r by lra.
  pose proof (Rle_abs (mean (snd e) - E)). lra.
Qed.

End SamplesNearExpectation.

Lemma qualifying_entries_nonempty (tf : FreqMap.t) (q : list (Z * list R)) :
  filter qualifies tf = map finite_entry q ->
  Forall (fun e => snd e <> []) q.
Proof.
  intros Hq. apply Forall_forall. intros e He.
  assert (Hin : In (finite_entry e) (filter qualifies tf)).
  { rewrite Hq. now apply in_map. }
  apply filter_In in Hin as [_ Q]. unfold qualifies, finite_entry in Q.
  cbn [snd] in Q. rewrite length_map in Q. apply Nat.ltb_lt in Q.
  intros E. rewrite E in Q. cbn in Q. lia.
Qed.

Lemma deviations_nonempty (a : R) (q : list (Z * list R)) :
  q <> [] -> map (fun e => relative_deviation a (fst e) (snd e)) q <> [].
Proof. intros Hne. destruct q; [contradiction | discriminate]. Qed.

(** X11.  How close the samples must be.  Take a finite [ALPHA] and a Map
    in which the layers with at least two samples hold finite numbers,
    with at least one such layer, and the exponents [ALPHA * layer] of
    these layers between 0 and 700.  If every sample of these layers lies
    within 9% of the delay [exp(-ALPHA * layer) * 1000] expected for its
    layer, the analysis converges: it sets [resonanceEstablished] and
    enters the handshake.  The margin of one percent below the threshold
    0.1 is far wider than the rounding of binary64. *)
Theorem samples_within_nine_percent_converge
  (cfg : Config) (a : R) (env : Env) (s : State) (q : list (Z * list R)) :
  ALPHA cfg = Fin a ->
  filter qualifies (temporalFrequencies s) = map finite_entry q ->
  q <> [] ->
  Forall (near_expected a 0.09) q ->
  let s' := final_state (analyzeResonancePattern cfg env s) in
  snd (verdict cfg s) = true /\
  resonanceEstablished s' = true /\
  In (Log L_AttemptingHandshake) (trace s').
Proof.
  intros Ha Hq Hne Hnear. cbv zeta.
  pose proof (qualifying_entries_nonempty _ _ Hq) as Hxs.
  pose proof (verdict_finite cfg a Ha s q Hq Hne) as V.
  set (D := mean (map (fun e => relative_deviation a (fst e) (snd e)) q)) in V.
  assert (HD : D < 0.1).
  { apply Rlt_trans with 0.095; [| lra]. subst D.
    apply mean_lt; [now apply deviations_nonempty |].
    apply Forall_forall. intros x Hx. apply in_map_iff in Hx as (e & <- & He).
    apply near_expected_deviation.
    - exact (proj1 (Forall_forall _ _) Hxs e He).
    - exact (proj1 (Forall_forall _ _) Hnear e He). }
  assert (Vt : snd (verdict cfg s) = true).
  { rewrite V. cbn [snd]. destruct (Rlt_dec D 0.1); [reflexivity | contradiction]. }
  split; [exact Vt |].
  destruct (analyzeResonancePattern_fields cfg env s) as (_ & _ & _ & Hr).
  split; [now rewrite Hr, Vt |].
  rewrite (analyzeResonancePattern_converged cfg env s Vt).
  apply handshake_logged.
Qed.

Lemma samples_within_nine_percent_converge_witness :
  let s := set_temporalFrequencies [(0%Z, [Fin 1000; Fin 1050])] fresh_page in
  let s' := final_state (analyzeResonancePattern CTT_CONFIG quiet_env s) in
  snd (verdict CTT_CONFIG s) = true /\
  resonanceEstablished s' = true /\
  In (Log L_AttemptingHandshake) (trace s').
Proof.
  apply (samples_within_nine_percent_converge CTT_CONFIG 0.0302011 quiet_env
           (set_temporalFrequencies [(0%Z, [Fin 1000; Fin 1050])] fresh_page)
           [(0%Z, [1000; 1050])]).
  - reflexivity.
  - reflexivity.
  - discriminate.
  - constructor; [| constructor]. unfold near_expected. cbn [fst snd].
    rewrite !Rmult_0_r, exp_0. split; [lra |].
    repeat constructor; unfold Rabs;
      match goal with |- context [Rcase_abs ?x] => destruct (Rcase_abs x) end; lra.
Defined.

(** X19.  And how far off they may not be.  For the same kind of Map, if
    every sample of the layers with at least two samples is 11% or more
    above the delay expected for its layer, the analysis does not
    converge: it returns normally, having only written the log line of
    the "incomplete" branch.  This is the situation of the delays the
    cascade itself records for a layer divisible by one of the primes. *)
Theorem samples_eleven_percent_above_do_not_converge
  (cfg : Config) (a : R) (env : Env) (s : State) (q : list (Z * list R)) :
  ALPHA cfg = Fin a ->
  filter qualifies (temporalFrequencies s) = map finite_entry q ->
  q <> [] ->
  Forall (above_expected a 0.11) q ->
  snd (verdict cfg s) = false /\
  analyzeResonancePattern cfg env s
  = Ok tt (set_trace (Log (L_ResonanceIncomplete (fst (verdict cfg s))) :: trace s) s).
Proof.
  intros Ha Hq Hne Habove.
  pose proof (qualifying_entries_nonempty _ _ Hq) as Hxs.
  pose proof (verdict_finite cfg a Ha s q Hq Hne) as V.
  set (D := mean (map (fun e => relative_deviation a (fst e) (snd e)) q)) in V.
  assert (HD : 0.11 <= D).
  { subst D. apply mean_ge; [now apply deviations_nonempty |].
    apply Forall_forall. intros x Hx. apply in_map_iff in Hx as (e & <- & He).
    apply above_expected_deviation.
    - exact (proj1 (Forall_forall _ _) Hxs e He).
    - exact (proj1 (Forall_forall _ _) Habove e He). }
  assert (Vf : snd (verdict cfg s) = false).
  { rewrite V. cbn [snd]. destruct (Rlt_dec D 0.1); [lra | reflexivity]. }
  split; [exact Vf |].
  now apply analyzeResonancePattern_not_converged.
Qed.

Lemma samples_eleven_percent_above_do_not_converge_witness :
  let s := set_temporalFrequencies [(0%Z, [Fin 2000; Fin 2040])] fresh_page in
  snd (verdict CTT_CONFIG s) = false /\
  analyzeResonancePattern CTT_CONFIG quiet_env s
  = Ok tt (set_trace (Log (L_ResonanceIncomplete (fst (verdict CTT_CONFIG s)))
                      :: trace s) s).
Proof.
  apply (samples_eleven_percent_above_do_not_converge CTT_CONFIG 0.0302011 quiet_env
           (set_temporalFrequencies [(0%Z, [Fin 2000; Fin 2040])] fresh_page)
           [(0%Z, [2000; 2040])]).
  - reflexivity.
  - reflexivity.
  - discriminate.
  - constructor; [| constructor]. unfold above_expected. cbn [fst snd].
    rewrite !Rmult_0_r, exp_0. split; [lra |].
    repeat constructor; lra.
Defined.

(* ================================================================== *)
(** ** Further properties: the handshake is entered through the flag only *)

Lemma flag_guards_refl s : flag_guards_handshake s s.
Proof. intros H. now split. Qed.

Lemma flag_guards_trans s1 s2 s3 :
  flag_guards_handshake s1 s2 -> flag_guards_handshake s2 s3 ->
  flag_guards_handshake s1 s3.
Proof.
  intros H12 H23 H3. destruct (H23 H3) as [H2 A23].
  destruct (H12 H2) as [H1 A12]. split; [assumption | congruence].
Qed.

Ltac prim_flag :=
  try (intros ? ?); cbn; intros ?; split; [assumption | reflexivity].

Section FlagGuards.

Variable cfg : Config.

Lemma analyzeResonancePattern_flag :
  preserves flag_guards_handshake (analyzeResonancePattern cfg).
Proof.
  intros env s Hend.
  destruct (analyzeResonancePattern_fields cfg env s) as (_ & _ & _ & Hr).
  rewrite Hr in Hend. apply orb_false_iff in Hend as [V Hs].
  split; [exact Hs |].
  now rewrite (analyzeResonancePattern_not_converged cfg env s V).
Qed.

Lemma recordFrequency_flag layer delay :
  preserves flag_guards_handshake (recordFrequency cfg layer delay).
Proof.
  intros env s. rewrite recordFrequency_eq.
  assert (H : flag_guards_handshake s (recorded layer delay s)).
  { unfold recorded. cbv zeta.
    destruct (FreqMap.has layer (temporalFrequencies s)); prim_flag. }
  eapply flag_guards_trans; [exact H |].
  destruct (layer =? LAYERS cfg - 1)%Z; cbn [when];
    [apply analyzeResonancePattern_flag | apply flag_guards_refl].
Qed.

Lemma createTemporalPressure_flag layer e :
  preserves flag_guards_handshake (createTemporalPressure cfg layer e).
Proof.
  unfold createTemporalPressure, applyDOMPressure, applyWorkerPressure,
    applyRAFPressure.
  apply (pr_bind _ flag_guards_trans); [prim_flag | intros t].
  cbv zeta.
  pose proof (recordFrequency_flag layer (totalDelay cfg layer e t)) as Hrec.
  set (rf := recordFrequency cfg layer (totalDelay cfg layer e t)) in *.
  clearbody rf.
  preserve flag_guards_refl flag_guards_trans; try exact Hrec; prim_flag.
Qed.

Lemma layer_step_flag d : preserves flag_guards_handshake (layer_step cfg d).
Proof.
  unfold layer_step.
  apply (pr_bind _ flag_guards_trans); [apply (pr_get _ flag_guards_refl) |].
  intros s0. cbv zeta.
  destruct (index (energyLevels s0) d) as [x |].
  - pose proof (createTemporalPressure_flag d x) as Hc.
    set (ctp := createTemporalPressure cfg d x) in *. clearbody ctp.
    preserve flag_guards_refl flag_guards_trans; try exact Hc; prim_flag.
  - pose proof (createTemporalPressure_flag d NaN) as Hc.
    set (ctp := createTemporalPressure cfg d NaN) in *. clearbody ctp.
    preserve flag_guards_refl flag_guards_trans; try exact Hc; prim_flag.
Qed.

Lemma for_each_flag ds : preserves flag_guards_handshake (for_each ds (layer_step cfg)).
Proof.
  induction ds as [| d ds IH]; cbn [for_each].
  - apply (pr_ret _ flag_guards_refl).
  - apply (pr_bind _ flag_guards_trans); [apply layer_step_flag |].
    intro. exact IH.
Qed.

Lemma triggerCrossDomainVortex_flag :
  preserves flag_guards_handshake (triggerCrossDomainVortex cfg).
Proof.
  unfold triggerCrossDomainVortex, calculateEnergyCascade, retuneParameters.
  pose proof (for_each_flag (indices (LAYERS cfg))) as Hloop.
  set (loop := for_each (indices (LAYERS cfg)) (layer_step cfg)) in *.
  clearbody loop.
  preserve flag_guards_refl flag_guards_trans; try exact Hloop; prim_flag.
Qed.

Lemma rerun_flag n : preserves flag_guards_handshake (rerun cfg n).
Proof.
  unfold rerun. induction n as [| n IH]; cbn [times].
  - apply (pr_ret _ flag_guards_refl).
  - apply (pr_bind _ flag_guards_trans); [| intro; exact IH].
    apply (pr_try_catch _ flag_guards_trans);
      [apply triggerCrossDomainVortex_flag | prim_flag].
Qed.

End FlagGuards.

(** X12.  The cascade enters the handshake through the flag only: whatever
    the configuration, the state and the environment, a run that ends, or
    stops, with [resonanceEstablished] false started with it false and
    attempted no handshake. *)
Theorem handshake_only_after_flag (cfg : Config) (env : Env) (s : State) :
  let s' := final_state (triggerCrossDomainVortex cfg env s) in
  resonanceEstablished s' = false ->
  resonanceEstablished s = false /\
  handshake_attempts (trace s') = handshake_attempts (trace s).
Proof. cbv zeta. apply triggerCrossDomainVortex_flag. Qed.

Lemma handshake_only_after_flag_witness :
  let s := final_state (constructor CTT_CONFIG quiet_env fresh_page) in
  let s' := final_state (triggerCrossDomainVortex CTT_CONFIG quiet_env s) in
  resonanceEstablished s = false /\
  handshake_attempts (trace s') = handshake_attempts (trace s).
Proof.
  apply (handshake_only_after_flag CTT_CONFIG quiet_env
           (final_state (constructor CTT_CONFIG quiet_env fresh_page))).
  exact (proj1 (single_run CTT_CONFIG quiet_env fresh_page)).
Defined.

(* ================================================================== *)
(** ** Further properties: running the cascade again *)

Lemma indices_NoDup (n : Z) : NoDup (indices n).
Proof.
  unfold indices. generalize (Z.to_nat n) as m. generalize 0%nat as k.
  intros k m. revert k. induction m as [| m IH]; intros k; cbn [seq map].
  - constructor.
  - constructor; [| apply IH].
    intros Hin. apply in_map_iff in Hin as (x & Hx & Hin).
    apply in_seq in Hin. lia.
Qed.

(** [push] on a Map that lists each of its layers once. *)
Lemma push_map (F : Z -> list number) (i : Z) (x : number) (l : list Z) :
  NoDup l ->
  FreqMap.push i x (map (fun d => (d, F d)) l)
  = map (fun d => (d, if (d =? i)%Z then F d ++ [x] else F d)) l.
Proof.
  induction 1 as [| d l Hd Hnd IH]; [reflexivity |].
  cbn [map FreqMap.push]. rewrite (Z.eqb_sym i d).
  destruct (Z.eqb_spec d i) as [-> | Hne].
  - f_equal. apply map_ext_in. intros d' Hin.
    destruct (Z.eqb_spec d' i) as [-> | _]; [contradiction | reflexivity].
  - now rewrite IH.
Qed.

Lemma has_map (F : Z -> list number) (i : Z) (l : list Z) :
  In i l -> FreqMap.has i (map (fun d => (d, F d)) l) = true.
Proof.
  intros Hin. destruct (FreqMap.has i (map (fun d => (d, F d)) l)) eqn:H;
    [reflexivity |].
  apply has_false_iff in H. exfalso. apply H.
  rewrite map_map. cbn [fst]. now rewrite map_id.
Qed.

Section DelayValues.

Variable cfg : Config.
Variable a : R.
Hypothesis alpha_finite : ALPHA cfg = Fin a.

Lemma run_delay_value env c0 d :
  run_delay cfg env c0 d = Fin (delay_value cfg a env c0 d).
Proof.
  unfold run_delay, delay_value.
  rewrite (decay_Fin cfg a) by assumption. apply totalDelay_Fin.
Qed.

Lemma delay_value_schedulable env c0 d : schedulable cfg a d (delay_value cfg a env c0 d).
Proof.
  unfold schedulable, delay_value.
  set (t := Date_now env (c0 + Z.to_nat d) * 0.001).
  assert (Hph : -1 <= (if Z.even d then sin t else cos t) <= 1).
  { destruct (Z.even d); [apply SIN_bound | apply COS_bound]. }
  split; apply Rmax_1_monotone; lra.
Qed.

Lemma history_schedulable env c0 r d :
  Forall (schedulable cfg a d) (history cfg a env c0 r d).
Proof.
  unfold history. apply Forall_forall. intros x Hx.
  apply in_map_iff in Hx as (k & <- & _). apply delay_value_schedulable.
Qed.

Lemma history_length env c0 r d : List.length (history cfg a env c0 r d) = r.
Proof. unfold history. now rewrite length_map, length_seq. Qed.

Lemma history_succ env c0 r d :
  history cfg a env c0 (S r) d
  = history cfg a env c0 r d
    ++ [delay_value cfg a env (c0 + r * Z.to_nat (LAYERS cfg)) d].
Proof. unfold history. now rewrite seq_S, map_app. Qed.

End DelayValues.

Lemma at_timer_fields env layer e delay s :
  energyLevels (at_timer env layer e delay s) = energyLevels s /\
  resonanceEstablished (at_timer env layer e delay s) = resonanceEstablished s /\
  clockReads (at_timer env layer e delay s) = S (clockReads s) /\
  temporalFrequencies (at_timer env layer e delay s) = temporalFrequencies s.
Proof.
  unfold at_timer, after_worker, after_dom. cbv zeta.
  destruct (has_Worker env); [destruct (worker_throws env layer) |]; repeat split.
Qed.

Section LaterRuns.

Variable cfg : Config.
Variable a : R.
Variable env : Env.
Variable c0 : nat.

Hypothesis alpha_finite : ALPHA cfg = Fin a.
Hypothesis stimuli_never_throw :
  forall d, (0 <= d < LAYERS cfg)%Z -> stimuli_work env d.
(** The analysis does not converge on a Map in which every layer holds at
    least two delays the cascade can set for it. *)
Hypothesis no_convergence :
  forall s (F : Z -> list R),
    (forall d, (0 <= d < LAYERS cfg)%Z ->
       (2 <= List.length (F d))%nat /\ Forall (schedulable cfg a d) (F d)) ->
    temporalFrequencies s = map (fun d => (d, map Fin (F d))) (indices (LAYERS cfg)) ->
    snd (verdict cfg s) = false.

Lemma later_run_log_only r i s s' :
  later_run cfg a env c0 r i s -> log_only s s' -> later_run cfg a env c0 r i s'.
Proof.
  intros (A & B & C & D) ((E1 & E2 & E3 & E4) & F & G).
  split; [now rewrite E1 |]. split; [now rewrite E4 |].
  split; [now rewrite F | now rewrite E3].
Qed.

Lemma later_layer_step (r i : nat) :
  (1 <= r)%nat -> (Z.of_nat i < LAYERS cfg)%Z ->
  triple env (later_run cfg a env c0 r (Z.of_nat i)) (layer_step cfg (Z.of_nat i))
         (fun _ => later_run cfg a env c0 r (Z.of_nat (S i)))
         (fun _ _ => False).
Proof.
  intros Hr Hi s (A & B & C & D).
  unfold layer_step. unfold bind at 1. unfold get at 1. cbv zeta.
  rewrite A, index_map_indices by lia.
  unfold bind at 1. rewrite createTemporalPressure_eq. cbv zeta.
  destruct (stimuli_never_throw (Z.of_nat i) ltac:(lia)) as [Hd Hraf].
  rewrite Hd, Hraf.
  set (c := (c0 + r * Z.to_nat (LAYERS cfg))%nat) in *.
  assert (Hdelay : totalDelay cfg (Z.of_nat i) (decay cfg (Z.of_nat i))
                     (Fin (Date_now env (clockReads s)))
                   = Fin (delay_value cfg a env c (Z.of_nat i))).
  { rewrite <- (run_delay_value cfg a alpha_finite). unfold run_delay. now rewrite C. }
  rewrite Hdelay. set (dv := delay_value cfg a env c).
  set (s5 := at_timer env (Z.of_nat i) (decay cfg (Z.of_nat i)) (Fin (dv (Z.of_nat i))) s).
  destruct (at_timer_fields env (Z.of_nat i) (decay cfg (Z.of_nat i))
              (Fin (dv (Z.of_nat i))) s) as (L5 & R5 & C5 & T5).
  fold s5 in L5, R5, C5, T5.
  rewrite recordFrequency_eq.
  assert (Hin : In (Z.of_nat i) (indices (LAYERS cfg))) by (apply in_indices; lia).
  assert (Hrec : recorded (Z.of_nat i) (Fin (dv (Z.of_nat i))) s5
                 = set_temporalFrequencies
                     (map (fun d =>
                             (d, map Fin (history cfg a env c0 r d
                                          ++ (if (d <? Z.of_nat (S i))%Z
                                              then [dv d] else []))))
                          (indices (LAYERS cfg))) s5).
  { unfold recorded. rewrite T5, D. rewrite has_map by assumption.
    rewrite T5, D. rewrite push_map by apply indices_NoDup.
    f_equal. apply map_ext_in. intros d Hd'. apply in_indices in Hd'.
    f_equal. destruct (Z.eqb_spec d (Z.of_nat i)) as [-> | Hne].
    - destruct (Z.ltb_spec (Z.of_nat i) (Z.of_nat i)); [lia |].
      destruct (Z.ltb_spec (Z.of_nat i) (Z.of_nat (S i))); [| lia].
      now rewrite app_nil_r, map_app.
    - destruct (Z.ltb_spec d (Z.of_nat i)), (Z.ltb_spec d (Z.of_nat (S i)));
        try lia; reflexivity. }
  rewrite Hrec.
  set (s6 := set_temporalFrequencies _ s5).
  assert (Hinv : later_run cfg a env c0 r (Z.of_nat (S i)) s6).
  { split; [subst s6; cbn [energyLevels set_temporalFrequencies]; now rewrite L5 |].
    split; [subst s6; cbn [resonanceEstablished set_temporalFrequencies];
            now rewrite R5 |].
    split; [subst s6; cbn [clockReads set_temporalFrequencies]; rewrite C5, C; lia |].
    reflexivity. }
  assert (Hana : exists s7,
             when (Z.of_nat i =? LAYERS cfg - 1)%Z (analyzeResonancePattern cfg) env s6
             = Ok tt s7 /\ log_only s6 s7).
  { destruct (Z.eqb_spec (Z.of_nat i) (LAYERS cfg - 1)) as [Hlast | _]; cbn [when].
    - assert (V : snd (verdict cfg s6) = false).
      { apply (no_convergence s6 (fun d => history cfg a env c0 r d ++ [dv d])).
        - intros d Hd'. split.
          + rewrite length_app, history_length. cbn. lia.
          + apply Forall_app. split; [apply history_schedulable |].
            constructor; [apply delay_value_schedulable | constructor].
        - subst s6. cbn [temporalFrequencies set_temporalFrequencies].
          apply map_ext_in. intros d Hd'. apply in_indices in Hd'.
          destruct (Z.ltb_spec d (Z.of_nat (S i))); [reflexivity | lia]. }
      rewrite (analyzeResonancePattern_not_converged cfg env s6 V).
      eexists. split; [reflexivity |]. repeat split.
    - exists s6. split; [reflexivity | apply log_only_refl]. }
  destruct Hana as (s7 & -> & H67).
  pose proof (later_run_log_only _ _ _ _ Hinv H67) as H7.
  match goal with |- match ?m env s7 with _ => _ end => set (rest := m) end.
  assert (Hc : preserves log_only rest /\ never_throws rest).
  { subst rest. split; [log_only_steps | nothrow]. }
  destruct Hc as [Hc Hnt]. specialize (Hc env s7). specialize (Hnt env s7).
  destruct (rest env s7) as [[] s8 | err s8]; [| discriminate].
  eapply later_run_log_only; eassumption.
Qed.

Lemma later_for_each (r n k : nat) :
  (1 <= r)%nat ->
  ((0 < n)%nat -> (Z.of_nat (k + n) <= LAYERS cfg)%Z) ->
  triple env (later_run cfg a env c0 r (Z.of_nat k))
         (for_each (map Z.of_nat (seq k n)) (layer_step cfg))
         (fun _ => later_run cfg a env c0 r (Z.of_nat (k + n)))
         (fun _ _ => False).
Proof.
  intros Hr. revert k. induction n as [| n IH]; intros k Hk.
  - intros s HP. cbn. now rewrite Nat.add_0_r.
  - cbn [seq map for_each]. eapply triple_bind.
    + apply later_layer_step; [assumption | lia].
    + intros ?. rewrite Nat.add_succ_r. apply IH. lia.
Qed.

Lemma later_log_only_triple {A} r k (m : M A) :
  preserves log_only m -> never_throws m ->
  triple env (later_run cfg a env c0 r k) m
         (fun _ => later_run cfg a env c0 r k) (fun _ _ => False).
Proof.
  intros Hc Hnt s HP. specialize (Hc env s). specialize (Hnt env s).
  destruct (m env s) as [x s' | err s']; [| discriminate].
  eapply later_run_log_only; eassumption.
Qed.

Lemma later_run_next r s :
  later_run cfg a env c0 r (Z.of_nat (Z.to_nat (LAYERS cfg))) s ->
  later_run cfg a env c0 (S r) 0 s.
Proof.
  intros (A & B & C & D). split; [assumption |]. split; [assumption |].
  split; [rewrite C; lia |].
  rewrite D. apply map_ext_in. intros d Hd. apply in_indices in Hd.
  destruct (Z.ltb_spec d (Z.of_nat (Z.to_nat (LAYERS cfg)))); [| lia].
  destruct (Z.ltb_spec d 0); [lia |].
  now rewrite history_succ, app_nil_r.
Qed.

(** One more run, from the state the run before left. *)
Lemma later_trigger (r : nat) :
  (1 <= r)%nat ->
  triple env (later_run cfg a env c0 r 0) (triggerCrossDomainVortex cfg)
         (fun _ => later_run cfg a env c0 (S r) 0) (fun _ _ => False).
Proof.
  intros Hr. unfold triggerCrossDomainVortex.
  eapply triple_bind; [apply later_log_only_triple; [log_only_steps | nothrow] | intros ?].
  eapply triple_bind; [apply later_log_only_triple; [log_only_steps | nothrow] | intros ?].
  eapply triple_bind;
    [apply later_log_only_triple; unfold calculateEnergyCascade;
     [log_only_steps | nothrow]
    | intros ?].
  eapply triple_bind.
  { apply (later_for_each r (Z.to_nat (LAYERS cfg)) 0 Hr). lia. }
  intros ?. cbn [Nat.add].
  intros s Hs. apply later_run_next in Hs. revert s Hs.
  apply later_log_only_triple; unfold retuneParameters; [log_only_steps | nothrow].
Qed.

(** The first run leaves the state the later runs start from. *)
Lemma first_run_later (page s : State) :
  c0 = clockReads page ->
  run_state cfg env page (Z.of_nat (Z.to_nat (LAYERS cfg))) s ->
  later_run cfg a env c0 1 0 s.
Proof.
  intros -> (A & B & C & D & _).
  split; [assumption |]. split; [assumption |]. split; [rewrite C; lia |].
  rewrite D. unfold run_samples, indices. rewrite Nat2Z.id.
  apply map_ext_in. intros d Hd.
  destruct (Z.ltb_spec d 0) as [Hlt | _].
  { apply in_map_iff in Hd as (x & <- & _). lia. }
  unfold history. cbn [seq map app Nat.mul].
  rewrite Nat.add_0_r. now rewrite (run_delay_value cfg a alpha_finite).
Qed.

(** Any number of runs of a new vortex: they all reach their end and none
    sets the flag. *)
Lemma rerun_later (page : State) (n : nat) :
  c0 = clockReads page ->
  exists s,
    rerun cfg (S n) env (final_state (constructor cfg env page)) = Ok tt s /\
    later_run cfg a env c0 (S n) 0 s.
Proof.
  intros Hc0.
  assert (Hgen : forall m r s,
             (1 <= r)%nat -> later_run cfg a env c0 r 0 s ->
             exists s', rerun cfg m env s = Ok tt s' /\
                        later_run cfg a env c0 (r + m) 0 s').
  { induction m as [| m IH]; intros r s Hr Hs.
    - exists s. split; [reflexivity |]. now rewrite Nat.add_0_r.
    - unfold rerun. cbn [times]. unfold bind, try_catch.
      pose proof (later_trigger r Hr s Hs) as Ht.
      destruct (triggerCrossDomainVortex cfg env s) as [[] s1 | e s1];
        [| contradiction].
      destruct (IH (S r) s1 ltac:(lia) Ht) as (s' & E & Hs').
      exists s'. split; [exact E |]. now rewrite Nat.add_succ_r. }
  unfold rerun. cbn [times]. unfold bind, try_catch.
  pose proof (triggerCrossDomainVortex_run_state cfg env page _
                (constructor_run_state cfg env page)) as H1.
  destruct (triggerCrossDomainVortex cfg env (final_state (constructor cfg env page)))
    as [[] s1 | e s1].
  - apply (first_run_later page s1 Hc0) in H1.
    destruct (Hgen n 1%nat s1 ltac:(lia) H1) as (s' & E & Hs').
    exists s'. split; [exact E | exact Hs'].
  - exfalso. destruct H1 as (d & Hd & Hf & _).
    eapply stimulus_failure_not_work; [exact Hf | now apply stimuli_never_throw].
Qed.

End LaterRuns.

(** *** The shipped configuration *)

Lemma exp_le_compat (x y : R) : x <= y -> exp x <= exp y.
Proof.
  intros [H | ->]; [left; now apply exp_increasing | lra].
Qed.

(** No energy level of the 33 layers is below a quarter. *)
Lemma ctt_energy_floor (d : Z) :
  (0 <= d <= 32)%Z -> 0.25 <= exp (- (0.0302011) * IZR d).
Proof.
  intros Hd.
  assert (H32 : exp (- (0.0302011) * 32) <= exp (- (0.0302011) * IZR d)).
  { apply exp_le_compat.
    assert (IZR d <= 32) by (apply (IZR_le d 32); lia). lra. }
  assert (Hhalf : 0.5167824 <= exp (- (0.4832176))).
  { pose proof (exp_ineq1_le (- (0.4832176))). lra. }
  assert (Hsq : exp (- (0.0302011) * 32) = exp (- (0.4832176)) * exp (- (0.4832176))).
  { rewrite <- exp_plus. f_equal. lra. }
  nra.
Qed.

(** Every layer but layer 1 is divisible by one of the primes. *)
Lemma ctt_primeFactor (d : Z) :
  (0 <= d <= 32)%Z -> d <> 1%Z -> (2 <= primeFactor CTT_CONFIG d)%Z.
Proof.
  intros Hd Hne.
  assert (H : In d [0; 2; 3; 4; 5; 6; 7; 8; 9; 10; 11; 12; 13; 14; 15; 16; 17; 18;
                    19; 20; 21; 22; 23; 24; 25; 26; 27; 28; 29; 30; 31; 32]%Z).
  { cbn [In]. lia. }
  cbn [In] in H.
  repeat (destruct H as [<- | H]; [apply Z.leb_le; reflexivity |]).
  contradiction.
Qed.

(** A layer other than layer 1 whose samples are all delays the cascade can
    set deviates by at least 80%: its prime factor at least doubles the
    delay. *)
Lemma ctt_layer_deviation (d : Z) (xs : list R) :
  (0 <= d <= 32)%Z -> d <> 1%Z -> xs <> [] ->
  Forall (schedulable CTT_CONFIG 0.0302011 d) xs ->
  0.8 <= relative_deviation 0.0302011 d xs.
Proof.
  intros Hd Hne Hxs Hall.
  pose proof (ctt_energy_floor d Hd) as HE.
  pose proof (ctt_primeFactor d Hd Hne) as Hpf. apply IZR_le in Hpf.
  set (E := exp (- (0.0302011) * IZR d)) in *.
  set (pf := IZR (primeFactor CTT_CONFIG d)) in *.
  assert (Hmean : E * pf * 1000 - 50 <= mean xs).
  { apply mean_ge; [assumption |].
    eapply Forall_impl; [| exact Hall].
    intros x [Hlo _]. fold E pf in Hlo.
    pose proof (Rmax_r 1 (E * pf * 1000 - 50)). lra. }
  assert (Hbase : 2000 * E <= E * pf * 1000) by nra.
  unfold relative_deviation. fold E.
  apply Rmult_le_reg_r with (E * 1000); [lra |].
  unfold Rdiv. rewrite Rmult_assoc, Rinv_l by lra. rewrite Rmult_1_r.
  pose proof (Rle_abs (mean xs - E * 1000)). lra.
Qed.

Lemma weighted_sum (f : Z -> R) (n : nat) :
  (forall d, (0 <= d < Z.of_nat n)%Z -> 0 <= f d) ->
  (forall d, (0 <= d < Z.of_nat n)%Z -> d <> 1%Z -> 0.8 <= f d) ->
  0.8 * INR n - 0.8 <= fold_left Rplus (map f (map Z.of_nat (seq 0 n))) 0 /\
  ((n <= 1)%nat -> 0.8 * INR n <= fold_left Rplus (map f (map Z.of_nat (seq 0 n))) 0).
Proof.
  induction n as [| n IH]; intros Hpos Hbig.
  - cbn. split; [lra | intros _; lra].
  - destruct IH as [IH1 IH2].
    { intros d Hd. apply Hpos. lia. }
    { intros d Hd. apply Hbig. lia. }
    rewrite seq_S, !map_app, fold_left_app. cbn [map fold_left Nat.add].
    rewrite S_INR.
    destruct (Nat.eq_dec n 1) as [-> | Hn1].
    + specialize (IH2 (le_n 1)). cbn [INR] in *.
      pose proof (Hpos (Z.of_nat 1) ltac:(lia)). split; [lra | intros; lia].
    + pose proof (Hbig (Z.of_nat n) ltac:(lia) ltac:(lia)) as Hn.
      split; [lra |]. intros Hle. assert (n = 0%nat) by lia. subst n.
      specialize (IH2 ltac:(lia)). cbn [INR] in *. lra.
Qed.

Lemma filter_all {A} (p : A -> bool) (l : list A) :
  (forall x, In x l -> p x = true) -> filter p l = l.
Proof.
  induction l as [| x l IH]; intros H; [reflexivity |].
  cbn [filter]. rewrite (H x (or_introl eq_refl)).
  f_equal. apply IH. intros y Hy. apply H. now right.
Qed.

(** Under the shipped configuration the analysis does not converge on a
    Map in which each of the 33 layers holds at least two delays the
    cascade can set. *)
Lemma ctt_no_convergence (s : State) (F : Z -> list R) :
  (forall d, (0 <= d < LAYERS CTT_CONFIG)%Z ->
     (2 <= List.length (F d))%nat /\ Forall (schedulable CTT_CONFIG 0.0302011 d) (F d)) ->
  temporalFrequencies s
  = map (fun d => (d, map Fin (F d))) (indices (LAYERS CTT_CONFIG)) ->
  snd (verdict CTT_CONFIG s) = false.
Proof.
  intros HF Htf.
  change (LAYERS CTT_CONFIG) with 33%Z in *.
  set (q := map (fun d => (d, F d)) (indices 33)).
  assert (Hq : filter qualifies (temporalFrequencies s) = map finite_entry q).
  { rewrite Htf, filter_all.
    - subst q. rewrite map_map. reflexivity.
    - intros entry Hin. apply in_map_iff in Hin as (d & <- & Hd).
      apply in_indices in Hd. destruct (HF d Hd) as [Hlen _].
      unfold qualifies. cbn [snd]. rewrite length_map. apply Nat.ltb_lt. lia. }
  assert (Hne : q <> []) by (subst q; discriminate).
  rewrite (verdict_finite CTT_CONFIG 0.0302011 eq_refl s q Hq Hne). cbn [snd].
  match goal with |- (if Rlt_dec ?x 0.1 then _ else _) = _ => set (D := x) end.
  destruct (Rlt_dec D 0.1) as [Hlt | _]; [exfalso | reflexivity].
  subst D q. rewrite map_map in Hlt. cbn [fst snd] in Hlt.
  unfold mean in Hlt. rewrite length_map, indices_length in Hlt.
  destruct (weighted_sum (fun d => relative_deviation 0.0302011 d (F d)) 33) as [Hsum _].
  - intros d Hd. apply relative_deviation_nonneg.
  - intros d Hd Hne1. destruct (HF d ltac:(lia)) as [Hlen Hall].
    apply ctt_layer_deviation; [lia | assumption | | assumption].
    destruct (F d); [cbn in Hlen; lia | discriminate].
  - unfold indices in Hlt. change (Z.to_nat 33) with 33%nat in *.
    assert (H33 : INR 33 = 33) by (rewrite INR_IZR_INZ; reflexivity).
    rewrite H33 in *.
    apply Rmult_lt_compat_r with (r := 33) in Hlt; [| lra].
    unfold Rdiv in Hlt. rewrite Rmult_assoc, Rinv_l, Rmult_1_r in Hlt by lra.
    lra.
Qed.

(* ================================================================== *)
(** ** Further properties: runs that a stimulus stops *)

Lemma no_analysis_refl s : no_analysis s s.
Proof. now split. Qed.

Lemma no_analysis_trans s1 s2 s3 :
  no_analysis s1 s2 -> no_analysis s2 s3 -> no_analysis s1 s3.
Proof. intros [A B] [A' B']. split; congruence. Qed.

Lemma calm_no_analysis s s' : calm s s' -> no_analysis s s'.
Proof. intros ((_ & _ & _ & A) & _ & B). now split. Qed.

Ltac prim_no_analysis :=
  try (intros ? ?); cbn; split; reflexivity.

Section StoppedRuns.

Variable cfg : Config.

Lemma recorded_no_analysis layer delay s : no_analysis s (recorded layer delay s).
Proof.
  unfold recorded. cbv zeta.
  destruct (FreqMap.has layer (temporalFrequencies s)); split; reflexivity.
Qed.

(** Below the last layer nothing analyses the Map. *)
Lemma createTemporalPressure_no_analysis layer e :
  layer <> (LAYERS cfg - 1)%Z ->
  preserves no_analysis (createTemporalPressure cfg layer e).
Proof.
  intros Hne env s. rewrite createTemporalPressure_eq. cbv zeta.
  destruct (dom_throws env layer).
  { apply calm_no_analysis, calm_clock. }
  destruct (raf_throws env layer).
  { apply calm_no_analysis, before_raf_calm. }
  rewrite recordFrequency_eq.
  destruct (Z.eqb_spec layer (LAYERS cfg - 1)) as [| _]; [contradiction |].
  cbn [when]. unfold ret. cbn [final_state].
  eapply no_analysis_trans; [| apply recorded_no_analysis].
  apply calm_no_analysis, at_timer_calm.
Qed.

Lemma layer_step_no_analysis d :
  d <> (LAYERS cfg - 1)%Z -> preserves no_analysis (layer_step cfg d).
Proof.
  intros Hne. unfold layer_step.
  apply (pr_bind _ no_analysis_trans); [apply (pr_get _ no_analysis_refl) |].
  intros s0. cbv zeta.
  destruct (index (energyLevels s0) d) as [x |].
  - pose proof (createTemporalPressure_no_analysis d x Hne) as Hc.
    set (ctp := createTemporalPressure cfg d x) in *. clearbody ctp.
    preserve no_analysis_refl no_analysis_trans; try exact Hc; prim_no_analysis.
  - pose proof (createTemporalPressure_no_analysis d NaN Hne) as Hc.
    set (ctp := createTemporalPressure cfg d NaN) in *. clearbody ctp.
    preserve no_analysis_refl no_analysis_trans; try exact Hc; prim_no_analysis.
Qed.

(** The layer whose stimulus throws stops the run before its sample is
    recorded. *)
Lemma layer_step_stops env d s :
  stimulus_throws env d ->
  exists e s', layer_step cfg d env s = Throw e s' /\ no_analysis s s'.
Proof.
  intros Hf. unfold layer_step. unfold bind at 1. unfold get at 1. cbv zeta.
  unfold bind at 1.
  set (x := match index (energyLevels s) d with Some x => x | None => NaN end).
  pose proof (createTemporalPressure_outcome cfg d x env s) as Hout.
  destruct (createTemporalPressure cfg d x env s) as [[] s' | err s'].
  - exfalso. destruct Hout as [[Hd Hr] _]. destruct Hf; congruence.
  - exists err, s'. split; [reflexivity |]. now apply calm_no_analysis.
Qed.

Lemma for_each_stops env (d0 : Z) (n k : nat) (s0 : State) :
  stimulus_throws env d0 ->
  (Z.of_nat k <= d0 < Z.of_nat (k + n))%Z ->
  (Z.of_nat (k + n) <= LAYERS cfg)%Z ->
  triple env (no_analysis s0)
         (for_each (map Z.of_nat (seq k n)) (layer_step cfg))
         (fun _ _ => False) (fun _ => no_analysis s0).
Proof.
  intros Hf. revert k. induction n as [| n IH]; intros k Hk Hn s Hs; [lia |].
  cbn [seq map for_each]. unfold bind.
  destruct (Z.eq_dec d0 (Z.of_nat k)) as [-> | Hne].
  - destruct (layer_step_stops env (Z.of_nat k) s Hf) as (e & s' & -> & H').
    eapply no_analysis_trans; eassumption.
  - pose proof (layer_step_no_analysis (Z.of_nat k) ltac:(lia) env s) as Hstep.
    destruct (layer_step cfg (Z.of_nat k) env s) as [[] s' | e s'];
      cbn [final_state] in Hstep.
    + apply (IH (S k)); [lia | lia |].
      eapply no_analysis_trans; eassumption.
    + eapply no_analysis_trans; eassumption.
Qed.

Lemma no_analysis_triple {A} env s0 (m : M A) (Q : A -> State -> Prop) :
  preserves no_analysis m -> never_throws m ->
  triple env (no_analysis s0) m (fun _ => no_analysis s0) (fun _ => no_analysis s0).
Proof.
  intros Hc Hnt s HP. specialize (Hc env s). specialize (Hnt env s).
  destruct (m env s) as [x s' | err s']; [| discriminate].
  eapply no_analysis_trans; eassumption.
Qed.

Lemma triggerCrossDomainVortex_stops env d0 s :
  (0 <= d0 < LAYERS cfg)%Z -> stimulus_throws env d0 ->
  exists e s', triggerCrossDomainVortex cfg env s = Throw e s' /\ no_analysis s s'.
Proof.
  intros Hd Hf.
  assert (H : triple env (no_analysis s) (triggerCrossDomainVortex cfg)
                     (fun _ _ => False) (fun _ => no_analysis s)).
  { unfold triggerCrossDomainVortex.
    eapply triple_bind;
      [apply (no_analysis_triple env s _ (fun _ _ => True));
       [preserve no_analysis_refl no_analysis_trans; prim_no_analysis | nothrow]
      | intros ?].
    eapply triple_bind;
      [apply (no_analysis_triple env s _ (fun _ _ => True));
       [preserve no_analysis_refl no_analysis_trans; prim_no_analysis | nothrow]
      | intros ?].
    eapply triple_bind;
      [apply (no_analysis_triple env s _ (fun _ _ => True));
       unfold calculateEnergyCascade;
       [preserve no_analysis_refl no_analysis_trans; prim_no_analysis | nothrow]
      | intros ?].
    eapply triple_bind;
      [apply (for_each_stops env d0 (Z.to_nat (LAYERS cfg)) 0 s Hf); lia |].
    intros ? ? []. }
  specialize (H s (no_analysis_refl s)).
  destruct (triggerCrossDomainVortex cfg env s) as [[] s' | e s']; [contradiction |].
  exists e, s'. now split.
Qed.

(** With the [catch] attached, every one of the runs stops and is logged. *)
Lemma rerun_stops env d0 n s :
  (0 <= d0 < LAYERS cfg)%Z -> stimulus_throws env d0 ->
  exists s', rerun cfg n env s = Ok tt s' /\ no_analysis s s'.
Proof.
  intros Hd Hf. revert s. induction n as [| n IH]; intros s.
  - exists s. split; [reflexivity | apply no_analysis_refl].
  - unfold rerun. cbn [times]. unfold bind, try_catch.
    destruct (triggerCrossDomainVortex_stops env d0 s Hd Hf) as (e & s1 & -> & H1).
    unfold console_log, emit, modify.
    match goal with |- context [times n _ env ?st] => set (s2 := st) end.
    destruct (IH s2) as (s' & E & H2).
    exists s'. split; [exact E |].
    eapply no_analysis_trans; [exact H1 |].
    eapply no_analysis_trans; [| exact H2].
    subst s2. split; reflexivity.
Qed.

End StoppedRuns.

(** X13.  A stimulus that throws stops every run, not only the first: from
    any state, if the DOM or the frame-loop stimulus throws at some layer
    in range, [triggerCrossDomainVortex] throws, the analysis is not
    reached, and [resonanceEstablished] and the number of handshake
    attempts are what they were. *)
Theorem failing_stimulus_stops_every_run
    (cfg : Config) (env : Env) (s : State) (d0 : Z) :
  (0 <= d0 < LAYERS cfg)%Z ->
  stimulus_throws env d0 ->
  exists e s',
    triggerCrossDomainVortex cfg env s = Throw e s' /\
    resonanceEstablished s' = resonanceEstablished s /\
    handshake_attempts (trace s') = handshake_attempts (trace s).
Proof.
  intros Hd Hf.
  destruct (triggerCrossDomainVortex_stops cfg env d0 s Hd Hf) as (e & s' & E & A & B).
  exists e, s'. repeat split; assumption.
Qed.

Lemma failing_stimulus_stops_every_run_witness :
  let s := final_state (constructor CTT_CONFIG dom_fails_at_3 fresh_page) in
  exists e s',
    triggerCrossDomainVortex CTT_CONFIG dom_fails_at_3 s = Throw e s' /\
    resonanceEstablished s' = resonanceEstablished s /\
    handshake_attempts (trace s') = handshake_attempts (trace s).
Proof.
  apply (failing_stimulus_stops_every_run CTT_CONFIG dom_fails_at_3
           (final_state (constructor CTT_CONFIG dom_fails_at_3 fresh_page)) 3).
  - cbn. lia.
  - left. reflexivity.
Defined.

(* ================================================================== *)
(** ** Further properties: the shipped configuration, run again and again *)

Lemma stimuli_work_or_throw (env : Env) (k : nat) :
  (forall d, (0 <= d < Z.of_nat k)%Z -> stimuli_work env d) \/
  (exists d, (0 <= d < Z.of_nat k)%Z /\ stimulus_throws env d).
Proof.
  induction k as [| k [IH | (d & Hd & Hf)]].
  - left. intros d Hd. lia.
  - destruct (dom_throws env (Z.of_nat k)) eqn:Ed.
    { right. exists (Z.of_nat k). split; [lia | now left]. }
    destruct (raf_throws env (Z.of_nat k)) eqn:Er.
    { right. exists (Z.of_nat k). split; [lia | now right]. }
    left. intros d Hd. destruct (Z.eq_dec d (Z.of_nat k)) as [-> | Hne].
    + now split.
    + apply IH. lia.
  - right. exists d. split; [lia | assumption].
Qed.

(** X14.  With the constants of [CTT_CONFIG], in real arithmetic, the
    cascade cannot set [resonanceEstablished], however often it is run on
    a vortex and whatever the clock reads and the stimuli do: every run
    returns to its [catch], the flag is false afterwards and no handshake
    has been attempted.  Every layer but layer 1 is divisible by one of
    the primes, so its delays are at least about twice what the analysis
    expects of it. *)
Theorem shipped_cascade_never_resonates (env : Env) (page : State) (n : nat) :
  exists s,
    rerun CTT_CONFIG n env (final_state (constructor CTT_CONFIG env page)) = Ok tt s /\
    resonanceEstablished s = false /\
    handshake_attempts (trace s) = handshake_attempts (trace page).
Proof.
  set (s0 := final_state (constructor CTT_CONFIG env page)).
  assert (Hend : exists s, rerun CTT_CONFIG n env s0 = Ok tt s /\
                           resonanceEstablished s = false).
  { destruct (stimuli_work_or_throw env 33) as [Hwork | (d0 & Hd & Hf)].
    - destruct n as [| n].
      + exists s0. split; reflexivity.
      + destruct (rerun_later CTT_CONFIG 0.0302011 env (clockReads page) eq_refl
                    Hwork ctt_no_convergence page n eq_refl) as (s & E & _ & B & _).
        exists s. split; assumption.
    - destruct (rerun_stops CTT_CONFIG env d0 n s0 Hd Hf) as (s & E & A & _).
      exists s. split; [exact E |]. rewrite A. reflexivity. }
  destruct Hend as (s & E & B). exists s. split; [exact E |]. split; [exact B |].
  pose proof (rerun_flag CTT_CONFIG n env s0) as Hg.
  fold s0 in E. rewrite E in Hg. cbn [final_state] in Hg.
  destruct (Hg B) as [_ Ha]. rewrite Ha. reflexivity.
Qed.

(** X15.  Samples are never dropped.  With the constants of [CTT_CONFIG],
    when no stimulus throws, after [n + 1] runs of a vortex every layer
    holds [n + 1] samples in the order of the runs, the sample of run [k]
    for layer [d] being the delay computed from clock reading number
    [33 * k + d] after the construction; each run reads the clock 33
    times. *)
Theorem repeated_runs_accumulate_samples (env : Env) (page : State) (n : nat) :
  (forall d, (0 <= d < 33)%Z -> stimuli_work env d) ->
  exists s,
    rerun CTT_CONFIG (S n) env (final_state (constructor CTT_CONFIG env page)) = Ok tt s /\
    temporalFrequencies s
    = map (fun d => (d, map Fin (history CTT_CONFIG 0.0302011 env (clockReads page) (S n) d)))
          (indices 33) /\
    clockReads s = (clockReads page + 33 * S n)%nat.
Proof.
  intros Hwork.
  destruct (rerun_later CTT_CONFIG 0.0302011 env (clockReads page) eq_refl
              Hwork ctt_no_convergence page n eq_refl) as (s & E & _ & _ & C & D).
  exists s. split; [exact E |]. split.
  - rewrite D. change (LAYERS CTT_CONFIG) with 33%Z.
    apply map_ext_in. intros d Hd. apply in_indices in Hd.
    destruct (Z.ltb_spec d 0); [lia |]. now rewrite app_nil_r.
  - rewrite C. change (Z.to_nat (LAYERS CTT_CONFIG)) with 33%nat. lia.
Qed.

Lemma repeated_runs_accumulate_samples_witness :
  exists s,
    rerun CTT_CONFIG 2 quiet_env (final_state (constructor CTT_CONFIG quiet_env fresh_page))
    = Ok tt s /\
    temporalFrequencies s
    = map (fun d => (d, map Fin (history CTT_CONFIG 0.0302011 quiet_env
                                   (clockReads fresh_page) 2 d)))
          (indices 33) /\
    clockReads s = (clockReads fresh_page + 33 * 2)%nat.
Proof.
  apply (repeated_runs_accumulate_samples quiet_env fresh_page 1).
  intros d Hd. split; reflexivity.
Defined.

(* ================================================================== *)
(** ** Further properties: the frame loop *)

Lemma opacity_Fin (x : R) : opacity (Fin x) = Fin (sin (x * 0.01) * 0.5 + 0.5).
Proof. reflexivity. Qed.

(** X16.  When the start time and the timestamps of the frames are finite,
    every opacity the frame loop writes is a number from 0 to 1, whatever
    the energy. *)
Theorem frame_loop_opacity_in_range
    (t0 : R) (e : number) (frames : list (number * nat)) :
  Forall (fun f => finite (fst f)) frames ->
  Forall (Forall valid_opacity) (pressureLoop (Fin t0) (duration e) frames).
Proof.
  induction frames as [| [ts m] frames IH]; intros Hfin; cbn [pressureLoop].
  - constructor.
  - inversion Hfin as [| ? ? [t Ht] Hrest]; subst. cbn [fst] in Ht. subst ts.
    cbv zeta. destruct (lt (sub (Fin t) (Fin t0)) (duration e)); [| constructor].
    constructor; [| now apply IH].
    change (sub (Fin t) (Fin t0)) with (Fin (t + - t0)). rewrite opacity_Fin.
    apply Forall_forall. intros o Ho. apply repeat_spec in Ho. subst o.
    eexists. split; [reflexivity |].
    pose proof (SIN_bound ((t + - t0) * 0.01)) as [Hlo Hhi]. lra.
Qed.

Lemma frame_loop_opacity_in_range_witness :
  Forall (Forall valid_opacity)
         (pressureLoop (Fin 0) (duration (Fin 1)) [(Fin 16, 2%nat); (Fin 120, 2%nat)]).
Proof.
  apply (frame_loop_opacity_in_range 0 (Fin 1) [(Fin 16, 2%nat); (Fin 120, 2%nat)]).
  repeat constructor; eexists; reflexivity.
Defined.

Lemma pressureLoop_paced (t0 delta x : R) (frames : list (number * nat)) (j : nat) :
  (forall k f, nth_error frames k = Some f ->
     exists t, fst f = Fin t /\ t0 + INR (j + k) * delta <= t) ->
  forall k, (k < List.length (pressureLoop (Fin t0) (duration (Fin x)) frames))%nat ->
            INR (j + k) * delta < x * 100.
Proof.
  revert j. induction frames as [| [ts m] frames IH]; intros j Hp k Hk;
    cbn [pressureLoop] in Hk.
  - cbn in Hk. lia.
  - destruct (Hp 0%nat (ts, m) eq_refl) as (t & Ht & Hle). cbn [fst] in Ht. subst ts.
    cbv zeta in Hk.
    destruct (lt (sub (Fin t) (Fin t0)) (duration (Fin x))) eqn:E;
      [| cbn in Hk; lia].
    assert (Hlt : t + - t0 < x * 100).
    { change (sub (Fin t) (Fin t0)) with (Fin (t + - t0)) in E.
      change (duration (Fin x)) with (Fin (x * 100)) in E. cbn [lt] in E.
      destruct (Rlt_dec (t + - t0) (x * 100)); [assumption | discriminate]. }
    destruct k as [| k].
    + rewrite Nat.add_0_r in *. lra.
    + cbn [List.length] in Hk.
      replace (j + S k)%nat with (S j + k)%nat by lia.
      apply (IH (S j)); [| lia].
      intros k' f Hf. replace (S j + k')%nat with (j + S k')%nat by lia.
      apply Hp. exact Hf.
Qed.

(** X17.  The frame loop ends.  When the frames come at least [delta] ms
    apart, the first one not before the start time, and the energy is the
    finite number [x], the frame number [k] (from 0) writes only if
    [k * delta < x * 100]: the loop runs for fewer than
    [x * 100 / delta + 1] frames. *)
Theorem frame_loop_ends
    (t0 delta x : R) (frames : list (number * nat)) (k : nat) :
  paced t0 delta frames ->
  (k < List.length (pressureLoop (Fin t0) (duration (Fin x)) frames))%nat ->
  INR k * delta < x * 100.
Proof.
  intros Hp Hk.
  apply (pressureLoop_paced t0 delta x frames 0%nat Hp k Hk).
Qed.

Lemma frame_loop_ends_witness :
  INR 0 * 16 < 1 * 100.
Proof.
  apply (frame_loop_ends 0 16 1 [(Fin 16, 2%nat); (Fin 120, 2%nat)] 0).
  - intros k f Hf. destruct k as [| [| [| k]]]; cbn in Hf; try discriminate;
      injection Hf as <-; eexists; (split; [reflexivity |]); cbn [INR]; lra.
  - cbn [pressureLoop]. cbv zeta.
    change (sub (Fin 16) (Fin 0)) with (Fin (16 + - 0)).
    change (duration (Fin 1)) with (Fin (1 * 100)).
    cbn [lt]. destruct (Rlt_dec (16 + - 0) (1 * 100)) as [_ | Hn]; [cbn; lia | lra].
Defined.

(* ================================================================== *)
(** ** Further properties: the threshold line *)

Lemma exp_double_lb (y b c : R) :
  0 <= b -> b <= exp y -> c <= b * b -> c <= exp (2 * y).
Proof.
  intros Hb Hy Hc. replace (2 * y) with (y + y) by lra.
  rewrite exp_plus. nra.
Qed.

(** The energy of layer 30 is still above the threshold. *)
Lemma ctt_energy_30 : 0.4041 < exp (- (0.0302011) * 30).
Proof.
  set (y := - (0.906033) / 16384).
  assert (H0 : 0.999944700134277 <= exp y).
  { pose proof (exp_ineq1_le y). subst y. lra. }
  assert (H1 : 0.999889403326629 <= exp (2 * y))
    by (apply (exp_double_lb y 0.999944700134277 0.999889403326629); [lra | exact H0 | lra]).
  assert (H2 : 0.999778818884882 <= exp (2 * (2 * y)))
    by (apply (exp_double_lb (2 * y) 0.999889403326629 0.999778818884882); [lra | exact H1 | lra]).
  clear H0.
  assert (H3 : 0.999557686690849 <= exp (2 * (2 * (2 * y))))
    by (apply (exp_double_lb (2 * (2 * y)) 0.999778818884882 0.999557686690849); [lra | exact H2 | lra]).
  clear H1.
  assert (H4 : 0.999115569022761 <= exp (2 * (2 * (2 * (2 * y)))))
    by (apply (exp_double_lb (2 * (2 * (2 * y))) 0.999557686690849 0.999115569022761); [lra | exact H3 | lra]).
  clear H2.
  assert (H5 : 0.998231920263675 <= exp (2 * (2 * (2 * (2 * (2 * y))))))
    by (apply (exp_double_lb (2 * (2 * (2 * (2 * y)))) 0.999115569022761 0.998231920263675); [lra | exact H4 | lra]).
  clear H3.
  assert (H6 : 0.996466966633304 <= exp (2 * (2 * (2 * (2 * (2 * (2 * y)))))))
    by (apply (exp_double_lb (2 * (2 * (2 * (2 * (2 * y))))) 0.998231920263675 0.996466966633304); [lra | exact H5 | lra]).
  clear H4.
  assert (H7 : 0.992946415591378 <= exp (2 * (2 * (2 * (2 * (2 * (2 * (2 * y))))))))
    by (apply (exp_double_lb (2 * (2 * (2 * (2 * (2 * (2 * y)))))) 0.996466966633304 0.992946415591378); [lra | exact H6 | lra]).
  clear H5.
  assert (H8 : 0.985942584235765 <= exp (2 * (2 * (2 * (2 * (2 * (2 * (2 * (2 * y)))))))))
    by (apply (exp_double_lb (2 * (2 * (2 * (2 * (2 * (2 * (2 * y))))))) 0.992946415591378 0.985942584235765); [lra | exact H7 | lra]).
  clear H6.
  assert (H9 : 0.972082779409498 <= exp (2 * (2 * (2 * (2 * (2 * (2 * (2 * (2 * (2 * y))))))))))
    by (apply (exp_double_lb (2 * (2 * (2 * (2 * (2 * (2 * (2 * (2 * y)))))))) 0.985942584235765 0.972082779409498); [lra | exact H8 | lra]).
  clear H7.
  assert (H10 : 0.944944930024494 <= exp (2 * (2 * (2 * (2 * (2 * (2 * (2 * (2 * (2 * (2 * y)))))))))))
    by (apply (exp_double_lb (2 * (2 * (2 * (2 * (2 * (2 * (2 * (2 * (2 * y))))))))) 0.972082779409498 0.944944930024494); [lra | exact H9 | lra]).
  clear H8.
  assert (H11 : 0.892920920778995 <= exp (2 * (2 * (2 * (2 * (2 * (2 * (2 * (2 * (2 * (2 * (2 * y))))))))))))
    by (apply (exp_double_lb (2 * (2 * (2 * (2 * (2 * (2 * (2 * (2 * (2 * (2 * y)))))))))) 0.944944930024494 0.892920920778995); [lra | exact H10 | lra]).
  clear H9.
  assert (H12 : 0.797307770764808 <= exp (2 * (2 * (2 * (2 * (2 * (2 * (2 * (2 * (2 * (2 * (2 * (2 * y)))))))))))))
    by (apply (exp_double_lb (2 * (2 * (2 * (2 * (2 * (2 * (2 * (2 * (2 * (2 * (2 * y))))))))))) 0.892920920778995 0.797307770764808); [lra | exact H11 | lra]).
  clear H10.
  assert (H13 : 0.635699681321947 <= exp (2 * (2 * (2 * (2 * (2 * (2 * (2 * (2 * (2 * (2 * (2 * (2 * (2 * y))))))))))))))
    by (apply (exp_double_lb (2 * (2 * (2 * (2 * (2 * (2 * (2 * (2 * (2 * (2 * (2 * (2 * y)))))))))))) 0.797307770764808 0.635699681321947); [lra | exact H12 | lra]).
  clear H11.
  assert (H14 : 0.404114084832824 <= exp (2 * (2 * (2 * (2 * (2 * (2 * (2 * (2 * (2 * (2 * (2 * (2 * (2 * (2 * y)))))))))))))))
    by (apply (exp_double_lb (2 * (2 * (2 * (2 * (2 * (2 * (2 * (2 * (2 * (2 * (2 * (2 * (2 * y))))))))))))) 0.635699681321947 0.404114084832824); [lra | exact H13 | lra]).
  clear H12.
  replace (2 * (2 * (2 * (2 * (2 * (2 * (2 * (2 * (2 * (2 * (2 * (2 * (2 * (2 * y)))))))))))))) with (- (0.906033)) in H14 by (subst y; lra).
  replace (- (0.0302011) * 30) with (- (0.906033)) by lra. lra.
Qed.

(** The energy of layer 31 is below it. *)
Lemma ctt_energy_31 : exp (- (0.0302011) * 31) < 0.4041.
Proof.
  set (y := 0.9362341 / 16).
  assert (H0 : 1.0585146312 <= exp y).
  { pose proof (exp_ineq1_le y). subst y. lra. }
  assert (H1 : 1.1204532244 <= exp (2 * y))
    by (apply (exp_double_lb y 1.0585146312 1.1204532244); [lra | exact H0 | lra]).
  assert (H2 : 1.2554154280 <= exp (2 * (2 * y)))
    by (apply (exp_double_lb (2 * y) 1.1204532244 1.2554154280); [lra | exact H1 | lra]).
  clear H0.
  assert (H3 : 1.5760678968 <= exp (2 * (2 * (2 * y))))
    by (apply (exp_double_lb (2 * (2 * y)) 1.2554154280 1.5760678968); [lra | exact H2 | lra]).
  clear H1.
  assert (H4 : 2.4839900153 <= exp (2 * (2 * (2 * (2 * y)))))
    by (apply (exp_double_lb (2 * (2 * (2 * y))) 1.5760678968 2.4839900153); [lra | exact H3 | lra]).
  clear H2.
  replace (2 * (2 * (2 * (2 * y)))) with (0.9362341) in H4 by (subst y; lra).
  replace (- (0.0302011) * 31) with (- (0.9362341)) by lra.
  rewrite exp_Ropp.
  assert (Hinv : / exp 0.9362341 <= / 2.4839).
  { apply Rinv_le_contravar; lra. }
  lra.
Qed.

(** Under the shipped configuration the test of the loop holds from layer
    31 on. *)
Lemma ctt_threshold_reached (d : Z) :
  le (decay CTT_CONFIG d) (RESONANCE_THRESHOLD CTT_CONFIG) = (31 <=? d)%Z.
Proof.
  rewrite (decay_Fin CTT_CONFIG 0.0302011 d eq_refl).
  cbn [RESONANCE_THRESHOLD CTT_CONFIG le].
  destruct (Z.leb_spec 31 d) as [Hd | Hd];
    destruct (Rle_dec (exp (- (0.0302011) * IZR d)) 0.4041) as [Hle | Hnle];
    try reflexivity; exfalso.
  - apply Hnle. pose proof ctt_energy_31 as H31.
    assert (H : exp (- (0.0302011) * IZR d) <= exp (- (0.0302011) * 31)).
    { apply exp_le_compat. assert (31 <= IZR d) by (apply (IZR_le 31 d); lia). lra. }
    lra.
  - pose proof ctt_energy_30 as H30.
    assert (H : exp (- (0.0302011) * 30) <= exp (- (0.0302011) * IZR d)).
    { apply exp_le_compat. assert (IZR d <= 30) by (apply (IZR_le d 30); lia). lra. }
    lra.
Qed.

Lemma thresholds_logged_refl cfg s : thresholds_logged cfg [] s s.
Proof. intros H. split; [assumption |]. split; reflexivity. Qed.

Lemma thresholds_logged_app cfg ds1 ds2 s1 s2 s3 :
  thresholds_logged cfg ds1 s1 s2 -> thresholds_logged cfg ds2 s2 s3 ->
  thresholds_logged cfg (ds1 ++ ds2) s1 s3.
Proof.
  intros H12 H23 H3. destruct (H23 H3) as (F2 & L23 & T23).
  destruct (H12 F2) as (F1 & L12 & T12).
  split; [assumption |]. split; [congruence |].
  rewrite T23, T12, L12, filter_app, rev_app_distr, app_assoc. reflexivity.
Qed.

Lemma thresholds_logged_trans cfg s1 s2 s3 :
  thresholds_logged cfg [] s1 s2 -> thresholds_logged cfg [] s2 s3 ->
  thresholds_logged cfg [] s1 s3.
Proof. apply (thresholds_logged_app cfg [] []). Qed.

Ltac prim_thresholds :=
  try (intros ? ?); cbn;
  let H := fresh in
  intros H; first [discriminate H | split; [exact H | split; reflexivity]].

Section ThresholdLines.

Variable cfg : Config.


Lemma post_to_iframes_thresholds fs : preserves (thresholds_logged cfg []) (post_to_iframes fs).
Proof.
  induction fs as [| f fs IH]; cbn [post_to_iframes].
  - apply (pr_ret _ (thresholds_logged_refl cfg)).
  - apply (pr_bind _ (thresholds_logged_trans cfg)); [| intro; exact IH].
    preserve (thresholds_logged_refl cfg) (thresholds_logged_trans cfg); prim_thresholds.
Qed.

Lemma analyzeResonancePattern_thresholds : preserves (thresholds_logged cfg []) (analyzeResonancePattern cfg).
Proof.
  unfold analyzeResonancePattern, attemptCrossDomainHandshake,
    handshakeViaPostMessage, handshakeViaSharedWorker,
    handshakeViaBroadcastChannel, handshakeViaServiceWorker.
  preserve (thresholds_logged_refl cfg) (thresholds_logged_trans cfg);
    try apply post_to_iframes_thresholds; prim_thresholds.
Qed.

Lemma recordFrequency_thresholds layer delay :
  preserves (thresholds_logged cfg []) (recordFrequency cfg layer delay).
Proof.
  intros env s. rewrite recordFrequency_eq.
  assert (H : (thresholds_logged cfg []) s (recorded layer delay s)).
  { unfold recorded. cbv zeta.
    destruct (FreqMap.has layer (temporalFrequencies s)); prim_thresholds. }
  eapply (thresholds_logged_trans cfg); [exact H |].
  destruct (layer =? LAYERS cfg - 1)%Z; cbn [when];
    [apply analyzeResonancePattern_thresholds | apply (thresholds_logged_refl cfg)].
Qed.

Lemma createTemporalPressure_thresholds layer e :
  preserves (thresholds_logged cfg []) (createTemporalPressure cfg layer e).
Proof.
  unfold createTemporalPressure, applyDOMPressure, applyWorkerPressure,
    applyRAFPressure.
  apply (pr_bind _ (thresholds_logged_trans cfg)); [prim_thresholds | intros t].
  cbv zeta.
  pose proof (recordFrequency_thresholds layer (totalDelay cfg layer e t)) as Hrec.
  set (rf := recordFrequency cfg layer (totalDelay cfg layer e t)) in *.
  clearbody rf.
  preserve (thresholds_logged_refl cfg) (thresholds_logged_trans cfg); try exact Hrec; prim_thresholds.
Qed.

(** One turn of the loop writes the line for its layer, if the layer
    reached the threshold, and no other. *)
Lemma layer_step_thresholds d env s :
  match layer_step cfg d env s with
  | Ok _ s' => thresholds_logged cfg [d] s s'
  | Throw _ _ => True
  end.
Proof.
  unfold layer_step. unfold bind at 1. unfold get at 1. cbv zeta.
  unfold bind at 1.
  pose proof (createTemporalPressure_thresholds d
                match index (energyLevels s) d with Some x => x | None => NaN end
                env s) as H1.
  destruct (createTemporalPressure cfg d _ env s) as [[] s1 | err s1];
    [| exact I].
  cbn [final_state] in H1.
  set (e := index (energyLevels s) d) in *.
  set (b1 := ((Z.rem d 5 =? 0)%Z || (d =? LAYERS cfg - 1)%Z)).
  assert (Hguard : forall s2,
             resonanceEstablished s2 = resonanceEstablished s1 ->
             energyLevels s2 = energyLevels s1 ->
             threshold_layers (trace s2) = threshold_layers (trace s1) ->
             match (s0 <- get ;;
                    when (le match e with Some x => x | None => NaN end
                             (RESONANCE_THRESHOLD cfg)
                          && negb (resonanceEstablished s0))
                         (console_log (L_ThresholdReached d))) env s2 with
             | Ok _ s' => thresholds_logged cfg [d] s s'
             | Throw _ _ => True
             end).
  { intros s2 F2 L2 T2. unfold bind, get.
    assert (Hfilter : filter (threshold_reached cfg (energyLevels s)) [d]
                      = if le match e with Some x => x | None => NaN end
                              (RESONANCE_THRESHOLD cfg)
                        then [d] else []).
    { cbn [filter]. unfold threshold_reached. fold e.
      now destruct (le _ (RESONANCE_THRESHOLD cfg)). }
    destruct (resonanceEstablished s2) eqn:Eflag.
    - rewrite andb_false_r. cbn [when]. unfold ret.
      intros Hend. congruence.
    - rewrite andb_true_r.
      assert (F1 : resonanceEstablished s1 = false) by congruence.
      destruct (H1 F1) as (F & L & T). cbn [filter rev app] in T.
      destruct (le match e with Some x => x | None => NaN end (RESONANCE_THRESHOLD cfg));
        cbn [when]; unfold console_log, emit, modify, ret; intros _;
        (split; [exact F |]); (split; [cbn; congruence |]);
        rewrite Hfilter; cbn [trace set_trace rev app].
      + change (threshold_layers (Log (L_ThresholdReached d) :: trace s2))
          with (d :: threshold_layers (trace s2)).
        now rewrite T2, T.
      + now rewrite T2, T. }
  unfold bind at 1.
  destruct b1; cbn [when].
  - destruct e as [x |].
    + unfold bind at 1, get at 1, console_log at 1, emit at 1, modify at 1.
      apply Hguard; reflexivity.
    + exact I.
  - unfold ret at 1. apply Hguard; reflexivity.
Qed.

Lemma for_each_thresholds ds env s :
  match for_each ds (layer_step cfg) env s with
  | Ok _ s' => thresholds_logged cfg ds s s'
  | Throw _ _ => True
  end.
Proof.
  revert s. induction ds as [| d ds IH]; intros s; cbn [for_each].
  - apply (thresholds_logged_refl cfg).
  - unfold bind. pose proof (layer_step_thresholds d env s) as Hd.
    destruct (layer_step cfg d env s) as [[] s1 | err s1]; [| exact I].
    specialize (IH s1).
    destruct (for_each ds (layer_step cfg) env s1) as [[] s' | err s']; [| exact I].
    apply (thresholds_logged_app cfg [d] ds s s1 s' Hd IH).
Qed.

Lemma quiet_before {A} (m : M A) ds env s :
  preserves (thresholds_logged cfg []) m ->
  forall k : A -> M unit,
  (forall a s1, match k a env s1 with
                | Ok _ s' => thresholds_logged cfg ds s1 s'
                | Throw _ _ => True
                end) ->
  match (bind m k) env s with
  | Ok _ s' => thresholds_logged cfg ds s s'
  | Throw _ _ => True
  end.
Proof.
  intros Hm k Hk. unfold bind. specialize (Hm env s).
  destruct (m env s) as [a s1 | err s1]; [| exact I].
  cbn [final_state] in Hm. specialize (Hk a s1).
  destruct (k a env s1) as [[] s' | err s']; [| exact I].
  apply (thresholds_logged_app cfg [] ds s s1 s' Hm Hk).
Qed.

(** A run writes the line for the layers that reached the threshold, in
    the order of the loop. *)
Lemma triggerCrossDomainVortex_thresholds env s :
  match triggerCrossDomainVortex cfg env s with
  | Ok _ s' => thresholds_logged cfg (indices (LAYERS cfg)) s s'
  | Throw _ _ => True
  end.
Proof.
  unfold triggerCrossDomainVortex.
  apply quiet_before; [prim_thresholds | intros ? s1].
  apply quiet_before; [prim_thresholds | intros ? s2].
  apply quiet_before;
    [unfold calculateEnergyCascade; preserve (thresholds_logged_refl cfg) (thresholds_logged_trans cfg); prim_thresholds
    | intros ? s3].
  unfold bind at 1. pose proof (for_each_thresholds (indices (LAYERS cfg)) env s3) as Hloop.
  destruct (for_each (indices (LAYERS cfg)) (layer_step cfg) env s3) as [[] s4 | err s4];
    [| exact I].
  match goal with |- match ?m env s4 with _ => _ end => set (rest := m) end.
  assert (Hrest : preserves (thresholds_logged cfg []) rest /\ never_throws rest).
  { subst rest. unfold retuneParameters. split;
      [preserve (thresholds_logged_refl cfg) (thresholds_logged_trans cfg); prim_thresholds | nothrow]. }
  destruct Hrest as [Hq Hnt]. specialize (Hq env s4). specialize (Hnt env s4).
  destruct (rest env s4) as [[] s5 | err s5]; [| exact I].
  cbn [final_state] in Hq.
  rewrite <- (app_nil_r (indices (LAYERS cfg))).
  apply (thresholds_logged_app cfg _ [] s3 s4 s5 Hloop Hq).
Qed.

End ThresholdLines.

Lemma ctt_threshold_layers :
  rev (filter (threshold_reached CTT_CONFIG (map (decay CTT_CONFIG) (indices 33)))
              (indices 33))
  = [32; 31]%Z.
Proof.
  rewrite (filter_ext_in _ (fun d => (31 <=? d)%Z)); [reflexivity |].
  intros d Hd. apply in_indices in Hd. unfold threshold_reached.
  rewrite index_map_indices by assumption. apply ctt_threshold_reached.
Qed.

Lemma times_snoc (m : M unit) (n : nat) env s :
  times (S n) m env s = bind (times n m) (fun _ => m) env s.
Proof.
  revert s. induction n as [| n IH]; intros s.
  - cbn [times]. unfold bind, ret.
    destruct (m env s) as [[] s' | err s']; reflexivity.
  - cbn [times] in *. unfold bind in *.
    destruct (m env s) as [[] s' | err s']; [apply IH | reflexivity].
Qed.

(** X18.  With the constants of [CTT_CONFIG], in real arithmetic, layer 30
    does not reach the threshold 0.4041: its energy [exp(-0.906033)] is
    just above it.  When no stimulus throws, every run of a vortex writes
    the line [Resonance Threshold Reached] for the layers 31 and 32, in
    this order, and for no other layer. *)
Theorem threshold_reached_at_layers_31_and_32 (env : Env) (page : State) (n : nat) :
  (forall d, (0 <= d < 33)%Z -> stimuli_work env d) ->
  exists s,
    rerun CTT_CONFIG n env (final_state (constructor CTT_CONFIG env page)) = Ok tt s /\
    threshold_layers (trace s)
    = List.concat (repeat [32; 31]%Z n) ++ threshold_layers (trace page).
Proof.
  intros Hwork.
  set (s0 := final_state (constructor CTT_CONFIG env page)).
  destruct n as [| n]; [exists s0; split; reflexivity |].
  assert (H : exists s,
             rerun CTT_CONFIG (S n) env s0 = Ok tt s /\
             later_run CTT_CONFIG 0.0302011 env (clockReads page) (S n) 0 s /\
             threshold_layers (trace s)
             = List.concat (repeat [32; 31]%Z (S n)) ++ threshold_layers (trace page)).
  { induction n as [| n (s & E & Hs & T)].
    - unfold rerun. cbn [times]. unfold bind, try_catch, ret.
      pose proof (triggerCrossDomainVortex_run_state CTT_CONFIG env page _
                    (constructor_run_state CTT_CONFIG env page)) as H1.
      pose proof (triggerCrossDomainVortex_thresholds CTT_CONFIG env s0) as H2.
      fold s0 in H1.
      destruct (triggerCrossDomainVortex CTT_CONFIG env s0) as [[] s1 | e s1].
      + apply (first_run_later CTT_CONFIG 0.0302011 env (clockReads page) eq_refl
                 page s1 eq_refl) in H1.
        exists s1. split; [reflexivity |]. split; [exact H1 |].
        destruct H1 as (_ & F & _). destruct (H2 F) as (_ & _ & T).
        rewrite T. change (energyLevels s0) with (map (decay CTT_CONFIG) (indices 33)).
        change (LAYERS CTT_CONFIG) with 33%Z. rewrite ctt_threshold_layers.
        reflexivity.
      + exfalso. destruct H1 as (d & Hd & Hf & _).
        eapply stimulus_failure_not_work; [exact Hf | now apply Hwork].
    - unfold rerun in *. rewrite times_snoc. unfold bind at 1. rewrite E.
      unfold try_catch.
      pose proof (later_trigger CTT_CONFIG 0.0302011 env (clockReads page) eq_refl
                    Hwork ctt_no_convergence (S n) ltac:(lia) s Hs) as H1.
      pose proof (triggerCrossDomainVortex_thresholds CTT_CONFIG env s) as H2.
      destruct (triggerCrossDomainVortex CTT_CONFIG env s) as [[] s1 | e s1];
        [| contradiction].
      exists s1. split; [reflexivity |]. split; [exact H1 |].
      destruct H1 as (_ & F & _). destruct (H2 F) as (_ & _ & T').
      rewrite T', T. destruct Hs as (L & _). rewrite L.
      change (LAYERS CTT_CONFIG) with 33%Z. rewrite ctt_threshold_layers.
      reflexivity. }
  destruct H as (s & E & _ & T). exists s. split; assumption.
Qed.

Lemma threshold_reached_at_layers_31_and_32_witness :
  exists s,
    rerun CTT_CONFIG 2 quiet_env (final_state (constructor CTT_CONFIG quiet_env fresh_page))
    = Ok tt s /\
    threshold_layers (trace s)
    = List.concat (repeat [32; 31]%Z 2) ++ threshold_layers (trace fresh_page).
Proof.
  apply (threshold_reached_at_layers_31_and_32 quiet_env fresh_page 2).
  intros d Hd. split; reflexivity.
Defined.
